(** * MakeaTUI: the document mutation and generation engine

    A shallow embedding of the Go packages [schema] (canvas and component
    model, identifier generator), [agent] (command session with undo and
    redo, convenience API) and [codegen] (source generator), with the part
    of [encoding/json] they call, followed by the properties of the
    engine. *)

From Stdlib Require Import ZArith Lia Ascii String.
From Stdlib Require Import DecimalString DecimalPos DecimalZ.
From stdpp Require Import base list strings.

Local Open Scope Z_scope.
Local Set Warnings "-register-all".

(** ** Go values *)

(** A Go slice value is either [nil] or a (possibly empty) sequence.  The two
    are indistinguishable for [len], [range] and [append], but are told
    apart by [encoding/json] and by [reflect.DeepEqual]. *)
Inductive slice (A : Type) : Type :=
  | nil_slice
  | mk_slice (l : list A).
Arguments nil_slice {A}.
Arguments mk_slice {A} l.

Definition elems {A} (s : slice A) : list A :=
  match s with
  | nil_slice => []
  | mk_slice l => l
  end.

(** [append(s, x)] *)
Definition append {A} (s : slice A) (x : A) : slice A :=
  mk_slice (elems s ++ [x]).

(** [t := make([]T, len(s)); copy(t, s)] *)
Definition make_copy {A} (s : slice A) : slice A :=
  mk_slice (elems s).

(** Conversion of an integer to [byte]: the low eight bits. *)
Definition byte (z : Z) : Z := Z.land z 255.

(** [uint64] wrap-around. *)
Definition uint64 (z : Z) : Z := z mod 2 ^ 64.

(** A [float64] is carried as its IEEE-754 binary64 bit pattern
    ([math.Float64bits]); the engine stores such values and never computes
    with them. *)
Definition float64 := Z.

(** Neither NaN nor an infinity: the exponent field is not all ones. *)
Definition float64_finite (f : float64) : bool :=
  negb (Z.land (Z.shiftr f 52) 2047 =? 2047).

(** The decimal form of an integer: [strconv.Itoa], the verb [%d] of
    [fmt.Sprintf], a number written by [encoding/json]. *)
Definition itoa (z : Z) : string :=
  NilZero.string_of_int (Z.to_int z).

(** ** encoding/hex *)

Definition hextable : string := "0123456789abcdef".

Definition hexdigit (v : Z) : ascii :=
  match String.get (Z.to_nat v) hextable with
  | Some c => c
  | None => "0"%char
  end.

(** [hex.EncodeToString]: two digits per byte, [hextable[v>>4]] then
    [hextable[v&0x0f]]. *)
Fixpoint EncodeToString (src : list Z) : string :=
  match src with
  | [] => ""
  | v :: rest =>
      String (hexdigit (Z.shiftr v 4))
        (String (hexdigit (Z.land v 15)) (EncodeToString rest))
  end.

(** ** Package schema *)

Definition ComponentType := string.

Definition TypeBox : ComponentType := "box".
Definition TypeText : ComponentType := "text".
Definition TypeButton : ComponentType := "button".
Definition TypeInput : ComponentType := "input".
Definition TypeList : ComponentType := "list".
Definition TypeTable : ComponentType := "table".
Definition TypeProgress : ComponentType := "progress".
Definition TypeSpinner : ComponentType := "spinner".
Definition TypeViewport : ComponentType := "viewport".
Definition TypeTabs : ComponentType := "tabs".

Module Position.
Record t := mk { X : Z; Y : Z }.
End Position.

Module Size.
Record t := mk { Width : Z; Height : Z }.
End Size.

Module Border.
Record t := mk {
  Style : string;
  Color : string;
  Left : bool;
  Right : bool;
  Top : bool;
  Bottom : bool
}.
End Border.

Module Padding.
Record t := mk { Top : Z; Right : Z; Bottom : Z; Left : Z }.
End Padding.

Module Margin.
Record t := mk { Top : Z; Right : Z; Bottom : Z; Left : Z }.
End Margin.

Module Style.
(** [Border] is a [*Border]: [None] is the nil pointer.  No code path
    writes through the pointer, so the pointee is kept by value. *)
Record t := mk {
  Foreground : string;
  Background : string;
  Bold : bool;
  Italic : bool;
  Underline : bool;
  Border : option Border.t;
  Padding : Padding.t;
  Margin : Margin.t;
  Align : string
}.

(** The zero value of the struct. *)
Definition zero : t :=
  mk "" "" false false false None
     (Padding.mk 0 0 0 0) (Margin.mk 0 0 0 0) "".
End Style.

(** The dynamic values held in a [Value any] field: the nil interface, the
    [float64] that [AddProgress] stores, and the scalars [encoding/json]
    stores into an [any] ([bool], [float64], [string]). *)
Inductive any : Type :=
  | any_nil
  | any_bool (b : bool)
  | any_float64 (f : float64)
  | any_string (s : string).

Module Component.
Inductive t : Type := mk {
  ID : string;
  Type_ : ComponentType;
  Name : string;
  Position : Position.t;
  Size : Size.t;
  Style : Style.t;
  Text : string;
  Placeholder : string;
  Items : slice string;
  Value : any;
  Children : slice t;
  Focused : bool;
  Selected : bool;
  Disabled : bool
}.

Definition with_Position (p : Position.t) (c : t) : t :=
  mk (ID c) (Type_ c) (Name c) p (Size c) (Style c) (Text c)
     (Placeholder c) (Items c) (Value c) (Children c)
     (Focused c) (Selected c) (Disabled c).

Definition with_Size (sz : Size.t) (c : t) : t :=
  mk (ID c) (Type_ c) (Name c) (Position c) sz (Style c) (Text c)
     (Placeholder c) (Items c) (Value c) (Children c)
     (Focused c) (Selected c) (Disabled c).

Definition with_Style (st : Style.t) (c : t) : t :=
  mk (ID c) (Type_ c) (Name c) (Position c) (Size c) st (Text c)
     (Placeholder c) (Items c) (Value c) (Children c)
     (Focused c) (Selected c) (Disabled c).

Definition with_Text (tx : string) (c : t) : t :=
  mk (ID c) (Type_ c) (Name c) (Position c) (Size c) (Style c) tx
     (Placeholder c) (Items c) (Value c) (Children c)
     (Focused c) (Selected c) (Disabled c).

Definition with_Items (it : slice string) (c : t) : t :=
  mk (ID c) (Type_ c) (Name c) (Position c) (Size c) (Style c) (Text c)
     (Placeholder c) it (Value c) (Children c)
     (Focused c) (Selected c) (Disabled c).

Definition with_Value (v : any) (c : t) : t :=
  mk (ID c) (Type_ c) (Name c) (Position c) (Size c) (Style c) (Text c)
     (Placeholder c) (Items c) v (Children c)
     (Focused c) (Selected c) (Disabled c).
End Component.

Module Canvas.
Record t := mk {
  Name : string;
  Width : Z;
  Height : Z;
  Components : slice Component.t;
  Theme : string
}.

Definition with_Components (cs : slice Component.t) (c : t) : t :=
  mk (Name c) (Width c) (Height c) cs (Theme c).

Definition with_Theme (th : string) (c : t) : t :=
  mk (Name c) (Width c) (Height c) (Components c) th.

Definition with_Size (w h : Z) (c : t) : t :=
  mk (Name c) w h (Components c) (Theme c).
End Canvas.

(** *** The identifier generator *)

(** The process-global state read by [generateID]: the counter
    [idCounter], and the two outside sources, the clock and the random
    source, as the sequence of answers they give to successive calls. *)
Record World := mkWorld {
  idCounter : Z;
  calls : nat;
  UnixNano : nat -> Z;
  randRead : nat -> list Z
}.

(** [randomBytes := make([]byte, 4); rand.Read(randomBytes)]: the buffer
    holds what was read, and zeroes where nothing was. *)
Definition randomBytes (w : World) : list Z :=
  take 4 (map byte (randRead w (calls w)) ++ [0; 0; 0; 0]).

Definition generateID (w : World) : string * World :=
  let counter := uint64 (idCounter w + 1) in
  let timestamp := UnixNano w (calls w) in
  ("comp_" +:+
     EncodeToString [ byte (Z.shiftr timestamp 24);
                      byte (Z.shiftr timestamp 16);
                      byte (Z.shiftr counter 8);
                      byte counter ] +:+
     EncodeToString (randomBytes w),
   mkWorld counter (S (calls w)) (UnixNano w) (randRead w)).

Definition NewComponent (ctype : ComponentType) (name : string) (w : World)
  : Component.t * World :=
  let '(id, w') := generateID w in
  (Component.mk id ctype name
     (Position.mk 0 0) (Size.mk 20 3)
     (Style.mk "" "" false false false
        (Some (Border.mk "rounded" "" true true true true))
        (Padding.mk 0 0 0 0) (Margin.mk 0 0 0 0) "")
     "" "" nil_slice any_nil nil_slice false false false,
   w').


(** ** encoding/json, as far as the engine needs it *)

(** A JSON value; a number is kept as its literal. *)
Inductive JSON : Type :=
  | JNull
  | JBool (b : bool)
  | JNumber (literal : string)
  | JString (s : string)
  | JArray (elements : list JSON)
  | JObject (members : list (string * JSON)).

(** A byte sequence handed to or returned by [encoding/json], be it a
    [json.RawMessage], a [[]byte] or a [string]: it is represented by the
    JSON value it spells, [None] when it spells none.  The printer and the
    parser of [encoding/json] are taken to be inverse of each other on JSON
    values. *)
Definition json_text := option JSON.

(** The errors of [encoding/json] the engine can meet: [Unmarshal] on bytes
    that are not JSON, [Unmarshal] on a value of the wrong kind for its
    field, [Marshal] on a NaN or an infinity. *)
Inductive json_error : Type :=
  | SyntaxError
  | UnmarshalTypeError
  | UnsupportedValueError.

(** A Go error value: one built by [fmt.Errorf], with its message, or one
    returned by [encoding/json]. *)
Inductive error_value : Type :=
  | Errorf (msg : string)
  | JSONError (e : json_error).

(** [error]: [None] is Go's [nil]. *)
Definition error := option error_value.

(** *** Strings

    [Marshal] writes a string byte by byte, except that each byte which
    does not start a well-formed UTF-8 sequence is written as the escape of
    U+FFFD; reading the text back gives the three bytes of U+FFFD. *)

Definition code (c : ascii) : Z := Z.of_N (N_of_ascii c).

Definition between (lo hi : Z) (c : ascii) : bool :=
  (lo <=? code c) && (code c <=? hi).

(** Continuation bytes: the second within the given bounds, the others
    within 80..BF. *)
Definition tail1 (lo hi : Z) (r : string) : nat :=
  match r with
  | String b1 _ => if between lo hi b1 then 2%nat else 0%nat
  | _ => 0%nat
  end.

Definition tail2 (lo hi : Z) (r : string) : nat :=
  match r with
  | String b1 (String b2 _) =>
      if between lo hi b1 && between 0x80 0xBF b2 then 3%nat else 0%nat
  | _ => 0%nat
  end.

Definition tail3 (lo hi : Z) (r : string) : nat :=
  match r with
  | String b1 (String b2 (String b3 _)) =>
      if between lo hi b1 && between 0x80 0xBF b2 && between 0x80 0xBF b3
      then 4%nat else 0%nat
  | _ => 0%nat
  end.

(** The width of the UTF-8 sequence at the head of a string, or zero when
    the first byte does not start one ([utf8.DecodeRuneInString] answers
    [RuneError] with width 1). *)
Definition rune_width (s : string) : nat :=
  match s with
  | "" => 0%nat
  | String b0 r =>
      if code b0 <? 0x80 then 1%nat
      else if between 0xC2 0xDF b0 then tail1 0x80 0xBF r
      else if code b0 =? 0xE0 then tail2 0xA0 0xBF r
      else if between 0xE1 0xEC b0 then tail2 0x80 0xBF r
      else if code b0 =? 0xED then tail2 0x80 0x9F r
      else if between 0xEE 0xEF b0 then tail2 0x80 0xBF r
      else if code b0 =? 0xF0 then tail3 0x90 0xBF r
      else if between 0xF1 0xF3 b0 then tail3 0x80 0xBF r
      else if code b0 =? 0xF4 then tail3 0x80 0x8F r
      else 0%nat
  end.

(** U+FFFD in UTF-8: EF BF BD. *)
Definition replacement : string :=
  String "239"%char (String "191"%char (String "189"%char "")).

(** [pending] counts the bytes still to copy of the sequence under way. *)
Fixpoint coerce (pending : nat) (s : string) : string :=
  match s with
  | "" => ""
  | String b r =>
      match pending with
      | S k => String b (coerce k r)
      | O =>
          match rune_width s with
          | O => replacement +:+ coerce 0 r
          | S k => String b (coerce k r)
          end
      end
  end.

(** The string a Go string becomes on its way through [Marshal] and
    [Unmarshal]. *)
Definition toValidUTF8 (s : string) : string := coerce 0 s.

(** *** Numbers *)

(** [strconv.ParseInt(literal, 10, 64)]. *)
Definition ParseInt (literal : string) : option Z :=
  match NilZero.int_of_string literal with
  | Some d =>
      let z := Z.of_int d in
      if (- 2 ^ 63 <=? z) && (z <? 2 ^ 63) then Some z else None
  | None => None
  end.

(** *** Marshal *)

Definition jstring (s : string) : JSON := JString (toValidUTF8 s).
Definition jint (z : Z) : JSON := JNumber (itoa z).

(** A field tagged [omitempty]: dropped when [empty]. *)
Definition omitempty (empty : bool) (key : string) (j : JSON)
  : list (string * JSON) :=
  if empty then [] else [(key, j)].

Definition is_empty_string (s : string) : bool := String.eqb s "".

(** [len(v) == 0] *)
Definition is_nil {A} (l : list A) : bool :=
  match l with
  | [] => true
  | _ => false
  end.

Definition marshal_Position (p : Position.t) : JSON :=
  JObject [("x", jint (Position.X p)); ("y", jint (Position.Y p))].

Definition marshal_Size (sz : Size.t) : JSON :=
  JObject [("width", jint (Size.Width sz)); ("height", jint (Size.Height sz))].

Definition marshal_Border (b : Border.t) : JSON :=
  JObject [("style", jstring (Border.Style b));
           ("color", jstring (Border.Color b));
           ("left", JBool (Border.Left b));
           ("right", JBool (Border.Right b));
           ("top", JBool (Border.Top b));
           ("bottom", JBool (Border.Bottom b))].

Definition marshal_Padding (p : Padding.t) : JSON :=
  JObject [("top", jint (Padding.Top p)); ("right", jint (Padding.Right p));
           ("bottom", jint (Padding.Bottom p)); ("left", jint (Padding.Left p))].

Definition marshal_Margin (m : Margin.t) : JSON :=
  JObject [("top", jint (Margin.Top m)); ("right", jint (Margin.Right m));
           ("bottom", jint (Margin.Bottom m)); ("left", jint (Margin.Left m))].

Definition marshal_Style (st : Style.t) : JSON :=
  JObject (
    omitempty (is_empty_string (Style.Foreground st))
      "foreground" (jstring (Style.Foreground st))
    ++ omitempty (is_empty_string (Style.Background st))
         "background" (jstring (Style.Background st))
    ++ omitempty (negb (Style.Bold st)) "bold" (JBool (Style.Bold st))
    ++ omitempty (negb (Style.Italic st)) "italic" (JBool (Style.Italic st))
    ++ omitempty (negb (Style.Underline st))
         "underline" (JBool (Style.Underline st))
    ++ match Style.Border st with
       | None => []
       | Some b => [("border", marshal_Border b)]
       end
    ++ [("padding", marshal_Padding (Style.Padding st));
        ("margin", marshal_Margin (Style.Margin st))]
    ++ omitempty (is_empty_string (Style.Align st))
         "align" (jstring (Style.Align st))).

(** [items]: dropped when of length zero, nil or not. *)
Definition marshal_Items (items : slice string) : list (string * JSON) :=
  match elems items with
  | [] => []
  | l => [("items", JArray (map jstring l))]
  end.

Section Codec.

(** [strconv.FormatFloat(f, 'f' or 'e', -1, 64)] as [Marshal] calls it on a
    finite [float64], and [strconv.ParseFloat(literal, 64)]: both belong to
    the Go library and are left open. *)
Variable FormatFloat : float64 -> string.
Variable ParseFloat : string -> option float64.

(** [value]: dropped when the interface is nil; a NaN or an infinity is an
    error. *)
Definition marshal_Value (v : any) : option (list (string * JSON)) :=
  match v with
  | any_nil => Some []
  | any_bool b => Some [("value", JBool b)]
  | any_float64 f =>
      if float64_finite f then Some [("value", JNumber (FormatFloat f))]
      else None
  | any_string s => Some [("value", jstring s)]
  end.

Fixpoint marshal_Component (c : Component.t) : option JSON :=
  value ← marshal_Value (Component.Value c);
  children ←
    match Component.Children c with
    | nil_slice => Some []
    | mk_slice l =>
        js ← mapM marshal_Component l;
        Some (omitempty (is_nil js) "children" (JArray js))
    end;
  Some (JObject (
    [("id", jstring (Component.ID c));
     ("type", jstring (Component.Type_ c));
     ("name", jstring (Component.Name c));
     ("position", marshal_Position (Component.Position c));
     ("size", marshal_Size (Component.Size c));
     ("style", marshal_Style (Component.Style c))]
    ++ omitempty (is_empty_string (Component.Text c))
         "text" (jstring (Component.Text c))
    ++ omitempty (is_empty_string (Component.Placeholder c))
         "placeholder" (jstring (Component.Placeholder c))
    ++ marshal_Items (Component.Items c)
    ++ value
    ++ children
    ++ omitempty (negb (Component.Focused c))
         "focused" (JBool (Component.Focused c))
    ++ omitempty (negb (Component.Selected c))
         "selected" (JBool (Component.Selected c))
    ++ omitempty (negb (Component.Disabled c))
         "disabled" (JBool (Component.Disabled c)))).

(** [components] carries no [omitempty]: a nil slice is written as
    [null]. *)
Definition marshal_Components (cs : slice Component.t) : option JSON :=
  match cs with
  | nil_slice => Some JNull
  | mk_slice l => JArray <$> mapM marshal_Component l
  end.

Definition marshal_Canvas (c : Canvas.t) : option JSON :=
  components ← marshal_Components (Canvas.Components c);
  Some (JObject [("name", jstring (Canvas.Name c));
                 ("width", jint (Canvas.Width c));
                 ("height", jint (Canvas.Height c));
                 ("components", components);
                 ("theme", jstring (Canvas.Theme c))]).

(** *** Unmarshal

    Each function decodes a JSON value into a Go value it is given, as
    [Unmarshal] does: [null] leaves the value alone, an object is read
    member by member, a member with an unknown key is skipped, a JSON value
    of the wrong kind is an error.  Keys are compared exactly; in Go a key
    also matches a field name it equals up to case, which no text written
    by [Marshal] depends on. *)

Definition into_string (j : JSON) (v : string) : option string :=
  match j with
  | JNull => Some v
  | JString s => Some s
  | _ => None
  end.

Definition into_int (j : JSON) (v : Z) : option Z :=
  match j with
  | JNull => Some v
  | JNumber literal => ParseInt literal
  | _ => None
  end.

Definition into_bool (j : JSON) (v : bool) : option bool :=
  match j with
  | JNull => Some v
  | JBool b => Some b
  | _ => None
  end.

Fixpoint into_members {A} (set : string -> JSON -> A -> option A)
  (ms : list (string * JSON)) (v : A) : option A :=
  match ms with
  | [] => Some v
  | (key, j) :: rest => v' ← set key j v; into_members set rest v'
  end.

Definition into_struct {A} (set : string -> JSON -> A -> option A)
  (j : JSON) (v : A) : option A :=
  match j with
  | JNull => Some v
  | JObject ms => into_members set ms v
  | _ => None
  end.

(** [var v T; err := json.Unmarshal(data, &v)] for a struct type [T] with
    zero value [zero]. *)
Definition Unmarshal {A} (set : string -> JSON -> A -> option A) (zero : A)
  (data : json_text) : json_error + A :=
  match data with
  | None => inl SyntaxError
  | Some j =>
      match into_struct set j zero with
      | Some v => inr v
      | None => inl UnmarshalTypeError
      end
  end.

Definition Position_member (key : string) (j : JSON) (p : Position.t)
  : option Position.t :=
  if String.eqb key "x" then
    x ← into_int j (Position.X p); Some (Position.mk x (Position.Y p))
  else if String.eqb key "y" then
    y ← into_int j (Position.Y p); Some (Position.mk (Position.X p) y)
  else Some p.

Definition Size_member (key : string) (j : JSON) (sz : Size.t)
  : option Size.t :=
  if String.eqb key "width" then
    x ← into_int j (Size.Width sz); Some (Size.mk x (Size.Height sz))
  else if String.eqb key "height" then
    y ← into_int j (Size.Height sz); Some (Size.mk (Size.Width sz) y)
  else Some sz.

Definition Border_member (key : string) (j : JSON) (b : Border.t)
  : option Border.t :=
  let '(Border.mk style color lft rgt top bottom) := b in
  if String.eqb key "style" then
    x ← into_string j style; Some (Border.mk x color lft rgt top bottom)
  else if String.eqb key "color" then
    x ← into_string j color; Some (Border.mk style x lft rgt top bottom)
  else if String.eqb key "left" then
    x ← into_bool j lft; Some (Border.mk style color x rgt top bottom)
  else if String.eqb key "right" then
    x ← into_bool j rgt; Some (Border.mk style color lft x top bottom)
  else if String.eqb key "top" then
    x ← into_bool j top; Some (Border.mk style color lft rgt x bottom)
  else if String.eqb key "bottom" then
    x ← into_bool j bottom; Some (Border.mk style color lft rgt top x)
  else Some b.

Definition Padding_member (key : string) (j : JSON) (p : Padding.t)
  : option Padding.t :=
  let '(Padding.mk top rgt bottom lft) := p in
  if String.eqb key "top" then
    x ← into_int j top; Some (Padding.mk x rgt bottom lft)
  else if String.eqb key "right" then
    x ← into_int j rgt; Some (Padding.mk top x bottom lft)
  else if String.eqb key "bottom" then
    x ← into_int j bottom; Some (Padding.mk top rgt x lft)
  else if String.eqb key "left" then
    x ← into_int j lft; Some (Padding.mk top rgt bottom x)
  else Some p.

Definition Margin_member (key : string) (j : JSON) (m : Margin.t)
  : option Margin.t :=
  let '(Margin.mk top rgt bottom lft) := m in
  if String.eqb key "top" then
    x ← into_int j top; Some (Margin.mk x rgt bottom lft)
  else if String.eqb key "right" then
    x ← into_int j rgt; Some (Margin.mk top x bottom lft)
  else if String.eqb key "bottom" then
    x ← into_int j bottom; Some (Margin.mk top rgt x lft)
  else if String.eqb key "left" then
    x ← into_int j lft; Some (Margin.mk top rgt bottom x)
  else Some m.

Definition Border_zero : Border.t := Border.mk "" "" false false false false.

(** A [*Border] field: [null] sets the pointer to nil, an object is decoded
    into the pointee, allocated first when the pointer is nil. *)
Definition into_Border_ptr (j : JSON) (v : option Border.t)
  : option (option Border.t) :=
  match j with
  | JNull => Some None
  | JObject ms =>
      Some <$> into_members Border_member ms (default Border_zero v)
  | _ => None
  end.

Definition Style_member (key : string) (j : JSON) (st : Style.t)
  : option Style.t :=
  let '(Style.mk fg bg bold italic underline border padding margin align) :=
    st in
  if String.eqb key "foreground" then
    x ← into_string j fg;
    Some (Style.mk x bg bold italic underline border padding margin align)
  else if String.eqb key "background" then
    x ← into_string j bg;
    Some (Style.mk fg x bold italic underline border padding margin align)
  else if String.eqb key "bold" then
    x ← into_bool j bold;
    Some (Style.mk fg bg x italic underline border padding margin align)
  else if String.eqb key "italic" then
    x ← into_bool j italic;
    Some (Style.mk fg bg bold x underline border padding margin align)
  else if String.eqb key "underline" then
    x ← into_bool j underline;
    Some (Style.mk fg bg bold italic x border padding margin align)
  else if String.eqb key "border" then
    x ← into_Border_ptr j border;
    Some (Style.mk fg bg bold italic underline x padding margin align)
  else if String.eqb key "padding" then
    x ← into_struct Padding_member j padding;
    Some (Style.mk fg bg bold italic underline border x margin align)
  else if String.eqb key "margin" then
    x ← into_struct Margin_member j margin;
    Some (Style.mk fg bg bold italic underline border padding x align)
  else if String.eqb key "align" then
    x ← into_string j align;
    Some (Style.mk fg bg bold italic underline border padding margin x)
  else Some st.

(** A slice field: [null] sets it to nil, an array replaces it by a fresh
    slice, empty and not nil for an empty array, whose elements are
    decoded into zero values. *)
Definition into_strings (j : JSON) (v : slice string)
  : option (slice string) :=
  match j with
  | JNull => Some nil_slice
  | JArray l => mk_slice <$> mapM (λ e, into_string e "") l
  | _ => None
  end.

(** An [any] field: [null] gives the nil interface, a boolean a [bool], a
    number a [float64], a string a [string].  Arrays and objects, which Go
    stores as [[]any] and [map[string]any], are beyond the values modelled
    by [any] and are refused here. *)
Definition into_any (j : JSON) (v : any) : option any :=
  match j with
  | JNull => Some any_nil
  | JBool b => Some (any_bool b)
  | JNumber literal => any_float64 <$> ParseFloat literal
  | JString s => Some (any_string s)
  | _ => None
  end.

Definition Component_zero : Component.t :=
  Component.mk "" "" "" (Position.mk 0 0) (Size.mk 0 0) Style.zero
    "" "" nil_slice any_nil nil_slice false false false.

(** The members of a component other than [children]. *)
Definition Component_member (key : string) (j : JSON) (c : Component.t)
  : option Component.t :=
  let '(Component.mk id type name position size style text placeholder
          items value children focused selected disabled) := c in
  if String.eqb key "id" then
    x ← into_string j id;
    Some (Component.mk x type name position size style text placeholder
            items value children focused selected disabled)
  else if String.eqb key "type" then
    x ← into_string j type;
    Some (Component.mk id x name position size style text placeholder
            items value children focused selected disabled)
  else if String.eqb key "name" then
    x ← into_string j name;
    Some (Component.mk id type x position size style text placeholder
            items value children focused selected disabled)
  else if String.eqb key "position" then
    x ← into_struct Position_member j position;
    Some (Component.mk id type name x size style text placeholder
            items value children focused selected disabled)
  else if String.eqb key "size" then
    x ← into_struct Size_member j size;
    Some (Component.mk id type name position x style text placeholder
            items value children focused selected disabled)
  else if String.eqb key "style" then
    x ← into_struct Style_member j style;
    Some (Component.mk id type name position size x text placeholder
            items value children focused selected disabled)
  else if String.eqb key "text" then
    x ← into_string j text;
    Some (Component.mk id type name position size style x placeholder
            items value children focused selected disabled)
  else if String.eqb key "placeholder" then
    x ← into_string j placeholder;
    Some (Component.mk id type name position size style text x
            items value children focused selected disabled)
  else if String.eqb key "items" then
    x ← into_strings j items;
    Some (Component.mk id type name position size style text placeholder
            x value children focused selected disabled)
  else if String.eqb key "value" then
    x ← into_any j value;
    Some (Component.mk id type name position size style text placeholder
            items x children focused selected disabled)
  else if String.eqb key "focused" then
    x ← into_bool j focused;
    Some (Component.mk id type name position size style text placeholder
            items value children x selected disabled)
  else if String.eqb key "selected" then
    x ← into_bool j selected;
    Some (Component.mk id type name position size style text placeholder
            items value children focused x disabled)
  else if String.eqb key "disabled" then
    x ← into_bool j disabled;
    Some (Component.mk id type name position size style text placeholder
            items value children focused selected x)
  else Some c.

Definition with_Children (children : slice Component.t) (c : Component.t)
  : Component.t :=
  Component.mk (Component.ID c) (Component.Type_ c) (Component.Name c)
    (Component.Position c) (Component.Size c) (Component.Style c)
    (Component.Text c) (Component.Placeholder c) (Component.Items c)
    (Component.Value c) children
    (Component.Focused c) (Component.Selected c) (Component.Disabled c).

Fixpoint into_Component (j : JSON) (c : Component.t) {struct j}
  : option Component.t :=
  match j with
  | JNull => Some c
  | JObject ms =>
      (fix members (ms : list (string * JSON)) (c : Component.t)
         : option Component.t :=
         match ms with
         | [] => Some c
         | (key, x) :: rest =>
             c' ←
               (if String.eqb key "children" then
                  match x with
                  | JNull => Some (with_Children nil_slice c)
                  | JArray l =>
                      cs ← (fix elements (l : list JSON)
                              : option (list Component.t) :=
                              match l with
                              | [] => Some []
                              | e :: r =>
                                  c0 ← into_Component e Component_zero;
                                  cs ← elements r;
                                  Some (c0 :: cs)
                              end) l;
                      Some (with_Children (mk_slice cs) c)
                  | _ => None
                  end
                else Component_member key x c);
             members rest c'
         end) ms c
  | _ => None
  end.

Definition into_Components (j : JSON) (v : slice Component.t)
  : option (slice Component.t) :=
  match j with
  | JNull => Some nil_slice
  | JArray l => mk_slice <$> mapM (λ e, into_Component e Component_zero) l
  | _ => None
  end.

(** One member of a component object, [children] included: the step of
    the loop inside [into_Component]. *)
Definition Component_field (key : string) (j : JSON) (c : Component.t)
  : option Component.t :=
  if String.eqb key "children" then
    cs ← into_Components j (Component.Children c);
    Some (with_Children cs c)
  else Component_member key j c.

Definition Canvas_member (key : string) (j : JSON) (c : Canvas.t)
  : option Canvas.t :=
  let '(Canvas.mk name width height components theme) := c in
  if String.eqb key "name" then
    x ← into_string j name; Some (Canvas.mk x width height components theme)
  else if String.eqb key "width" then
    x ← into_int j width; Some (Canvas.mk name x height components theme)
  else if String.eqb key "height" then
    x ← into_int j height; Some (Canvas.mk name width x components theme)
  else if String.eqb key "components" then
    x ← into_Components j components;
    Some (Canvas.mk name width height x theme)
  else if String.eqb key "theme" then
    x ← into_string j theme; Some (Canvas.mk name width height components x)
  else Some c.

Definition Canvas_zero : Canvas.t := Canvas.mk "" 0 0 nil_slice "".

(** [var canvas schema.Canvas; json.Unmarshal(data, &canvas)] *)
Definition Unmarshal_Canvas (data : json_text) : json_error + Canvas.t :=
  Unmarshal Canvas_member Canvas_zero data.

(** [json.MarshalIndent(canvas, "", "  ")] *)
Definition Marshal_Canvas (c : Canvas.t) : json_error + json_text :=
  match marshal_Canvas c with
  | Some data => inr (Some data)
  | None => inl UnsupportedValueError
  end.

(** *** Canvases that survive the round trip *)

(** A string that is well-formed UTF-8. *)
Definition valid_string (s : string) : bool := String.eqb (toValidUTF8 s) s.

(** A value of Go's 64-bit [int]. *)
Definition is_int (z : Z) : bool := (- 2 ^ 63 <=? z) && (z <? 2 ^ 63).

(** A slice tagged [omitempty] that is not both empty and not nil. *)
Definition not_empty_slice {A} (s : slice A) : bool :=
  match s with
  | mk_slice [] => false
  | _ => true
  end.

Definition stable_Border (b : Border.t) : bool :=
  valid_string (Border.Style b) && valid_string (Border.Color b).

Definition stable_Style (st : Style.t) : bool :=
  valid_string (Style.Foreground st) && valid_string (Style.Background st)
  && match Style.Border st with Some b => stable_Border b | None => true end
  && is_int (Padding.Top (Style.Padding st))
  && is_int (Padding.Right (Style.Padding st))
  && is_int (Padding.Bottom (Style.Padding st))
  && is_int (Padding.Left (Style.Padding st))
  && is_int (Margin.Top (Style.Margin st))
  && is_int (Margin.Right (Style.Margin st))
  && is_int (Margin.Bottom (Style.Margin st))
  && is_int (Margin.Left (Style.Margin st))
  && valid_string (Style.Align st).

(** A finite [float64] that [ParseFloat] reads back from what
    [FormatFloat] printed, as Go's do for every finite value. *)
Definition stable_Value (v : any) : bool :=
  match v with
  | any_nil | any_bool _ => true
  | any_float64 f =>
      float64_finite f
      && match ParseFloat (FormatFloat f) with
         | Some f' => f' =? f
         | None => false
         end
  | any_string s => valid_string s
  end.

Fixpoint stable_Component (c : Component.t) : bool :=
  valid_string (Component.ID c) && valid_string (Component.Type_ c)
  && valid_string (Component.Name c)
  && is_int (Position.X (Component.Position c))
  && is_int (Position.Y (Component.Position c))
  && is_int (Size.Width (Component.Size c))
  && is_int (Size.Height (Component.Size c))
  && stable_Style (Component.Style c)
  && valid_string (Component.Text c)
  && valid_string (Component.Placeholder c)
  && not_empty_slice (Component.Items c)
  && forallb valid_string (elems (Component.Items c))
  && stable_Value (Component.Value c)
  && match Component.Children c with
     | nil_slice => true
     | mk_slice l => negb (is_nil l) && forallb stable_Component l
     end.

Definition stable_Canvas (c : Canvas.t) : bool :=
  valid_string (Canvas.Name c) && is_int (Canvas.Width c)
  && is_int (Canvas.Height c)
  && forallb stable_Component (elems (Canvas.Components c))
  && valid_string (Canvas.Theme c).

End Codec.
(** ** Package agent *)

Definition CommandType := string.

Definition CmdAddComponent : CommandType := "add_component".
Definition CmdRemoveComponent : CommandType := "remove_component".
Definition CmdMoveComponent : CommandType := "move_component".
Definition CmdResizeComponent : CommandType := "resize_component".
Definition CmdStyleComponent : CommandType := "style_component".
Definition CmdSetText : CommandType := "set_text".
Definition CmdExport : CommandType := "export".
Definition CmdSave : CommandType := "save".
Definition CmdLoad : CommandType := "load".
Definition CmdUndo : CommandType := "undo".
Definition CmdRedo : CommandType := "redo".

Module AddComponentParams.
Record t := mk {
  Type_ : ComponentType;
  Name : string;
  X : Z;
  Y : Z;
  Width : Z;
  Height : Z;
  Text : string;
  Style : option Style.t
}.
End AddComponentParams.

Module MoveComponentParams.
Record t := mk { ID : string; X : Z; Y : Z }.
End MoveComponentParams.

Module ResizeComponentParams.
Record t := mk { ID : string; Width : Z; Height : Z }.
End ResizeComponentParams.

Module StyleComponentParams.
Record t := mk { ID : string; Style : Style.t }.
End StyleComponentParams.

Module SetTextParams.
Record t := mk { ID : string; Text : string }.
End SetTextParams.

(** [json.RawMessage]: bytes that [json.Unmarshal] is to read. *)
Definition RawMessage := json_text.

(** *** Decoding the payloads

    One member of each parameter struct, by its [json] tag. *)

Definition Style_ptr (j : JSON) (v : option Style.t) : option (option Style.t) :=
  match j with
  | JNull => Some None
  | JObject ms => Some <$> into_members Style_member ms (default Style.zero v)
  | _ => None
  end.

Definition AddComponentParams_member (key : string) (j : JSON)
  (p : AddComponentParams.t) : option AddComponentParams.t :=
  let '(AddComponentParams.mk type name x y width height text style) := p in
  if String.eqb key "type" then
    v ← into_string j type;
    Some (AddComponentParams.mk v name x y width height text style)
  else if String.eqb key "name" then
    v ← into_string j name;
    Some (AddComponentParams.mk type v x y width height text style)
  else if String.eqb key "x" then
    v ← into_int j x;
    Some (AddComponentParams.mk type name v y width height text style)
  else if String.eqb key "y" then
    v ← into_int j y;
    Some (AddComponentParams.mk type name x v width height text style)
  else if String.eqb key "width" then
    v ← into_int j width;
    Some (AddComponentParams.mk type name x y v height text style)
  else if String.eqb key "height" then
    v ← into_int j height;
    Some (AddComponentParams.mk type name x y width v text style)
  else if String.eqb key "text" then
    v ← into_string j text;
    Some (AddComponentParams.mk type name x y width height v style)
  else if String.eqb key "style" then
    v ← Style_ptr j style;
    Some (AddComponentParams.mk type name x y width height text v)
  else Some p.

(** The anonymous [struct{ ID string `json:"id"` }] of [removeComponent],
    kept as its one field. *)
Definition ID_member (key : string) (j : JSON) (id : string) : option string :=
  if String.eqb key "id" then into_string j id else Some id.

Definition MoveComponentParams_member (key : string) (j : JSON)
  (p : MoveComponentParams.t) : option MoveComponentParams.t :=
  let '(MoveComponentParams.mk id x y) := p in
  if String.eqb key "id" then
    v ← into_string j id; Some (MoveComponentParams.mk v x y)
  else if String.eqb key "x" then
    v ← into_int j x; Some (MoveComponentParams.mk id v y)
  else if String.eqb key "y" then
    v ← into_int j y; Some (MoveComponentParams.mk id x v)
  else Some p.

Definition ResizeComponentParams_member (key : string) (j : JSON)
  (p : ResizeComponentParams.t) : option ResizeComponentParams.t :=
  let '(ResizeComponentParams.mk id width height) := p in
  if String.eqb key "id" then
    v ← into_string j id; Some (ResizeComponentParams.mk v width height)
  else if String.eqb key "width" then
    v ← into_int j width; Some (ResizeComponentParams.mk id v height)
  else if String.eqb key "height" then
    v ← into_int j height; Some (ResizeComponentParams.mk id width v)
  else Some p.

Definition StyleComponentParams_member (key : string) (j : JSON)
  (p : StyleComponentParams.t) : option StyleComponentParams.t :=
  let '(StyleComponentParams.mk id style) := p in
  if String.eqb key "id" then
    v ← into_string j id; Some (StyleComponentParams.mk v style)
  else if String.eqb key "style" then
    v ← into_struct Style_member j style; Some (StyleComponentParams.mk id v)
  else Some p.

Definition SetTextParams_member (key : string) (j : JSON)
  (p : SetTextParams.t) : option SetTextParams.t :=
  let '(SetTextParams.mk id text) := p in
  if String.eqb key "id" then
    v ← into_string j id; Some (SetTextParams.mk v text)
  else if String.eqb key "text" then
    v ← into_string j text; Some (SetTextParams.mk id v)
  else Some p.

(** [var p T; err := json.Unmarshal(params, &p)] for each [T]. *)
Definition Unmarshal_AddComponentParams (params : RawMessage)
  : json_error + AddComponentParams.t :=
  Unmarshal AddComponentParams_member
    (AddComponentParams.mk "" "" 0 0 0 0 "" None) params.

Definition Unmarshal_ID (params : RawMessage) : json_error + string :=
  Unmarshal ID_member "" params.

Definition Unmarshal_MoveComponentParams (params : RawMessage)
  : json_error + MoveComponentParams.t :=
  Unmarshal MoveComponentParams_member (MoveComponentParams.mk "" 0 0) params.

Definition Unmarshal_ResizeComponentParams (params : RawMessage)
  : json_error + ResizeComponentParams.t :=
  Unmarshal ResizeComponentParams_member
    (ResizeComponentParams.mk "" 0 0) params.

Definition Unmarshal_StyleComponentParams (params : RawMessage)
  : json_error + StyleComponentParams.t :=
  Unmarshal StyleComponentParams_member
    (StyleComponentParams.mk "" Style.zero) params.

Definition Unmarshal_SetTextParams (params : RawMessage)
  : json_error + SetTextParams.t :=
  Unmarshal SetTextParams_member (SetTextParams.mk "" "") params.

Module Command.
Record t := mk { Type_ : string; Params : RawMessage }.
End Command.

(** The stacks and the history are only ever appended to, indexed at
    [len-1], re-sliced to [:len-1], tested for [len == 0] or set to [nil]:
    they are lists with the top at the end, and [nil] is the empty list.

    Canvases are kept by value.  The backing array of [Canvas.Components]
    is written in place by the mutations, but it is never shared between
    the live canvas and a canvas on a stack: [saveState] pushes a copy made
    with [make] and [copy], and [Undo] and [Redo] move the live canvas to
    one stack as they take its replacement off the other.  The elements are
    copied shallowly, and no code writes through what they share (items,
    children, the border pointer). *)
Module Session.
Record t := mk {
  Canvas : Canvas.t;
  History : list Command.t;
  UndoStack : list Canvas.t;
  RedoStack : list Canvas.t
}.

Definition with_Canvas (c : Canvas.t) (s : t) : t :=
  mk c (History s) (UndoStack s) (RedoStack s).
End Session.

Definition NewSession (name : string) (width height : Z) : Session.t :=
  Session.mk
    (Canvas.mk name width height (mk_slice []) "ultraviolet")
    [] [] [].

(** The components of the live canvas, [s.Canvas.Components]. *)
Definition components (s : Session.t) : list Component.t :=
  elems (Canvas.Components (Session.Canvas s)).

Definition set_components (cs : slice Component.t) (s : Session.t)
  : Session.t :=
  Session.with_Canvas (Canvas.with_Components cs (Session.Canvas s)) s.

(** The index at which [for i := range s.Canvas.Components] first meets a
    component with the given id. *)
Definition scan (id : string) (comps : list Component.t) : option nat :=
  fst <$> list_find (λ comp, Component.ID comp = id) comps.

Definition saveState (s : Session.t) : Session.t :=
  let stateCopy :=
    Canvas.with_Components
      (make_copy (Canvas.Components (Session.Canvas s))) (Session.Canvas s) in
  Session.mk (Session.Canvas s) (Session.History s)
    (Session.UndoStack s ++ [stateCopy]) [].

Definition addComponent (params : RawMessage) (s : Session.t) (w : World)
  : error * Session.t * World :=
  match Unmarshal_AddComponentParams params with
  | inl err => (Some (JSONError err), s, w)
  | inr p =>
      let '(comp, w') :=
        NewComponent (AddComponentParams.Type_ p) (AddComponentParams.Name p) w in
      let comp :=
        Component.with_Position
          (Position.mk (AddComponentParams.X p) (AddComponentParams.Y p)) comp in
      let comp :=
        if 0 <? AddComponentParams.Width p
        then Component.with_Size
               (Size.mk (AddComponentParams.Width p)
                        (Size.Height (Component.Size comp))) comp
        else comp in
      let comp :=
        if 0 <? AddComponentParams.Height p
        then Component.with_Size
               (Size.mk (Size.Width (Component.Size comp))
                        (AddComponentParams.Height p)) comp
        else comp in
      let comp := Component.with_Text (AddComponentParams.Text p) comp in
      let comp :=
        match AddComponentParams.Style p with
        | Some st => Component.with_Style st comp
        | None => comp
        end in
      (None,
       set_components (append (Canvas.Components (Session.Canvas s)) comp) s,
       w')
  end.

Definition removeComponent (params : RawMessage) (s : Session.t)
  : error * Session.t :=
  match Unmarshal_ID params with
  | inl err => (Some (JSONError err), s)
  | inr id =>
      match scan id (components s) with
      | Some i =>
          (None,
           set_components
             (mk_slice (take i (components s) ++ drop (S i) (components s))) s)
      | None => (Some (Errorf ("component not found: " +:+ id)), s)
      end
  end.

(** The shape shared by the four in-place mutations: scan for the id,
    assign fields of [s.Canvas.Components[i]], or fail. *)
Definition update_in_place (id : string) (f : Component.t -> Component.t)
  (s : Session.t) : error * Session.t :=
  match scan id (components s) with
  | Some i => (None, set_components (mk_slice (alter f i (components s))) s)
  | None => (Some (Errorf ("component not found: " +:+ id)), s)
  end.

Definition moveComponent (params : RawMessage) (s : Session.t)
  : error * Session.t :=
  match Unmarshal_MoveComponentParams params with
  | inl err => (Some (JSONError err), s)
  | inr p =>
      update_in_place (MoveComponentParams.ID p)
        (Component.with_Position
           (Position.mk (MoveComponentParams.X p) (MoveComponentParams.Y p)))
        s
  end.

Definition resizeComponent (params : RawMessage) (s : Session.t)
  : error * Session.t :=
  match Unmarshal_ResizeComponentParams params with
  | inl err => (Some (JSONError err), s)
  | inr p =>
      update_in_place (ResizeComponentParams.ID p)
        (Component.with_Size
           (Size.mk (ResizeComponentParams.Width p)
                    (ResizeComponentParams.Height p)))
        s
  end.

Definition styleComponent (params : RawMessage) (s : Session.t)
  : error * Session.t :=
  match Unmarshal_StyleComponentParams params with
  | inl err => (Some (JSONError err), s)
  | inr p =>
      update_in_place (StyleComponentParams.ID p)
        (Component.with_Style (StyleComponentParams.Style p)) s
  end.

Definition setText (params : RawMessage) (s : Session.t)
  : error * Session.t :=
  match Unmarshal_SetTextParams params with
  | inl err => (Some (JSONError err), s)
  | inr p =>
      update_in_place (SetTextParams.ID p)
        (Component.with_Text (SetTextParams.Text p)) s
  end.

(** A mutation that leaves the process-global state alone. *)
Definition pure_step (r : error * Session.t) (w : World)
  : error * Session.t * World :=
  (r.1, r.2, w).

(** The [switch] of [Execute]: the mutation a command type selects. *)
Definition dispatch (cmd : Command.t) (s : Session.t) (w : World)
  : error * Session.t * World :=
  let params := Command.Params cmd in
  if String.eqb (Command.Type_ cmd) CmdAddComponent then
    addComponent params s w
  else if String.eqb (Command.Type_ cmd) CmdRemoveComponent then
    pure_step (removeComponent params s) w
  else if String.eqb (Command.Type_ cmd) CmdMoveComponent then
    pure_step (moveComponent params s) w
  else if String.eqb (Command.Type_ cmd) CmdResizeComponent then
    pure_step (resizeComponent params s) w
  else if String.eqb (Command.Type_ cmd) CmdStyleComponent then
    pure_step (styleComponent params s) w
  else if String.eqb (Command.Type_ cmd) CmdSetText then
    pure_step (setText params s) w
  else
    (Some (Errorf ("unknown command type: " +:+ Command.Type_ cmd)), s, w).

Definition Execute (cmd : Command.t) (s : Session.t) (w : World)
  : error * Session.t * World :=
  dispatch cmd (saveState s) w.

Definition Undo (s : Session.t) : bool * Session.t :=
  match last (Session.UndoStack s) with
  | None => (false, s)
  | Some top =>
      (true,
       Session.mk top (Session.History s)
         (take (length (Session.UndoStack s) - 1) (Session.UndoStack s))
         (Session.RedoStack s ++ [Session.Canvas s]))
  end.

Definition Redo (s : Session.t) : bool * Session.t :=
  match last (Session.RedoStack s) with
  | None => (false, s)
  | Some top =>
      (true,
       Session.mk top (Session.History s)
         (Session.UndoStack s ++ [Session.Canvas s])
         (take (length (Session.RedoStack s) - 1) (Session.RedoStack s)))
  end.

Section Serialization.

Variable FormatFloat : float64 -> string.
Variable ParseFloat : string -> option float64.

(** [ExportJSON]: [(string(data), nil)] or [("", err)], the empty string
    being no JSON. *)
Definition ExportJSON (s : Session.t) : json_text * error :=
  match Marshal_Canvas FormatFloat (Session.Canvas s) with
  | inl err => (None, Some (JSONError err))
  | inr data => (data, None)
  end.

Definition LoadFromJSON (data : json_text) (s : Session.t)
  : error * Session.t :=
  match Unmarshal_Canvas ParseFloat data with
  | inl err => (Some (JSONError err), s)
  | inr canvas => (None, Session.with_Canvas canvas s)
  end.

End Serialization.

Definition ListComponents (s : Session.t) : slice Component.t :=
  Canvas.Components (Session.Canvas s).

Definition Clear (s : Session.t) : Session.t :=
  set_components (mk_slice []) (saveState s).

Definition SetTheme (theme : string) (s : Session.t) : Session.t :=
  Session.with_Canvas (Canvas.with_Theme theme (Session.Canvas s)) s.

Definition Resize (width height : Z) (s : Session.t) : Session.t :=
  Session.with_Canvas (Canvas.with_Size width height (Session.Canvas s)) s.

(** *** The convenience API (api.go) *)

Module API.
Record t := mk { session : Session.t }.
End API.

Definition NewAPI (projectName : string) : API.t :=
  API.mk (NewSession projectName 80 24).

(** [json.Marshal] of the parameter structs the API builds. *)
Definition Marshal_AddComponentParams (p : AddComponentParams.t)
  : RawMessage :=
  Some (JObject (
    [("type", jstring (AddComponentParams.Type_ p));
     ("name", jstring (AddComponentParams.Name p));
     ("x", jint (AddComponentParams.X p));
     ("y", jint (AddComponentParams.Y p));
     ("width", jint (AddComponentParams.Width p));
     ("height", jint (AddComponentParams.Height p))]
    ++ omitempty (is_empty_string (AddComponentParams.Text p))
         "text" (jstring (AddComponentParams.Text p))
    ++ match AddComponentParams.Style p with
       | None => []
       | Some st => [("style", marshal_Style st)]
       end)).

Definition Marshal_MoveComponentParams (p : MoveComponentParams.t)
  : RawMessage :=
  Some (JObject [("id", jstring (MoveComponentParams.ID p));
                 ("x", jint (MoveComponentParams.X p));
                 ("y", jint (MoveComponentParams.Y p))]).

Definition Marshal_ResizeComponentParams (p : ResizeComponentParams.t)
  : RawMessage :=
  Some (JObject [("id", jstring (ResizeComponentParams.ID p));
                 ("width", jint (ResizeComponentParams.Width p));
                 ("height", jint (ResizeComponentParams.Height p))]).

Definition Marshal_SetTextParams (p : SetTextParams.t) : RawMessage :=
  Some (JObject [("id", jstring (SetTextParams.ID p));
                 ("text", jstring (SetTextParams.Text p))]).

Definition Marshal_ID (id : string) : RawMessage :=
  Some (JObject [("id", jstring id)]).

(** The end of [AddBox], [AddText] and [AddButton]: execute the command,
    drop its error, return the id of the last component, if any. *)
Definition add_and_report (p : AddComponentParams.t) (a : API.t) (w : World)
  : string * API.t * World :=
  let cmd := Command.mk CmdAddComponent (Marshal_AddComponentParams p) in
  let '(_, s, w') := Execute cmd (API.session a) w in
  (match last (elems (ListComponents s)) with
   | Some comp => Component.ID comp
   | None => ""
   end,
   API.mk s, w').

Definition AddBox (name text : string) (x y width height : Z)
  (a : API.t) (w : World) : string * API.t * World :=
  add_and_report
    (AddComponentParams.mk TypeBox name x y width height text None) a w.

Definition AddText (name text : string) (x y : Z) (a : API.t) (w : World)
  : string * API.t * World :=
  add_and_report (AddComponentParams.mk TypeText name x y 0 0 text None) a w.

Definition AddButton (name label : string) (x y : Z) (a : API.t) (w : World)
  : string * API.t * World :=
  add_and_report
    (AddComponentParams.mk TypeButton name x y
       (Z.of_nat (String.length label) + 6) 3 label None) a w.

Definition AddList (name : string) (items : slice string)
  (x y width height : Z) (a : API.t) (w : World) : string * API.t * World :=
  let '(comp, w') := NewComponent TypeList name w in
  let comp := Component.with_Position (Position.mk x y) comp in
  let comp := Component.with_Size (Size.mk width height) comp in
  let comp := Component.with_Items items comp in
  (Component.ID comp,
   API.mk (set_components
             (append (Canvas.Components (Session.Canvas (API.session a))) comp)
             (API.session a)),
   w').

Definition AddProgress (name : string) (value : float64)
  (x y width : Z) (a : API.t) (w : World) : string * API.t * World :=
  let '(comp, w') := NewComponent TypeProgress name w in
  let comp := Component.with_Position (Position.mk x y) comp in
  let comp := Component.with_Size (Size.mk width 1) comp in
  let comp := Component.with_Value (any_float64 value) comp in
  (Component.ID comp,
   API.mk (set_components
             (append (Canvas.Components (Session.Canvas (API.session a))) comp)
             (API.session a)),
   w').

(** [API.Move], [API.Resize], [API.SetText] and [API.Delete]. *)
Definition API_Move (id : string) (x y : Z) (a : API.t) (w : World)
  : error * API.t * World :=
  let cmd :=
    Command.mk CmdMoveComponent
      (Marshal_MoveComponentParams (MoveComponentParams.mk id x y)) in
  let '(err, s, w') := Execute cmd (API.session a) w in (err, API.mk s, w').

Definition API_Resize (id : string) (width height : Z) (a : API.t) (w : World)
  : error * API.t * World :=
  let cmd :=
    Command.mk CmdResizeComponent
      (Marshal_ResizeComponentParams
         (ResizeComponentParams.mk id width height)) in
  let '(err, s, w') := Execute cmd (API.session a) w in (err, API.mk s, w').

Definition API_SetText (id text : string) (a : API.t) (w : World)
  : error * API.t * World :=
  let cmd :=
    Command.mk CmdSetText (Marshal_SetTextParams (SetTextParams.mk id text)) in
  let '(err, s, w') := Execute cmd (API.session a) w in (err, API.mk s, w').

Definition API_Delete (id : string) (a : API.t) (w : World)
  : error * API.t * World :=
  let cmd := Command.mk CmdRemoveComponent (Marshal_ID id) in
  let '(err, s, w') := Execute cmd (API.session a) w in (err, API.mk s, w').

Definition API_SetTheme (theme : string) (a : API.t) : API.t :=
  API.mk (SetTheme theme (API.session a)).

Definition API_Clear (a : API.t) : API.t :=
  API.mk (Clear (API.session a)).

Definition API_Undo (a : API.t) : bool * API.t :=
  let '(ok, s) := Undo (API.session a) in (ok, API.mk s).

Definition API_Redo (a : API.t) : bool * API.t :=
  let '(ok, s) := Redo (API.session a) in (ok, API.mk s).

(** ** Package codegen *)

Definition tab : string := String "009"%char "".
Definition lf : string := String "010"%char "".
Definition dq : string := String "034"%char "".

(** What a [strings.Builder] holds after the given writes. *)
Definition written (chunks : list string) : string :=
  foldr String.append "" chunks.

(** A raw string literal, line by line. *)
Definition unlines (ls : list string) : string :=
  written (map (λ l, l +:+ lf) ls).

(** The package clause and imports written first by [Generate]. *)
Definition preamble : string :=
  unlines [
    "package main";
    "";
    "import (";
    tab +:+ dq +:+ "fmt" +:+ dq;
    tab +:+ dq +:+ "os" +:+ dq;
    "";
    tab +:+ "tea " +:+ dq +:+ "github.com/charmbracelet/bubbletea" +:+ dq;
    tab +:+ dq +:+ "github.com/charmbracelet/lipgloss" +:+ dq;
    ")";
    ""
  ].

(** The palette and style declarations: the same text for every canvas. *)
Definition generateStyles : string :=
  unlines [
    "// Styles - Ultraviolet theme";
    "var (";
    tab +:+ "primaryColor   = lipgloss.Color(" +:+ dq +:+ "#9D4EDD" +:+ dq +:+ ")";
    tab +:+ "secondaryColor = lipgloss.Color(" +:+ dq +:+ "#7B2CBF" +:+ dq +:+ ")";
    tab +:+ "accentColor    = lipgloss.Color(" +:+ dq +:+ "#E040FB" +:+ dq +:+ ")";
    tab +:+ "bgColor        = lipgloss.Color(" +:+ dq +:+ "#0D0221" +:+ dq +:+ ")";
    tab +:+ "surfaceColor   = lipgloss.Color(" +:+ dq +:+ "#1A1333" +:+ dq +:+ ")";
    tab +:+ "textColor      = lipgloss.Color(" +:+ dq +:+ "#FFFFFF" +:+ dq +:+ ")";
    tab +:+ "mutedColor     = lipgloss.Color(" +:+ dq +:+ "#6B6B8D" +:+ dq +:+ ")";
    tab +:+ "borderColor    = lipgloss.Color(" +:+ dq +:+ "#3D2C5E" +:+ dq +:+ ")";
    "";
    tab +:+ "titleStyle = lipgloss.NewStyle().";
    tab +:+ tab +:+ "Foreground(primaryColor).";
    tab +:+ tab +:+ "Bold(true).";
    tab +:+ tab +:+ "MarginBottom(1)";
    "";
    tab +:+ "boxStyle = lipgloss.NewStyle().";
    tab +:+ tab +:+ "BorderStyle(lipgloss.RoundedBorder()).";
    tab +:+ tab +:+ "BorderForeground(borderColor).";
    tab +:+ tab +:+ "Padding(1, 2)";
    "";
    tab +:+ "buttonStyle = lipgloss.NewStyle().";
    tab +:+ tab +:+ "Background(surfaceColor).";
    tab +:+ tab +:+ "Foreground(textColor).";
    tab +:+ tab +:+ "Padding(0, 3).";
    tab +:+ tab +:+ "BorderStyle(lipgloss.RoundedBorder()).";
    tab +:+ tab +:+ "BorderForeground(borderColor)";
    "";
    tab +:+ "buttonActiveStyle = lipgloss.NewStyle().";
    tab +:+ tab +:+ "Background(primaryColor).";
    tab +:+ tab +:+ "Foreground(textColor).";
    tab +:+ tab +:+ "Padding(0, 3).";
    tab +:+ tab +:+ "BorderStyle(lipgloss.RoundedBorder()).";
    tab +:+ tab +:+ "BorderForeground(accentColor).";
    tab +:+ tab +:+ "Bold(true)";
    ")";
    ""
  ].

(** The update function: it recognises the quit keys only. *)
Definition generateUpdate : string :=
  unlines [
    "func (m model) Update(msg tea.Msg) (tea.Model, tea.Cmd) {";
    tab +:+ "switch msg := msg.(type) {";
    tab +:+ "case tea.WindowSizeMsg:";
    tab +:+ tab +:+ "m.width = msg.Width";
    tab +:+ tab +:+ "m.height = msg.Height";
    tab +:+ "case tea.KeyMsg:";
    tab +:+ tab +:+ "switch msg.String() {";
    tab +:+ tab +:+ "case " +:+ dq +:+ "q" +:+ dq +:+ ", " +:+ dq +:+ "ctrl+c" +:+ dq +:+ ":";
    tab +:+ tab +:+ tab +:+ "m.quitting = true";
    tab +:+ tab +:+ tab +:+ "return m, tea.Quit";
    tab +:+ tab +:+ "}";
    tab +:+ "}";
    tab +:+ "return m, nil";
    "}";
    ""
  ].

(** The entry point. *)
Definition generateMain : string :=
  unlines [
    "func main() {";
    tab +:+ "p := tea.NewProgram(model{}, tea.WithAltScreen())";
    tab +:+ "if _, err := p.Run(); err != nil {";
    tab +:+ tab +:+ "fmt.Printf(" +:+ dq +:+ "Error running program: %v\n" +:+ dq +:+ ", err)";
    tab +:+ tab +:+ "os.Exit(1)";
    tab +:+ "}";
    "}"
  ].

Module Generator.
Record t := mk { Canvas : Canvas.t }.
End Generator.

Definition NewGenerator (canvas : Canvas.t) : Generator.t :=
  Generator.mk canvas.

(** The canvas components a generator ranges over. *)
Definition gen_components (g : Generator.t) : list Component.t :=
  elems (Canvas.Components (Generator.Canvas g)).

(** [GenerateJSON]: the body is the literal the source returns. *)
Definition GenerateJSON (g : Generator.t) : string :=
  "{}".

(** The state fields one component contributes to the model struct: the
    body of the loop in [generateModel]. *)
Definition modelFields (i : nat) (comp : Component.t) : string :=
  if String.eqb (Component.Type_ comp) TypeInput then
    tab +:+ "input" +:+ itoa (Z.of_nat i) +:+ " string" +:+ lf
  else if String.eqb (Component.Type_ comp) TypeList then
    written [
      tab +:+ "list" +:+ itoa (Z.of_nat i) +:+ " []string" +:+ lf;
      tab +:+ "list" +:+ itoa (Z.of_nat i) +:+ "Selected int" +:+ lf ]
  else if String.eqb (Component.Type_ comp) TypeProgress then
    tab +:+ "progress" +:+ itoa (Z.of_nat i) +:+ " float64" +:+ lf
  else "".

Definition generateModel (g : Generator.t) : string :=
  written [
    "// Model represents the application state" +:+ lf;
    "type model struct {" +:+ lf;
    tab +:+ "width  int" +:+ lf;
    tab +:+ "height int" +:+ lf;
    written (imap modelFields (gen_components g));
    tab +:+ "quitting bool" +:+ lf;
    "}" +:+ lf +:+ lf ].

(** The chunks the loop of [generateModel] writes, one per component. *)
Definition modelBlocks (g : Generator.t) : list string :=
  imap modelFields (gen_components g).

(** Whether a component's generated text carries its position in the
    canvas: the variable of a box, text or button, the state fields of an
    input, list or progress. *)
Definition embeds_index (comp : Component.t) : bool :=
  String.eqb (Component.Type_ comp) TypeBox
  || String.eqb (Component.Type_ comp) TypeText
  || String.eqb (Component.Type_ comp) TypeButton
  || String.eqb (Component.Type_ comp) TypeInput
  || String.eqb (Component.Type_ comp) TypeList
  || String.eqb (Component.Type_ comp) TypeProgress.

(** The generated program around the per-component chunks: the text
    [Generate] writes, with the chunks of the model struct and of the view
    function left open. *)
Definition frame (fields views : list string) : string :=
  written [
    preamble;
    generateStyles;
    written [
      "// Model represents the application state" +:+ lf;
      "type model struct {" +:+ lf;
      tab +:+ "width  int" +:+ lf;
      tab +:+ "height int" +:+ lf;
      written fields;
      tab +:+ "quitting bool" +:+ lf;
      "}" +:+ lf +:+ lf ];
    written [
      "func (m model) Init() tea.Cmd {" +:+ lf;
      tab +:+ "return nil" +:+ lf;
      "}" +:+ lf +:+ lf ];
    generateUpdate;
    written [
      "func (m model) View() string {" +:+ lf;
      tab +:+ "if m.quitting {" +:+ lf;
      tab +:+ tab +:+ "return " +:+ dq +:+ dq +:+ lf;
      tab +:+ "}" +:+ lf +:+ lf;
      tab +:+ "var content string" +:+ lf +:+ lf;
      written views;
      tab +:+ "return content" +:+ lf;
      "}" +:+ lf +:+ lf ];
    generateMain ].

Definition generateInit : string :=
  written [
    "func (m model) Init() tea.Cmd {" +:+ lf;
    tab +:+ "return nil" +:+ lf;
    "}" +:+ lf +:+ lf ].

Section Codegen.

(** [strconv.Quote], the verb [%q] of [fmt.Sprintf] on a string.  It belongs
    to the Go library and is left open. *)
Variable Quote : string -> string.

(** The last line of each recognised block,
    [content += <ident> + "\n"] followed by an empty line. *)
Definition content_add (ident : string) : string :=
  tab +:+ "content += " +:+ ident +:+ " + " +:+ dq +:+ "\n" +:+ dq
      +:+ lf +:+ lf.

Definition generateComponentView (index : nat) (comp : Component.t)
  : string :=
  let i := itoa (Z.of_nat index) in
  if String.eqb (Component.Type_ comp) TypeBox then
    written [
      tab +:+ "// Box: " +:+ Component.Name comp +:+ lf;
      tab +:+ "box" +:+ i +:+ " := boxStyle.Width("
          +:+ itoa (Size.Width (Component.Size comp))
          +:+ ").Height(" +:+ itoa (Size.Height (Component.Size comp))
          +:+ ").Render(" +:+ Quote (Component.Text comp) +:+ ")" +:+ lf;
      content_add ("box" +:+ i) ]
  else if String.eqb (Component.Type_ comp) TypeText then
    written [
      tab +:+ "// Text: " +:+ Component.Name comp +:+ lf;
      tab +:+ "text" +:+ i
          +:+ " := lipgloss.NewStyle().Foreground(textColor).Render("
          +:+ Quote (Component.Text comp) +:+ ")" +:+ lf;
      content_add ("text" +:+ i) ]
  else if String.eqb (Component.Type_ comp) TypeButton then
    written [
      tab +:+ "// Button: " +:+ Component.Name comp +:+ lf;
      tab +:+ "button" +:+ i +:+ " := buttonStyle.Render("
          +:+ Quote (Component.Text comp) +:+ ")" +:+ lf;
      content_add ("button" +:+ i) ]
  else
    written [
      tab +:+ "// " +:+ Component.Type_ comp +:+ ": " +:+ Component.Name comp
          +:+ " (TODO: implement)" +:+ lf;
      tab +:+ "content += " +:+ dq +:+ "[" +:+ Component.Type_ comp +:+ ": "
          +:+ Component.Name comp +:+ "]\n" +:+ dq +:+ lf +:+ lf ].

Definition generateView (g : Generator.t) : string :=
  written [
    "func (m model) View() string {" +:+ lf;
    tab +:+ "if m.quitting {" +:+ lf;
    tab +:+ tab +:+ "return " +:+ dq +:+ dq +:+ lf;
    tab +:+ "}" +:+ lf +:+ lf;
    tab +:+ "var content string" +:+ lf +:+ lf;
    written (imap generateComponentView (gen_components g));
    tab +:+ "return content" +:+ lf;
    "}" +:+ lf +:+ lf ].

(** The chunks the loop of [generateView] writes, one per component. *)
Definition viewBlocks (g : Generator.t) : list string :=
  imap generateComponentView (gen_components g).

Definition Generate (g : Generator.t) : string :=
  written [
    preamble;
    generateStyles;
    generateModel g;
    generateInit;
    generateUpdate;
    generateView g;
    generateMain ].

(** [Session.Export] *)
Definition Export (s : Session.t) : string :=
  Generate (NewGenerator (Session.Canvas s)).

End Codegen.

(** ** The scenario of the specification *)

(** A component as [NewComponent] builds it, with the given id. *)
Definition plain (id : string) (ctype : ComponentType) (name : string)
  : Component.t :=
  Component.mk id ctype name
    (Position.mk 0 0) (Size.mk 20 3)
    (Style.mk "" "" false false false
       (Some (Border.mk "rounded" "" true true true true))
       (Padding.mk 0 0 0 0) (Margin.mk 0 0 0 0) "")
    "" "" nil_slice any_nil nil_slice false false false.

Definition canvas_of (comps : list Component.t) : Canvas.t :=
  Canvas.mk "Demo" 80 24 (mk_slice comps) "ultraviolet".


(** The payload [{"id": id}] for an id that is plain ASCII. *)
Definition id_payload (id : string) : RawMessage :=
  Some (JObject [("id", JString id)]).

(** The payload of AddComponent(box, "header", x=0, y=0, w=80, h=3,
    text="Hi"), as [API.AddBox] marshals it. *)
Definition header_payload : RawMessage :=
  Marshal_AddComponentParams
    (AddComponentParams.mk TypeBox "header" 0 0 80 3 "Hi" None).

Definition add_header : Command.t :=
  Command.mk CmdAddComponent header_payload.

(** A process that has not generated an id yet, with a clock and a random
    source fixed for the sake of the example. *)
Definition fresh_world : World :=
  mkWorld 0 0 (λ _, 1761800000123456789) (λ _, [222; 173; 190; 239]).

Definition demo_session : Session.t := NewSession "Demo" 80 24.

(** ** Driving a session *)

(** The calls a front end makes on a session, and the session they lead
    to.  [API.AddList] and [API.AddProgress] act on the session the API
    wraps. *)
Inductive Op : Type :=
  | OpExecute (cmd : Command.t)
  | OpUndo
  | OpRedo
  | OpClear
  | OpSetTheme (theme : string)
  | OpResize (width height : Z)
  | OpAddList (name : string) (items : slice string) (x y width height : Z)
  | OpAddProgress (name : string) (value : float64) (x y width : Z).

Definition step (op : Op) (s : Session.t) (w : World) : Session.t * World :=
  match op with
  | OpExecute cmd => ((Execute cmd s w).1.2, (Execute cmd s w).2)
  | OpUndo => ((Undo s).2, w)
  | OpRedo => ((Redo s).2, w)
  | OpClear => (Clear s, w)
  | OpSetTheme theme => (SetTheme theme s, w)
  | OpResize width height => (Resize width height s, w)
  | OpAddList name items x y width height =>
      let r := AddList name items x y width height (API.mk s) w in
      (API.session r.1.2, r.2)
  | OpAddProgress name value x y width =>
      let r := AddProgress name value x y width (API.mk s) w in
      (API.session r.1.2, r.2)
  end.

Fixpoint run (ops : list Op) (s : Session.t) (w : World)
  : Session.t * World :=
  match ops with
  | [] => (s, w)
  | op :: rest => let '(s', w') := step op s w in run rest s' w'
  end.

(** A command that asks for a component to be added and whose payload
    decodes. *)
Definition valid_add (cmd : Command.t) : Prop :=
  Command.Type_ cmd = CmdAddComponent /\
  exists p, Unmarshal_AddComponentParams (Command.Params cmd) = inr p.

(** The kinds the switch of [Execute] has a case for. *)
Definition dispatched (kind : string) : bool :=
  String.eqb kind CmdAddComponent
  || String.eqb kind CmdRemoveComponent
  || String.eqb kind CmdMoveComponent
  || String.eqb kind CmdResizeComponent
  || String.eqb kind CmdStyleComponent
  || String.eqb kind CmdSetText.

(** The four calls that write the canvas directly. *)
Definition is_direct (op : Op) : Prop :=
  match op with
  | OpSetTheme _ | OpResize _ _
  | OpAddList _ _ _ _ _ _ | OpAddProgress _ _ _ _ _ => True
  | _ => False
  end.

(** The value of a hexadecimal digit: its place in [hextable]. *)
Definition unhex (c : ascii) : Z :=
  match index 0 (String c "") hextable with
  | Some n => Z.of_nat n
  | None => 0
  end.

(** The counter bits an identifier carries: the four digits that follow
    "comp_" and the four digits of the clock. *)
Definition idCounterBits (id : string) : Z :=
  match substring 9 4 id with
  | String a (String b (String c (String d _))) =>
      ((unhex a * 16 + unhex b) * 16 + unhex c) * 16 + unhex d
  | _ => 0
  end.

(** Two canvases with the same fields and the same components in the same
    order. *)
Definition same_content (a b : Canvas.t) : Prop :=
  Canvas.Name a = Canvas.Name b /\
  Canvas.Width a = Canvas.Width b /\
  Canvas.Height a = Canvas.Height b /\
  Canvas.Theme a = Canvas.Theme b /\
  elems (Canvas.Components a) = elems (Canvas.Components b).

(** The snapshot [saveState] pushes. *)
Definition snapshot (c : Canvas.t) : Canvas.t :=
  Canvas.with_Components (make_copy (Canvas.Components c)) c.


(** ** The session in memory

    A second reading of the session, with the backing arrays of the
    component slices made explicit: a slice header names its array, the
    mutations write arrays in place, and copying a canvas copies the
    header, not the array.  The components themselves stay values: the
    package assigns fields of [Components[i]] and never writes through
    the [Items], [Children] or [Border] a component refers to.  The
    session kept by value above is shown to be what this one holds
    ([session_by_value]). *)

Module Mem.

(** The memory: the backing arrays allocated so far, each with its [cap]
    elements. *)
Abbreviation memory := (list (list Component.t)).

(** A slice header: the array and the length; the capacity is the length
    of the array.  [None] is the nil slice. *)
Record header := mk_header { array : nat; len : nat }.

Definition slice_ref := option header.

Definition backing (m : memory) (h : header) : list Component.t :=
  default [] (m !! array h).

(** The elements a slice shows. *)
Definition read (m : memory) (s : slice_ref) : slice Component.t :=
  match s with
  | None => nil_slice
  | Some h => mk_slice (take (len h) (backing m h))
  end.

Record canvas := mk_canvas {
  Name : string;
  Width : Z;
  Height : Z;
  Components : slice_ref;
  Theme : string
}.

Record session := mk_session {
  Canvas : canvas;
  History : list Command.t;
  UndoStack : list canvas;
  RedoStack : list canvas
}.

Definition with_Components (cs : slice_ref) (s : session) : session :=
  mk_session
    (mk_canvas (Name (Canvas s)) (Width (Canvas s)) (Height (Canvas s)) cs
       (Theme (Canvas s)))
    (History s) (UndoStack s) (RedoStack s).

(** The elements of the live canvas. *)
Definition live (m : memory) (s : session) : list Component.t :=
  elems (read m (Components (Canvas s))).

(** A new array holding the given elements, and a slice of all of it:
    [make] followed by [copy], or a composite literal. *)
Definition make (m : memory) (l : list Component.t) : slice_ref * memory :=
  (Some (mk_header (length m) (length l)), m ++ [l]).

Section Memory.

(** The capacity the runtime adds beyond what is needed when [append] has
    to move a slice of the given length to a new array. *)
Variable spare : nat -> nat.

(** [append(s, x)]: in place when the capacity allows, else in a new array
    to which the elements are copied. *)
Definition append (m : memory) (s : slice_ref) (x : Component.t)
  : slice_ref * memory :=
  let grown (l : list Component.t) :=
    (Some (mk_header (length m) (S (length l))),
     m ++ [l ++ x :: replicate (spare (length l)) Component_zero]) in
  match s with
  | None => grown []
  | Some h =>
      if (len h <? length (backing m h))%nat then
        (Some (mk_header (array h) (S (len h))),
         <[array h := <[len h := x]> (backing m h)]> m)
      else grown (take (len h) (backing m h))
  end.

(** [s = append(s[:i], s[i+1:]...)]: the elements after [i] move down one
    place within the array. *)
Definition remove (m : memory) (s : slice_ref) (i : nat)
  : slice_ref * memory :=
  match s with
  | None => (None, m)
  | Some h =>
      let arr := backing m h in
      (Some (mk_header (array h) (len h - 1)),
       <[array h := take i arr ++ take (len h - S i) (drop (S i) arr)
                    ++ drop (len h - 1) arr]> m)
  end.

(** Assignments to fields of [s[i]]. *)
Definition assign (m : memory) (s : slice_ref) (i : nat)
  (f : Component.t -> Component.t) : memory :=
  match s with
  | None => m
  | Some h => <[array h := alter f i (backing m h)]> m
  end.

Definition NewSession (name : string) (width height : Z) (m : memory)
  : session * memory :=
  let '(cs, m') := make m [] in
  (mk_session (mk_canvas name width height cs "ultraviolet") [] [] [], m').

Definition saveState (s : session) (m : memory) : session * memory :=
  let '(cs, m') := make m (live m s) in
  let stateCopy :=
    mk_canvas (Name (Canvas s)) (Width (Canvas s)) (Height (Canvas s)) cs
      (Theme (Canvas s)) in
  (mk_session (Canvas s) (History s) (UndoStack s ++ [stateCopy]) [], m').

Definition addComponent (params : RawMessage) (s : session) (m : memory)
  (w : World) : error * session * memory * World :=
  match Unmarshal_AddComponentParams params with
  | inl err => (Some (JSONError err), s, m, w)
  | inr p =>
      let '(comp, w') :=
        NewComponent (AddComponentParams.Type_ p) (AddComponentParams.Name p) w in
      let comp :=
        Component.with_Position
          (Position.mk (AddComponentParams.X p) (AddComponentParams.Y p)) comp in
      let comp :=
        if 0 <? AddComponentParams.Width p
        then Component.with_Size
               (Size.mk (AddComponentParams.Width p)
                        (Size.Height (Component.Size comp))) comp
        else comp in
      let comp :=
        if 0 <? AddComponentParams.Height p
        then Component.with_Size
               (Size.mk (Size.Width (Component.Size comp))
                        (AddComponentParams.Height p)) comp
        else comp in
      let comp := Component.with_Text (AddComponentParams.Text p) comp in
      let comp :=
        match AddComponentParams.Style p with
        | Some st => Component.with_Style st comp
        | None => comp
        end in
      let '(cs, m') := append m (Components (Canvas s)) comp in
      (None, with_Components cs s, m', w')
  end.

Definition removeComponent (params : RawMessage) (s : session) (m : memory)
  : error * session * memory :=
  match Unmarshal_ID params with
  | inl err => (Some (JSONError err), s, m)
  | inr id =>
      match scan id (live m s) with
      | Some i =>
          let '(cs, m') := remove m (Components (Canvas s)) i in
          (None, with_Components cs s, m')
      | None => (Some (Errorf ("component not found: " +:+ id)), s, m)
      end
  end.

Definition update_in_place (id : string) (f : Component.t -> Component.t)
  (s : session) (m : memory) : error * session * memory :=
  match scan id (live m s) with
  | Some i => (None, s, assign m (Components (Canvas s)) i f)
  | None => (Some (Errorf ("component not found: " +:+ id)), s, m)
  end.

Definition moveComponent (params : RawMessage) (s : session) (m : memory)
  : error * session * memory :=
  match Unmarshal_MoveComponentParams params with
  | inl err => (Some (JSONError err), s, m)
  | inr p =>
      update_in_place (MoveComponentParams.ID p)
        (Component.with_Position
           (Position.mk (MoveComponentParams.X p) (MoveComponentParams.Y p)))
        s m
  end.

Definition resizeComponent (params : RawMessage) (s : session) (m : memory)
  : error * session * memory :=
  match Unmarshal_ResizeComponentParams params with
  | inl err => (Some (JSONError err), s, m)
  | inr p =>
      update_in_place (ResizeComponentParams.ID p)
        (Component.with_Size
           (Size.mk (ResizeComponentParams.Width p)
                    (ResizeComponentParams.Height p)))
        s m
  end.

Definition styleComponent (params : RawMessage) (s : session) (m : memory)
  : error * session * memory :=
  match Unmarshal_StyleComponentParams params with
  | inl err => (Some (JSONError err), s, m)
  | inr p =>
      update_in_place (StyleComponentParams.ID p)
        (Component.with_Style (StyleComponentParams.Style p)) s m
  end.

Definition setText (params : RawMessage) (s : session) (m : memory)
  : error * session * memory :=
  match Unmarshal_SetTextParams params with
  | inl err => (Some (JSONError err), s, m)
  | inr p =>
      update_in_place (SetTextParams.ID p)
        (Component.with_Text (SetTextParams.Text p)) s m
  end.

Definition pure_step (r : error * session * memory) (w : World)
  : error * session * memory * World :=
  (r, w).

Definition dispatch (cmd : Command.t) (s : session) (m : memory) (w : World)
  : error * session * memory * World :=
  let params := Command.Params cmd in
  if String.eqb (Command.Type_ cmd) CmdAddComponent then
    addComponent params s m w
  else if String.eqb (Command.Type_ cmd) CmdRemoveComponent then
    pure_step (removeComponent params s m) w
  else if String.eqb (Command.Type_ cmd) CmdMoveComponent then
    pure_step (moveComponent params s m) w
  else if String.eqb (Command.Type_ cmd) CmdResizeComponent then
    pure_step (resizeComponent params s m) w
  else if String.eqb (Command.Type_ cmd) CmdStyleComponent then
    pure_step (styleComponent params s m) w
  else if String.eqb (Command.Type_ cmd) CmdSetText then
    pure_step (setText params s m) w
  else
    (Some (Errorf ("unknown command type: " +:+ Command.Type_ cmd)), s, m, w).

Definition Execute (cmd : Command.t) (s : session) (m : memory) (w : World)
  : error * session * memory * World :=
  let '(s', m') := saveState s m in dispatch cmd s' m' w.

(** [Undo] and [Redo] copy canvases, that is headers; the memory is not
    touched. *)
Definition Undo (s : session) : bool * session :=
  match last (UndoStack s) with
  | None => (false, s)
  | Some top =>
      (true,
       mk_session top (History s)
         (take (length (UndoStack s) - 1) (UndoStack s))
         (RedoStack s ++ [Canvas s]))
  end.

Definition Redo (s : session) : bool * session :=
  match last (RedoStack s) with
  | None => (false, s)
  | Some top =>
      (true,
       mk_session top (History s)
         (UndoStack s ++ [Canvas s])
         (take (length (RedoStack s) - 1) (RedoStack s)))
  end.

Definition Clear (s : session) (m : memory) : session * memory :=
  let '(s', m') := saveState s m in
  let '(cs, m'') := make m' [] in
  (with_Components cs s', m'').

Definition SetTheme (theme : string) (s : session) : session :=
  mk_session
    (mk_canvas (Name (Canvas s)) (Width (Canvas s)) (Height (Canvas s))
       (Components (Canvas s)) theme)
    (History s) (UndoStack s) (RedoStack s).

Definition Resize (width height : Z) (s : session) : session :=
  mk_session
    (mk_canvas (Name (Canvas s)) width height
       (Components (Canvas s)) (Theme (Canvas s)))
    (History s) (UndoStack s) (RedoStack s).

Definition AddList (name : string) (items : slice string)
  (x y width height : Z) (s : session) (m : memory) (w : World)
  : session * memory * World :=
  let '(comp, w') := NewComponent TypeList name w in
  let comp := Component.with_Position (Position.mk x y) comp in
  let comp := Component.with_Size (Size.mk width height) comp in
  let comp := Component.with_Items items comp in
  let '(cs, m') := append m (Components (Canvas s)) comp in
  (with_Components cs s, m', w').

Definition AddProgress (name : string) (value : float64)
  (x y width : Z) (s : session) (m : memory) (w : World)
  : session * memory * World :=
  let '(comp, w') := NewComponent TypeProgress name w in
  let comp := Component.with_Position (Position.mk x y) comp in
  let comp := Component.with_Size (Size.mk width 1) comp in
  let comp := Component.with_Value (any_float64 value) comp in
  let '(cs, m') := append m (Components (Canvas s)) comp in
  (with_Components cs s, m', w').

Definition step (op : Op) (s : session) (m : memory) (w : World)
  : session * memory * World :=
  match op with
  | OpExecute cmd =>
      let '(_, s', m', w') := Execute cmd s m w in (s', m', w')
  | OpUndo => ((Undo s).2, m, w)
  | OpRedo => ((Redo s).2, m, w)
  | OpClear => (Clear s m, w)
  | OpSetTheme theme => (SetTheme theme s, m, w)
  | OpResize width height => (Resize width height s, m, w)
  | OpAddList name items x y width height =>
      AddList name items x y width height s m w
  | OpAddProgress name value x y width =>
      AddProgress name value x y width s m w
  end.

Fixpoint run (ops : list Op) (s : session) (m : memory) (w : World)
  : session * memory * World :=
  match ops with
  | [] => (s, m, w)
  | op :: rest => let '(s', m', w') := step op s m w in run rest s' m' w'
  end.

End Memory.

(** *** What the memory holds *)

Definition abs_canvas (m : memory) (c : canvas) : Canvas.t :=
  Canvas.mk (Name c) (Width c) (Height c) (read m (Components c)) (Theme c).

(** The session by value that a session in memory stands for. *)
Definition abs (m : memory) (s : session) : Session.t :=
  Session.mk (abs_canvas m (Canvas s)) (History s)
    (map (abs_canvas m) (UndoStack s)) (map (abs_canvas m) (RedoStack s)).

(** The headers a session can reach. *)
Definition headers (s : session) : list header :=
  omap Components (Canvas s :: UndoStack s ++ RedoStack s).

(** Those of the snapshots. *)
Definition kept (s : session) : list header :=
  omap Components (UndoStack s ++ RedoStack s).

(** A header names an allocated array and shows no more than it holds. *)
Definition valid (m : memory) (h : header) : Prop :=
  (array h < length m)%nat /\ (len h <= length (backing m h))%nat.

(** No two headers of the session name the same array. *)
Definition separate (m : memory) (s : session) : Prop :=
  NoDup (map array (headers s)) /\ Forall (valid m) (headers s).

(** The session in memory [s] is well kept and stands for [v]. *)
Definition holds (m : memory) (s : session) (v : Session.t) : Prop :=
  separate m s /\ abs m s = v.

(** The outcome [r] of a command on the session in memory is the outcome
    [r'] of the command on the session by value. *)
Definition answers (r : error * session * memory * World)
  (r' : error * Session.t * World) : Prop :=
  holds r.1.2 r.1.1.2 r'.1.2 /\ r.1.1.1 = r'.1.1 /\ r.2 = r'.2.

(** The headers [hs] show in [m'] what they showed in [m]. *)
Definition agree (hs : list header) (m m' : memory) : Prop :=
  Forall (λ h, backing m' h = backing m h /\ valid m' h) hs.

(** What an operation on the live slice must deliver: the slice [cs] it
    returns shows the elements [l] in the memory [m'] it leaves, in an
    array of its own, and the other headers [hs] are not disturbed. *)
Definition delivers (hs : list header) (m m' : memory) (cs : slice_ref)
  (l : list Component.t) : Prop :=
  read m' cs = mk_slice l /\
  agree hs m m' /\
  exists h, cs = Some h /\ valid m' h /\ array h ∉ map array hs.

End Mem.

(** ** More of package agent *)

(** [GetComponent]: a pointer to the first component with the id, [nil]
    when there is none; the component pointed at is returned. *)
Definition GetComponent (id : string) (s : Session.t) : option Component.t :=
  i ← scan id (components s); components s !! i.

(** No NaN and no infinity among the values of a component and of the
    components below it. *)
Fixpoint finite_values (c : Component.t) : bool :=
  match Component.Value c with
  | any_float64 f => float64_finite f
  | _ => true
  end
  && match Component.Children c with
     | nil_slice => true
     | mk_slice l => forallb finite_values l
     end.

(** *** The ids a session holds *)

Definition canvas_ids (c : Canvas.t) : list string :=
  map Component.ID (elems (Canvas.Components c)).

(** The canvases of a session: the live one and the snapshots. *)
Definition canvases (s : Session.t) : list Canvas.t :=
  Session.Canvas s :: Session.UndoStack s ++ Session.RedoStack s.

(** The id carries the counter bits of one of the first [n] ids generated
    after the counter stood at [c0]. *)
Definition drawn (c0 n : Z) (id : string) : Prop :=
  exists k, 1 <= k <= n /\ idCounterBits id = (c0 + k) mod 65536.

(** The ids of the canvas are distinct and were drawn. *)
Definition well_drawn (c0 n : Z) (c : Canvas.t) : Prop :=
  NoDup (canvas_ids c) /\ Forall (drawn c0 n) (canvas_ids c).

(** [n] ids have been generated since the counter stood at [c0], and every
    canvas of the session holds distinct ids among them. *)
Definition ids_inv (c0 n : Z) (s : Session.t) (w : World) : Prop :=
  idCounter w mod 65536 = (c0 + n) mod 65536 /\
  Forall (well_drawn c0 n) (canvases s).

(** *** The shape of an id *)

(** A digit of [hextable]. *)
Definition hexchar (c : ascii) : bool :=
  existsb (Ascii.eqb c) (list_ascii_of_string hextable).

Definition hex_string (s : string) : bool :=
  forallb hexchar (list_ascii_of_string s).

(** [comp_] followed by sixteen digits of [hextable]. *)
Definition generated_id (id : string) : bool :=
  String.eqb (substring 0 5 id) "comp_"
  && (String.length id =? 21)%nat
  && hex_string (substring 5 16 id).

(** *** What the generator reads *)

(** The fields of a component the generated program depends on: the type
    and the name; the text for a box, a text or a button; the size for a
    box. *)
Definition exported (comp : Component.t)
  : ComponentType * string * string * Size.t :=
  let ty := Component.Type_ comp in
  (ty, Component.Name comp,
   if String.eqb ty TypeBox || String.eqb ty TypeText
      || String.eqb ty TypeButton
   then Component.Text comp else "",
   if String.eqb ty TypeBox then Component.Size comp else Size.mk 0 0).

(** ** Package templates

    The engine and what it hands out, over the session in memory: a
    template keeps a canvas, that is the header of its component slice, and
    [Apply] gives that canvas to a new API. *)

From stdpp Require gmap.

Module Templates.

Definition TemplateCategory := string.

Record Template := mk_Template {
  Name : string;
  Description : string;
  Category : TemplateCategory;
  Preview : string;
  Canvas : Mem.canvas
}.

(** [map[string]*Template]: the templates are not written once
    registered, and are kept as values. *)
Definition TemplateEngine := gmap.gmap string Template.

(** [ErrTemplateNotFound], the one value of [templateError] the package
    declares; its message is "template not found". *)
Inductive templateError : Type := ErrTemplateNotFound.

Definition Error (e : templateError) : string :=
  match e with ErrTemplateNotFound => "template not found" end.

Definition Register (t : Template) (e : TemplateEngine) : TemplateEngine :=
  <[Name t := t]> e.

Definition Get (name : string) (e : TemplateEngine) : option Template :=
  e !! name.

(** [API.ImportCanvas] on the session the API points to: the canvas, with
    its slice header, is assigned as it is. *)
Definition ImportCanvas (canvas : Mem.canvas) (s : Mem.session)
  : Mem.session :=
  Mem.mk_session canvas (Mem.History s) (Mem.UndoStack s) (Mem.RedoStack s).

(** [Apply]: [agent.NewAPI(t.Name)], then [api.ImportCanvas(t.Canvas)]. *)
Definition Apply (templateName : string) (e : TemplateEngine)
  (m : Mem.memory) : templateError + Mem.session * Mem.memory :=
  match Get templateName e with
  | None => inl ErrTemplateNotFound
  | Some t =>
      let '(s, m') := Mem.NewSession (Name t) 80 24 m in
      inr (ImportCanvas (Canvas t) s, m')
  end.

Section API.

Variable spare : nat -> nat.

(** [API.Move] and [API.Delete] on the session in memory. *)
Definition Move (id : string) (x y : Z) (s : Mem.session) (m : Mem.memory)
  (w : World) : error * Mem.session * Mem.memory * World :=
  Mem.Execute spare
    (Command.mk CmdMoveComponent
       (Marshal_MoveComponentParams (MoveComponentParams.mk id x y)))
    s m w.

Definition Delete (id : string) (s : Mem.session) (m : Mem.memory)
  (w : World) : error * Mem.session * Mem.memory * World :=
  Mem.Execute spare (Command.mk CmdRemoveComponent (Marshal_ID id)) s m w.

End API.

End Templates.

(** ** Package canvas: the design area of the interactive designer *)

(** Go's [int] after an addition or a subtraction: the result wraps
    around within 64 bits. *)
Definition int64 (z : Z) : Z := (z + 2 ^ 63) mod 2 ^ 64 - 2 ^ 63.

Module Theme.
Record t := mk {
  Name : string;
  Primary : string; Secondary : string; Accent : string;
  Background : string; Surface : string; SurfaceLight : string;
  TextPrimary : string; TextSecondary : string; TextMuted : string;
  Success : string; Warning : string; Error : string; Info : string;
  Border : string; BorderActive : string
}.
End Theme.

(** [styles.Ultraviolet], the default theme. *)
Definition Ultraviolet : Theme.t :=
  Theme.mk "Ultraviolet"
    "#9D4EDD" "#7B2CBF" "#E040FB" "#0D0221" "#1A1333" "#2D1B4E"
    "#FFFFFF" "#B8B8D1" "#6B6B8D"
    "#00E676" "#FFD600" "#FF5252" "#40C4FF"
    "#3D2C5E" "#9D4EDD".

Module UI.

Inductive Mode : Type := ModeSelect | ModeDraw | ModeMove | ModeResize.

Record Canvas := mk_Canvas {
  Width : Z;
  Height : Z;
  Components : slice Component.t;
  Selected : Z;
  Theme : Theme.t;
  CursorX : Z;
  CursorY : Z;
  Mode_ : Mode
}.

(** [canvas.New]; [/] on [int] truncates toward zero. *)
Definition New (width height : Z) (theme : Theme.t) : Canvas :=
  mk_Canvas width height (mk_slice []) (-1) theme
    (width ÷ 2) (height ÷ 2) ModeSelect.

Definition len (c : Canvas) : Z := Z.of_nat (length (elems (Components c))).

(** [c.Selected >= 0 && c.Selected < len(c.Components)] *)
Definition has_selection (c : Canvas) : bool :=
  (0 <=? Selected c) && (Selected c <? len c).

Definition AddComponent (comp : Component.t) (c : Canvas) : Canvas :=
  let comp :=
    Component.with_Position (Position.mk (CursorX c) (CursorY c)) comp in
  let components := append (Components c) comp in
  mk_Canvas (Width c) (Height c) components
    (Z.of_nat (length (elems components)) - 1)
    (Theme c) (CursorX c) (CursorY c) (Mode_ c).

Definition RemoveSelected (c : Canvas) : Canvas :=
  if has_selection c then
    let i := Z.to_nat (Selected c) in
    let l := elems (Components c) in
    let l' := take i l ++ drop (S i) l in
    let selected :=
      if Z.of_nat (length l') <=? Selected c
      then Z.of_nat (length l') - 1 else Selected c in
    mk_Canvas (Width c) (Height c) (mk_slice l') selected
      (Theme c) (CursorX c) (CursorY c) (Mode_ c)
  else c.

Definition MoveSelected (dx dy : Z) (c : Canvas) : Canvas :=
  if has_selection c then
    let move (comp : Component.t) :=
      Component.with_Position
        (Position.mk (int64 (Position.X (Component.Position comp) + dx))
                     (int64 (Position.Y (Component.Position comp) + dy)))
        comp in
    mk_Canvas (Width c) (Height c)
      (mk_slice (alter move (Z.to_nat (Selected c)) (elems (Components c))))
      (Selected c) (Theme c) (CursorX c) (CursorY c) (Mode_ c)
  else c.

(** [GetSelected]: the component the pointer returned points at. *)
Definition GetSelected (c : Canvas) : option Component.t :=
  if has_selection c
  then elems (Components c) !! Z.to_nat (Selected c) else None.

(** Whether the cursor is within the rectangle of the component: the test
    of the loop in [selectComponentAtCursor]. *)
Definition under_cursor (c : Canvas) (comp : Component.t) : bool :=
  (Position.X (Component.Position comp) <=? CursorX c)
  && (CursorX c <? int64 (Position.X (Component.Position comp)
                          + Size.Width (Component.Size comp)))
  && (Position.Y (Component.Position comp) <=? CursorY c)
  && (CursorY c <? int64 (Position.Y (Component.Position comp)
                          + Size.Height (Component.Size comp))).

(** [Model.selectComponentAtCursor], which writes the canvas only: the
    first component under the cursor is selected, or none. *)
Definition selectComponentAtCursor (c : Canvas) : Canvas :=
  let selected :=
    match list_find (λ comp, under_cursor c comp = true)
            (elems (Components c)) with
    | Some (i, _) => Z.of_nat i
    | None => -1
    end in
  mk_Canvas (Width c) (Height c) (Components c) selected
    (Theme c) (CursorX c) (CursorY c) (Mode_ c).

(** The key bindings [Model.updateCanvas] tells apart: the first case of
    its switch that matches the key, if any. *)
Inductive Key : Type :=
  | KeyUp | KeyDown | KeyLeft | KeyRight
  | KeyDelete | KeyMoveMod | KeyEnter | KeyOther.

Definition with_Cursor (x y : Z) (c : Canvas) : Canvas :=
  mk_Canvas (Width c) (Height c) (Components c) (Selected c) (Theme c)
    x y (Mode_ c).

Definition with_Mode (mode : Mode) (c : Canvas) : Canvas :=
  mk_Canvas (Width c) (Height c) (Components c) (Selected c) (Theme c)
    (CursorX c) (CursorY c) mode.

(** [c.Mode == canvas.ModeMove && c.Selected >= 0] *)
Definition moving (c : Canvas) : bool :=
  match Mode_ c with ModeMove => 0 <=? Selected c | _ => false end.

(** [x--; if x < 0 { x = 0 }] and [x++; if x >= limit { x = limit - 1 }] *)
Definition back (x : Z) : Z :=
  let x := int64 (x - 1) in if x <? 0 then 0 else x.

Definition forth (x limit : Z) : Z :=
  let x := int64 (x + 1) in if limit <=? x then int64 (limit - 1) else x.

(** [Model.updateCanvas], which writes the canvas only. *)
Definition updateCanvas (k : Key) (c : Canvas) : Canvas :=
  match k with
  | KeyUp =>
      if moving c then MoveSelected 0 (-1) c
      else with_Cursor (CursorX c) (back (CursorY c)) c
  | KeyDown =>
      if moving c then MoveSelected 0 1 c
      else with_Cursor (CursorX c) (forth (CursorY c) (Height c)) c
  | KeyLeft =>
      if moving c then MoveSelected (-1) 0 c
      else with_Cursor (back (CursorX c)) (CursorY c) c
  | KeyRight =>
      if moving c then MoveSelected 1 0 c
      else with_Cursor (forth (CursorX c) (Width c)) (CursorY c) c
  | KeyDelete => RemoveSelected c
  | KeyMoveMod =>
      match Mode_ c with
      | ModeMove => with_Mode ModeSelect c
      | _ => with_Mode ModeMove c
      end
  | KeyEnter => selectComponentAtCursor c
  | KeyOther => c
  end.

(** What the designer does to its canvas: a component added from the
    sidebar, or a key handled by [updateCanvas]. *)
Inductive Event : Type :=
  | Add (comp : Component.t)
  | Press (k : Key).

Definition handle (e : Event) (c : Canvas) : Canvas :=
  match e with
  | Add comp => AddComponent comp c
  | Press k => updateCanvas k c
  end.

(** The selection is none, [-1], or the index of a component, and the
    cursor is on the canvas. *)
Definition well_formed (c : Canvas) : Prop :=
  -1 <= Selected c < len c /\
  0 <= CursorX c < Width c /\ 0 <= CursorY c < Height c.

End UI.

(** ** Package input: the combo box *)

(** [strings.Contains]: [substr] occurs in [s]; the empty string occurs in
    every string. *)
Fixpoint Contains (s substr : string) : bool :=
  String.prefix substr s
  || match s with
     | "" => false
     | String _ rest => Contains rest substr
     end.

Module ComboBox.

Section ComboBox.

(** [ComboBoxStyle], a struct of [lipgloss.Style] that only [View] reads,
    and [strings.ToLower]: both belong to libraries and are left open. *)
Variable ComboBoxStyle : Type.
Variable DefaultComboBoxStyle : ComboBoxStyle.
Variable ToLower : string -> string.

Record t := mk {
  ID : string;
  Width : Z;
  Value : string;
  Options : slice string;
  Filtered : slice string;
  Selected : Z;
  Open : bool;
  Focused : bool;
  MaxVisible : Z;
  ScrollY : Z;
  Editable : bool;
  style : ComboBoxStyle
}.

Definition NewComboBox (id : string) (width : Z) : t :=
  mk id width "" (mk_slice []) (mk_slice []) 0 false false 5 0 true
    DefaultComboBoxStyle.

Definition with_Value (value : string) (c : t) : t :=
  mk (ID c) (Width c) value (Options c) (Filtered c) (Selected c) (Open c)
    (Focused c) (MaxVisible c) (ScrollY c) (Editable c) (style c).

Definition with_Options (options : slice string) (c : t) : t :=
  mk (ID c) (Width c) (Value c) options (Filtered c) (Selected c) (Open c)
    (Focused c) (MaxVisible c) (ScrollY c) (Editable c) (style c).

Definition with_Filtered (filtered : slice string) (c : t) : t :=
  mk (ID c) (Width c) (Value c) (Options c) filtered (Selected c) (Open c)
    (Focused c) (MaxVisible c) (ScrollY c) (Editable c) (style c).

Definition with_Selected (selected : Z) (c : t) : t :=
  mk (ID c) (Width c) (Value c) (Options c) (Filtered c) selected (Open c)
    (Focused c) (MaxVisible c) (ScrollY c) (Editable c) (style c).

Definition with_Open (open : bool) (c : t) : t :=
  mk (ID c) (Width c) (Value c) (Options c) (Filtered c) (Selected c) open
    (Focused c) (MaxVisible c) (ScrollY c) (Editable c) (style c).

Definition with_ScrollY (scrollY : Z) (c : t) : t :=
  mk (ID c) (Width c) (Value c) (Options c) (Filtered c) (Selected c) (Open c)
    (Focused c) (MaxVisible c) scrollY (Editable c) (style c).

Definition with_Editable (editable : bool) (c : t) : t :=
  mk (ID c) (Width c) (Value c) (Options c) (Filtered c) (Selected c) (Open c)
    (Focused c) (MaxVisible c) (ScrollY c) editable (style c).

(** [filterOptions]: with no value typed, the options themselves; else a
    new slice of the options that contain the value, letter case apart. *)
Definition filterOptions (c : t) : t :=
  if String.eqb (Value c) "" then with_Filtered (Options c) c
  else
    let valueLower := ToLower (Value c) in
    with_Filtered
      (mk_slice (List.filter (λ opt, Contains (ToLower opt) valueLower)
                   (elems (Options c))))
      c.

Definition SetOptions (options : slice string) (c : t) : t :=
  filterOptions (with_Options options c).

Definition SetValue (value : string) (c : t) : t :=
  filterOptions (with_Value value c).

Definition SetEditable (editable : bool) (c : t) : t :=
  with_Editable editable c.

Definition len_Filtered (c : t) : Z :=
  Z.of_nat (length (elems (Filtered c))).

(** [ensureVisible]: the two tests, one after the other. *)
Definition ensureVisible (c : t) : t :=
  let c :=
    if Selected c <? ScrollY c then with_ScrollY (Selected c) c else c in
  if int64 (ScrollY c + MaxVisible c) <=? Selected c
  then with_ScrollY (int64 (int64 (Selected c - MaxVisible c) + 1)) c
  else c.

(** A [tea.Msg]: a key, with the name [msg.String()] gives it, or a
    message of another type. *)
Inductive Msg : Type :=
  | KeyMsg (name : string)
  | OtherMsg.

(** The command [Update] returns: none, or the function that reports the
    selection. *)
Inductive Cmd : Type := no_cmd | report_selection.

Record ComboBoxSelectMsg := mk_SelectMsg { msg_ID : string; msg_Value : string }.

(** Running the command reads the combo box it closed over. *)
Definition run (k : Cmd) (c : t) : option ComboBoxSelectMsg :=
  match k with
  | no_cmd => None
  | report_selection => Some (mk_SelectMsg (ID c) (Value c))
  end.

(** [c.Value[:len(c.Value)-1]]: all bytes but the last. *)
Definition chop (s : string) : string :=
  substring 0 (String.length s - 1) s.

Definition Update (msg : Msg) (c : t) : t * Cmd :=
  if negb (Focused c) then (c, no_cmd)
  else
    match msg with
    | OtherMsg => (c, no_cmd)
    | KeyMsg name =>
        if String.eqb name "up" then
          if Open c then
            let c := with_Selected (int64 (Selected c - 1)) c in
            let c :=
              if Selected c <? 0
              then with_Selected (len_Filtered c - 1) c else c in
            (ensureVisible c, no_cmd)
          else (c, no_cmd)
        else if String.eqb name "down" then
          if Open c then
            let c := with_Selected (int64 (Selected c + 1)) c in
            let c :=
              if len_Filtered c <=? Selected c
              then with_Selected 0 c else c in
            (ensureVisible c, no_cmd)
          else (with_Open true c, no_cmd)
        else if String.eqb name "enter" then
          if Open c && (0 <=? Selected c) && (Selected c <? len_Filtered c)
          then
            match elems (Filtered c) !! Z.to_nat (Selected c) with
            | Some chosen =>
                (with_Open false (with_Value chosen c), report_selection)
            | None => (c, no_cmd)
            end
          else (c, no_cmd)
        else if String.eqb name "esc" then (with_Open false c, no_cmd)
        else if String.eqb name "backspace" then
          if Editable c && (0 <? String.length (Value c))%nat then
            (with_Open true (filterOptions (with_Value (chop (Value c)) c)),
             no_cmd)
          else (c, no_cmd)
        else
          if Editable c && (String.length name =? 1)%nat then
            (with_Selected 0
               (with_Open true
                  (filterOptions (with_Value (Value c +:+ name) c))),
             no_cmd)
          else (c, no_cmd)
    end.

(** The calls that change a combo box. *)
Inductive Call : Type :=
  | CallSetOptions (options : slice string)
  | CallSetValue (value : string)
  | CallSetEditable (editable : bool)
  | CallUpdate (msg : Msg).

Definition call (k : Call) (c : t) : t :=
  match k with
  | CallSetOptions options => SetOptions options c
  | CallSetValue value => SetValue value c
  | CallSetEditable editable => SetEditable editable c
  | CallUpdate msg => (Update msg c).1
  end.

(** The dropdown shows options only, in the order of the options. *)
Definition offers_options (c : t) : Prop :=
  elems (Filtered c) `sublist_of` elems (Options c).

End ComboBox.

Arguments ID {ComboBoxStyle}.
Arguments Width {ComboBoxStyle}.
Arguments Value {ComboBoxStyle}.
Arguments Options {ComboBoxStyle}.
Arguments Filtered {ComboBoxStyle}.
Arguments Selected {ComboBoxStyle}.
Arguments Open {ComboBoxStyle}.
Arguments Focused {ComboBoxStyle}.
Arguments MaxVisible {ComboBoxStyle}.
Arguments ScrollY {ComboBoxStyle}.
Arguments Editable {ComboBoxStyle}.
Arguments NewComboBox {ComboBoxStyle}.
Arguments with_Value {ComboBoxStyle}.
Arguments with_Options {ComboBoxStyle}.
Arguments with_Filtered {ComboBoxStyle}.
Arguments with_Selected {ComboBoxStyle}.
Arguments with_Open {ComboBoxStyle}.
Arguments with_ScrollY {ComboBoxStyle}.
Arguments with_Editable {ComboBoxStyle}.
Arguments filterOptions {ComboBoxStyle}.
Arguments SetOptions {ComboBoxStyle}.
Arguments SetValue {ComboBoxStyle}.
Arguments SetEditable {ComboBoxStyle}.
Arguments len_Filtered {ComboBoxStyle}.
Arguments ensureVisible {ComboBoxStyle}.
Arguments run {ComboBoxStyle}.
Arguments Update {ComboBoxStyle}.
Arguments call {ComboBoxStyle}.
Arguments offers_options {ComboBoxStyle}.

End ComboBox.

(** ** Package mcp: the sessions of the server *)

Module MCP.

Section Server.

(** [ai.TUIAgent] and [ai.NewTUIAgent], which the session registry keeps
    but does not read, are left open. *)
Variable TUIAgent : Type.
Variable NewTUIAgent : TUIAgent.

Record Session := mk_Session {
  ID : string;
  Name : string;
  API_ : API.t;
  AIAgent : TUIAgent
}.

(** What [CreateSession] and [GetSession] read and write: the map
    [Server.sessions] and the global [sessionCounter]. *)
Record registry := mk_registry {
  sessions : gmap.gmap string Session;
  sessionCounter : Z
}.

(** [sessionCounter++; fmt.Sprintf("session_%d", sessionCounter)] *)
Definition generateSessionID (counter : Z) : string * Z :=
  let counter := int64 (counter + 1) in
  ("session_" +:+ itoa counter, counter).

Definition CreateSession (name : string) (r : registry)
  : Session * registry :=
  let '(id, counter) := generateSessionID (sessionCounter r) in
  let session := mk_Session id name (NewAPI name) NewTUIAgent in
  (session, mk_registry (<[id := session]> (sessions r)) counter).

Definition GetSession (id : string) (r : registry) : option Session :=
  sessions r !! id.

(** Sessions created one after the other: the sessions returned, in
    order, and the registry left. *)
Fixpoint create_all (names : list string) (r : registry)
  : list Session * registry :=
  match names with
  | [] => ([], r)
  | name :: rest =>
      let '(session, r') := CreateSession name r in
      let '(created, r'') := create_all rest r' in
      (session :: created, r'')
  end.

(** [n] sessions have been created since the counter stood at [c0], and
    the registry holds sessions under the ids generated for them only. *)
Definition registered (c0 n : Z) (r : registry) : Prop :=
  sessionCounter r = int64 (c0 + n) /\
  forall id s, sessions r !! id = Some s ->
    ID s = id /\
    exists k, 1 <= k <= n /\ id = "session_" +:+ itoa (int64 (c0 + k)).

End Server.

Arguments ID {TUIAgent}.
Arguments Name {TUIAgent}.
Arguments API_ {TUIAgent}.
Arguments sessions {TUIAgent}.
Arguments sessionCounter {TUIAgent}.
Arguments mk_registry {TUIAgent}.
Arguments CreateSession {TUIAgent}.
Arguments GetSession {TUIAgent}.
Arguments create_all {TUIAgent}.
Arguments registered {TUIAgent}.

End MCP.

(** * Properties *)

(** ** Stacks *)

Lemma last_push {A} (l : list A) (x : A) : last (l ++ [x]) = Some x.
Proof. apply last_snoc. Qed.

Lemma pop_push {A} (l : list A) (x : A) :
  take (length (l ++ [x]) - 1) (l ++ [x]) = l.
Proof.
  rewrite length_app. simpl.
  replace (length l + 1 - 1)%nat with (length l) by lia.
  by rewrite take_app_length.
Qed.

Lemma last_None_nil {A} (l : list A) : last l = None -> l = [].
Proof. apply last_None. Qed.

Lemma snapshot_same_content c : same_content (snapshot c) c.
Proof. by destruct c as [n wd h [|l] th]. Qed.

Lemma snapshot_id c l :
  Canvas.Components c = mk_slice l -> snapshot c = c.
Proof. destruct c; simpl; intros ->; reflexivity. Qed.

Lemma saveState_canvas s : Session.Canvas (saveState s) = Session.Canvas s.
Proof. reflexivity. Qed.

Lemma saveState_components s : components (saveState s) = components s.
Proof. reflexivity. Qed.

Lemma saveState_undo s :
  Session.UndoStack (saveState s)
  = Session.UndoStack s ++ [snapshot (Session.Canvas s)].
Proof. reflexivity. Qed.

(** Undo right after a snapshot was pushed: the snapshot comes back and the
    stack is as it was before the push. *)
Lemma Undo_after_push c h u r x :
  Undo (Session.mk c h (u ++ [x]) r) = (true, Session.mk x h u (r ++ [c])).
Proof.
  unfold Undo; simpl. rewrite last_push, pop_push. reflexivity.
Qed.

Lemma Redo_empty c h u : Redo (Session.mk c h u []) = (false, Session.mk c h u []).
Proof. reflexivity. Qed.

(** ** Scanning for an id *)

Lemma scan_None id comps :
  id ∉ map Component.ID comps -> scan id comps = None.
Proof.
  intros Hid. unfold scan.
  destruct (list_find _ comps) as [[i c]|] eqn:E; [|done].
  apply list_find_Some in E as (Hl & Hc & _).
  exfalso. apply Hid. rewrite <- Hc.
  apply list_elem_of_fmap. exists c. split; [done|].
  by eapply list_elem_of_lookup_2.
Qed.

Lemma scan_Some id comps i :
  scan id comps = Some i ->
  exists c, comps !! i = Some c /\ Component.ID c = id /\
    forall j c', comps !! j = Some c' -> (j < i)%nat -> Component.ID c' <> id.
Proof.
  unfold scan. destruct (list_find _ comps) as [[k c]|] eqn:E; [|done].
  intros [= <-]. apply list_find_Some in E as (Hl & Hc & Hlt).
  exists c. eauto.
Qed.

Lemma update_in_place_not_found id f s :
  id ∉ map Component.ID (components s) ->
  update_in_place id f s
  = (Some (Errorf ("component not found: " +:+ id)), s).
Proof. intros H. unfold update_in_place. by rewrite scan_None. Qed.

(** ** What each operation leaves alone *)

Lemma update_in_place_frame id f s :
  Session.History (update_in_place id f s).2 = Session.History s /\
  Session.UndoStack (update_in_place id f s).2 = Session.UndoStack s /\
  Session.RedoStack (update_in_place id f s).2 = Session.RedoStack s.
Proof. unfold update_in_place. by destruct (scan _ _). Qed.

Lemma Execute_dispatch cmd s w :
  Execute cmd s w = dispatch cmd (saveState s) w.
Proof. reflexivity. Qed.

Lemma dispatch_frame cmd s w :
  Session.History (dispatch cmd s w).1.2 = Session.History s /\
  Session.UndoStack (dispatch cmd s w).1.2 = Session.UndoStack s /\
  Session.RedoStack (dispatch cmd s w).1.2 = Session.RedoStack s.
Proof.
  unfold dispatch, addComponent, removeComponent, moveComponent,
    resizeComponent, styleComponent, setText, pure_step.
  repeat case_match; simpl; auto using update_in_place_frame.
Qed.

(** A dispatch that fails leaves the session as it found it. *)
Lemma dispatch_error cmd s w e :
  (dispatch cmd s w).1.1 = Some e -> (dispatch cmd s w).1.2 = s.
Proof.
  unfold dispatch, addComponent, removeComponent, moveComponent,
    resizeComponent, styleComponent, setText, pure_step, update_in_place.
  repeat case_match; simpl; congruence.
Qed.

(** ** Execute, Undo, Redo *)

Lemma addComponent_valid params p s w :
  Unmarshal_AddComponentParams params = inr p ->
  exists comp,
    addComponent params s w
    = (None,
       set_components (append (Canvas.Components (Session.Canvas s)) comp) s,
       (generateID w).2)
    /\ Component.ID comp = (generateID w).1.
Proof.
  intros Hp. unfold addComponent. rewrite Hp.
  unfold NewComponent. destruct (generateID w) as [id w'].
  eexists. split; [reflexivity|].
  simpl. by repeat case_match.
Qed.

Lemma Execute_valid_add cmd s w :
  valid_add cmd ->
  exists comp,
    Execute cmd s w
    = (None,
       set_components (append (Canvas.Components (Session.Canvas s)) comp)
         (saveState s),
       (generateID w).2)
    /\ Component.ID comp = (generateID w).1.
Proof.
  intros [Ht [p Hp]]. unfold Execute, dispatch. rewrite Ht. simpl.
  destruct (addComponent_valid (Command.Params cmd) p (saveState s) w Hp)
    as (comp & E & Hid).
  exists comp. split; [exact E | exact Hid].
Qed.

(** C1. For a valid AddComponent command, [Execute] succeeds and appends a
    component; an [Undo] right after returns true and gives back a canvas
    with the component list, and the other fields, held before the
    [Execute]. *)
Theorem add_undo_inverse cmd s w :
  valid_add cmd ->
  let s1 := (Execute cmd s w).1.2 in
  (Execute cmd s w).1.1 = None /\
  (exists comp, components s1 = components s ++ [comp]) /\
  (Undo s1).1 = true /\
  components (Undo s1).2 = components s /\
  same_content (Session.Canvas (Undo s1).2) (Session.Canvas s).
Proof.
  intros Hv. destruct (Execute_valid_add cmd s w Hv) as (comp & -> & _).
  destruct s as [c h u r]. simpl.
  unfold saveState, set_components, Session.with_Canvas; simpl.
  rewrite Undo_after_push. simpl.
  split; [done|]. split; [by exists comp|]. split; [done|].
  split; [by destruct c as [? ? ? [|?] ?]|].
  apply snapshot_same_content.
Qed.

Lemma add_undo_inverse_witness :
  components (Undo (Execute add_header demo_session fresh_world).1.2).2
  = components demo_session.
Proof.
  refine (proj1 (proj2 (proj2 (proj2
    (add_undo_inverse add_header demo_session fresh_world _))))).
  split; [reflexivity|]. eexists. reflexivity.
Defined.

(** C2. Whatever the command, [Execute] leaves the undo stack one snapshot
    of the canvas it found longer and the redo stack empty, so that a
    [Redo] then returns false.  When the command fails the live canvas is
    the one [Execute] found, an [Undo] then returns true, and the canvas it
    restores has the same fields and components as the live one; it is
    that very canvas unless the component slice was nil. *)
Theorem execute_always_snapshots cmd s w :
  let s1 := (Execute cmd s w).1.2 in
  Session.UndoStack s1
    = Session.UndoStack s ++ [snapshot (Session.Canvas s)] /\
  Session.RedoStack s1 = [] /\
  (Redo s1).1 = false /\
  ((Execute cmd s w).1.1 <> None ->
     Session.Canvas s1 = Session.Canvas s /\
     (Undo s1).1 = true /\
     same_content (Session.Canvas (Undo s1).2) (Session.Canvas s1) /\
     (Canvas.Components (Session.Canvas s) <> nil_slice ->
        Session.Canvas (Undo s1).2 = Session.Canvas s1)).
Proof.
  unfold Execute. cbv zeta.
  destruct (dispatch_frame cmd (saveState s) w) as (_ & Hu & Hr).
  split; [by rewrite Hu|]. split; [by rewrite Hr|].
  split.
  { unfold Redo. rewrite Hr. reflexivity. }
  intros Herr.
  destruct ((dispatch cmd (saveState s) w).1.1) as [e|] eqn:E; [|done].
  rewrite (dispatch_error _ _ _ _ E).
  destruct s as [c h u r]. unfold saveState; simpl.
  rewrite Undo_after_push. simpl.
  split; [done|]. split; [done|]. split; [apply snapshot_same_content|].
  intros Hnn. destruct c as [n wd ht [|l] th]; [done|reflexivity].
Qed.

Lemma execute_always_snapshots_witness :
  let cmd := Command.mk CmdRemoveComponent (id_payload "ghost") in
  let s1 := (Execute cmd demo_session fresh_world).1.2 in
  (Execute cmd demo_session fresh_world).1.1
    = Some (Errorf "component not found: ghost") /\
  Session.Canvas (Undo s1).2 = Session.Canvas s1.
Proof.
  cbv zeta. split; [reflexivity|].
  refine (proj2 (proj2 (proj2 (proj2 (proj2 (proj2
    (execute_always_snapshots
       (Command.mk CmdRemoveComponent (id_payload "ghost"))
       demo_session fresh_world))) _))) _); done.
Defined.

(** C3. When no component of the canvas has the id, each of remove, move,
    resize, style and set-text returns the error
    "component not found: " followed by the id, and the session it leaves
    is the one [saveState] produced: the component list is untouched, in
    content and in order. *)
Theorem not_found_is_total s w id params :
  id ∉ map Component.ID (components s) ->
  let missing :=
    (Some (Errorf ("component not found: " +:+ id)), saveState s, w) in
  components (saveState s) = components s /\
  (Unmarshal_ID params = inr id ->
   Execute (Command.mk CmdRemoveComponent params) s w = missing) /\
  (forall p, Unmarshal_MoveComponentParams params = inr p ->
   MoveComponentParams.ID p = id ->
   Execute (Command.mk CmdMoveComponent params) s w = missing) /\
  (forall p, Unmarshal_ResizeComponentParams params = inr p ->
   ResizeComponentParams.ID p = id ->
   Execute (Command.mk CmdResizeComponent params) s w = missing) /\
  (forall p, Unmarshal_StyleComponentParams params = inr p ->
   StyleComponentParams.ID p = id ->
   Execute (Command.mk CmdStyleComponent params) s w = missing) /\
  (forall p, Unmarshal_SetTextParams params = inr p ->
   SetTextParams.ID p = id ->
   Execute (Command.mk CmdSetText params) s w = missing).
Proof.
  intros Hid. cbv zeta.
  assert (Hid' : id ∉ map Component.ID (components (saveState s))) by done.
  split; [reflexivity|].
  unfold Execute, dispatch; simpl.
  repeat split.
  - intros Hp. unfold removeComponent. rewrite Hp.
    by rewrite (scan_None _ _ Hid').
  - intros p Hp <-. unfold moveComponent. rewrite Hp.
    by rewrite update_in_place_not_found.
  - intros p Hp <-. unfold resizeComponent. rewrite Hp.
    by rewrite update_in_place_not_found.
  - intros p Hp <-. unfold styleComponent. rewrite Hp.
    by rewrite update_in_place_not_found.
  - intros p Hp <-. unfold setText. rewrite Hp.
    by rewrite update_in_place_not_found.
Qed.

Lemma not_found_is_total_witness :
  let s := (Execute add_header demo_session fresh_world).1.2 in
  Execute (Command.mk CmdMoveComponent (id_payload "ghost")) s fresh_world
  = (Some (Errorf "component not found: ghost"), saveState s, fresh_world).
Proof.
  cbv zeta.
  refine (proj1 (proj2 (proj2
    (not_found_is_total (Execute add_header demo_session fresh_world).1.2
       fresh_world "ghost" (id_payload "ghost") _)))
    (MoveComponentParams.mk "ghost" 0 0) eq_refl eq_refl).
  vm_compute. intros H. repeat (apply elem_of_cons in H as [H|H]; [discriminate|]).
  by apply elem_of_nil in H.
Defined.

(** ** The history log *)

Lemma Undo_history s : Session.History (Undo s).2 = Session.History s.
Proof. unfold Undo. by destruct (last _). Qed.

Lemma Redo_history s : Session.History (Redo s).2 = Session.History s.
Proof. unfold Redo. by destruct (last _). Qed.

Lemma Execute_history cmd s w :
  Session.History (Execute cmd s w).1.2 = Session.History s.
Proof.
  unfold Execute. by destruct (dispatch_frame cmd (saveState s) w) as (-> & _).
Qed.

Lemma step_history op s w :
  Session.History (step op s w).1 = Session.History s.
Proof.
  destruct op; simpl;
    auto using Execute_history, Undo_history, Redo_history.
Qed.

Lemma run_history ops s w :
  Session.History (run ops s w).1 = Session.History s.
Proof.
  revert s w. induction ops as [|op ops IH]; intros s w; simpl; [done|].
  destruct (step op s w) as [s' w'] eqn:E.
  rewrite IH. by rewrite <- (step_history op s w), E.
Qed.

(** C7, the claim as stated fails: after [Execute] of the scenario's
    command on the fresh session the history does not hold the command. *)
Lemma history_not_appended :
  Session.History (Execute add_header demo_session fresh_world).1.2
  <> Session.History demo_session ++ [add_header].
Proof. vm_compute. discriminate. Qed.

(** C7, amended. The history is created empty and nothing writes or reads
    it: [Execute], [Undo] and [Redo] return it as they found it, the
    outcome of [Undo] and [Redo] does not depend on it, and after any
    sequence of calls on a new session it is still empty. *)
Theorem history_is_never_written :
  (forall cmd s w,
     Session.History (Execute cmd s w).1.2 = Session.History s) /\
  (forall s, Session.History (Undo s).2 = Session.History s) /\
  (forall s, Session.History (Redo s).2 = Session.History s) /\
  (forall c h h' u r,
     (Undo (Session.mk c h u r)).1 = (Undo (Session.mk c h' u r)).1 /\
     Session.Canvas (Undo (Session.mk c h u r)).2
       = Session.Canvas (Undo (Session.mk c h' u r)).2 /\
     (Redo (Session.mk c h u r)).1 = (Redo (Session.mk c h' u r)).1 /\
     Session.Canvas (Redo (Session.mk c h u r)).2
       = Session.Canvas (Redo (Session.mk c h' u r)).2) /\
  (forall ops name width height w,
     Session.History (run ops (NewSession name width height) w).1 = []).
Proof.
  split; [exact Execute_history|].
  split; [exact Undo_history|].
  split; [exact Redo_history|].
  split.
  - intros c h h' u r. unfold Undo, Redo; simpl.
    destruct (last u), (last r); done.
  - intros. by rewrite run_history.
Qed.

(** ** Command kinds *)

Lemma Execute_unrecognised cmd s w :
  Command.Type_ cmd <> CmdAddComponent ->
  Command.Type_ cmd <> CmdRemoveComponent ->
  Command.Type_ cmd <> CmdMoveComponent ->
  Command.Type_ cmd <> CmdResizeComponent ->
  Command.Type_ cmd <> CmdStyleComponent ->
  Command.Type_ cmd <> CmdSetText ->
  Execute cmd s w
  = (Some (Errorf ("unknown command type: " +:+ Command.Type_ cmd)),
     saveState s, w).
Proof.
  intros H1 H2 H3 H4 H5 H6. unfold Execute, dispatch.
  apply String.eqb_neq in H1, H2, H3, H4, H5, H6.
  by rewrite H1, H2, H3, H4, H5, H6.
Qed.

Lemma update_in_place_error id f s e :
  (update_in_place id f s).1 = Some e ->
  e = Errorf ("component not found: " +:+ id).
Proof. unfold update_in_place. destruct (scan _ _); simpl; congruence. Qed.

(** The errors of the six mutations: what the decoder returned, or a
    component that was not found. *)
Lemma dispatched_errors cmd s w e :
  dispatched (Command.Type_ cmd) = true ->
  (Execute cmd s w).1.1 = Some e ->
  (exists err, e = JSONError err) \/
  (exists id, e = Errorf ("component not found: " +:+ id)).
Proof.
  intros Hd. unfold Execute, dispatch.
  unfold addComponent, removeComponent, moveComponent, resizeComponent,
    styleComponent, setText, pure_step, NewComponent.
  repeat case_match; simpl; try discriminate;
    try (intros [= <-]; left; by eauto);
    try (intros He%update_in_place_error; right; by eauto);
    try (intros [= <-]; right; by eauto).
  intros _. unfold dispatched in Hd.
  repeat match goal with
         | H : String.eqb _ _ = false |- _ => rewrite H in Hd; clear H
         end.
  discriminate.
Qed.

(** C8, the claim as stated fails: [undo] is one of the eleven declared
    kinds, and [Execute] answers it with the unknown-command error. *)
Lemma undo_is_an_unknown_kind :
  (Execute (Command.mk CmdUndo (id_payload "")) demo_session fresh_world).1.1
  = Some (Errorf "unknown command type: undo").
Proof. reflexivity. Qed.

(** C8, amended.  [Execute] returns the unknown-command error exactly for
    the kinds its switch has no case for, that is all kinds but add,
    remove, move, resize, style and set-text; it does so after pushing
    the snapshot.  The declared kinds export, save, load, undo and redo
    are among the kinds it refuses. *)
Theorem unknown_kind_exactly cmd s w :
  (dispatched CmdExport = false /\ dispatched CmdSave = false /\
   dispatched CmdLoad = false /\ dispatched CmdUndo = false /\
   dispatched CmdRedo = false) /\
  ((Execute cmd s w).1.1
   = Some (Errorf ("unknown command type: " +:+ Command.Type_ cmd))
   <-> dispatched (Command.Type_ cmd) = false) /\
  (dispatched (Command.Type_ cmd) = false ->
   Execute cmd s w
   = (Some (Errorf ("unknown command type: " +:+ Command.Type_ cmd)),
      saveState s, w)).
Proof.
  split; [by repeat split|].
  assert (Hunk : dispatched (Command.Type_ cmd) = false ->
                 Execute cmd s w
                 = (Some (Errorf ("unknown command type: "
                                    +:+ Command.Type_ cmd)),
                    saveState s, w)).
  { unfold dispatched. intros H.
    repeat (apply orb_false_elim in H as [H ?]).
    apply Execute_unrecognised; by apply String.eqb_neq. }
  split; [split|exact Hunk].
  - intros He. destruct (dispatched (Command.Type_ cmd)) eqn:Hd; [|done].
    destruct (dispatched_errors cmd s w _ Hd He) as [[err E]|[id E]];
      [discriminate E | simpl in E; discriminate E].
  - intros Hd. by rewrite (Hunk Hd).
Qed.

Lemma unknown_kind_exactly_witness :
  Execute (Command.mk CmdRedo (id_payload "")) demo_session fresh_world
  = (Some (Errorf "unknown command type: redo"),
     saveState demo_session, fresh_world).
Proof.
  exact (proj2 (proj2
    (unknown_kind_exactly (Command.mk CmdRedo (id_payload ""))
       demo_session fresh_world)) eq_refl).
Defined.

(** C9, the code on every input: [GenerateJSON] returns the text of the
    empty object whatever canvas the generator holds, so two generators
    built from different canvases produce the same output. *)
Theorem GenerateJSON_ignores_canvas canvas1 canvas2 :
  GenerateJSON (NewGenerator canvas1) = "{}" /\
  GenerateJSON (NewGenerator canvas1) = GenerateJSON (NewGenerator canvas2).
Proof. split; reflexivity. Qed.

(** ** Mutations that bypass the history *)

Lemma direct_frame op s w :
  is_direct op ->
  Session.History (step op s w).1 = Session.History s /\
  Session.UndoStack (step op s w).1 = Session.UndoStack s /\
  Session.RedoStack (step op s w).1 = Session.RedoStack s.
Proof.
  destruct op; simpl; done.
Qed.

(** C10, the claim as stated fails.  On the session left by the scenario's
    AddComponent, [SetTheme] leaves both stacks alone, yet the [Undo] that
    follows brings the old theme back; likewise the component [AddList]
    appended is gone after the [Undo]. *)
Lemma undo_reverts_direct_mutation :
  let s := (Execute add_header demo_session fresh_world).1.2 in
  let w := (Execute add_header demo_session fresh_world).2 in
  Session.UndoStack (SetTheme "dracula" s) = Session.UndoStack s /\
  Canvas.Theme (Session.Canvas (SetTheme "dracula" s)) = "dracula" /\
  (Undo (SetTheme "dracula" s)).1 = true /\
  Canvas.Theme (Session.Canvas (Undo (SetTheme "dracula" s)).2) <> "dracula" /\
  let s' := (step (OpAddList "menu" (mk_slice ["a"]) 0 4 20 5) s w).1 in
  length (components s') = 2%nat /\
  components (Undo s').2 = [].
Proof. vm_compute. repeat split; discriminate. Qed.

(** C10, amended. [SetTheme], [Resize], [AddList] and [AddProgress] leave
    the history and both stacks exactly as they were.  An [Undo] right
    after has no snapshot of that mutation to go back to: on an empty undo
    stack it returns false and the mutation stays; otherwise it returns
    true and restores the snapshot on top of the stack, so the mutation is
    discarded together with whatever followed that snapshot, and the
    mutated canvas goes to the redo stack.  [Clear] pushes a snapshot
    first, and the [Undo] after it restores the canvas [Clear] found. *)
Theorem direct_mutations_bypass_history op s w :
  is_direct op ->
  let s' := (step op s w).1 in
  Session.History s' = Session.History s /\
  Session.UndoStack s' = Session.UndoStack s /\
  Session.RedoStack s' = Session.RedoStack s /\
  (Session.UndoStack s = [] -> Undo s' = (false, s')) /\
  (forall u top, Session.UndoStack s = u ++ [top] ->
     Undo s'
     = (true,
        Session.mk top (Session.History s) u
          (Session.RedoStack s ++ [Session.Canvas s']))) /\
  Undo (Clear s)
  = (true,
     Session.mk (snapshot (Session.Canvas s)) (Session.History s)
       (Session.UndoStack s)
       [Canvas.with_Components (mk_slice []) (Session.Canvas s)]).
Proof.
  intros Hd. cbv zeta.
  destruct (direct_frame op s w Hd) as (Hh & Hu & Hr).
  split; [done|]. split; [done|]. split; [done|].
  destruct (step op s w).1 as [c' h' u' r'] eqn:E. simpl in *. subst.
  repeat split.
  - intros ->. reflexivity.
  - intros u top ->. apply Undo_after_push.
  - destruct s as [c h u r]. unfold Clear, saveState, set_components,
      Session.with_Canvas; simpl. apply Undo_after_push.
Qed.

Lemma direct_mutations_bypass_history_witness :
  Undo (SetTheme "dracula" demo_session)
  = (false, SetTheme "dracula" demo_session).
Proof.
  exact (proj1 (proj2 (proj2 (proj2
    (direct_mutations_bypass_history (OpSetTheme "dracula")
       demo_session fresh_world I)))) eq_refl).
Defined.

(** ** Identifiers *)

Lemma nibble_cases v :
  0 <= v < 16 ->
  v = 0 \/ v = 1 \/ v = 2 \/ v = 3 \/ v = 4 \/ v = 5 \/ v = 6 \/ v = 7 \/
  v = 8 \/ v = 9 \/ v = 10 \/ v = 11 \/ v = 12 \/ v = 13 \/ v = 14 \/ v = 15.
Proof. lia. Qed.

Lemma unhex_hexdigit v : 0 <= v < 16 -> unhex (hexdigit v) = v.
Proof.
  intros H. apply nibble_cases in H.
  repeat (destruct H as [-> | H]; [reflexivity|]). by subst.
Qed.

Lemma byte_mod z : byte z = z mod 256.
Proof. unfold byte. change 255 with (Z.ones 8). by rewrite Z.land_ones. Qed.

Lemma high_nibble b : 0 <= b < 256 -> 0 <= Z.shiftr b 4 < 16.
Proof.
  intros H. rewrite Z.shiftr_div_pow2 by lia. change (2 ^ 4) with 16.
  split; [apply Z.div_pos; lia | apply Z.div_lt_upper_bound; lia].
Qed.

Lemma low_nibble b : 0 <= Z.land b 15 < 16.
Proof.
  change 15 with (Z.ones 4). rewrite Z.land_ones by lia.
  apply Z.mod_pos_bound. lia.
Qed.

Lemma nibbles_byte b :
  0 <= b < 256 -> Z.shiftr b 4 * 16 + Z.land b 15 = b.
Proof.
  intros H. rewrite Z.shiftr_div_pow2 by lia.
  change 15 with (Z.ones 4). rewrite Z.land_ones by lia.
  change (2 ^ 4) with 16. pose proof (Z.div_mod b 16). lia.
Qed.

Lemma uint64_low16 z : uint64 z mod 65536 = z mod 65536.
Proof.
  unfold uint64. change (2 ^ 64) with (65536 * 281474976710656).
  rewrite Z.rem_mul_r by lia.
  rewrite (Z.mul_comm 65536), Z.mod_add by lia.
  apply Z.mod_mod. lia.
Qed.

(** The bits read back from a generated identifier are the low sixteen
    bits of the counter value the call obtained. *)
Lemma generateID_counter_bits w :
  idCounterBits (generateID w).1 = (idCounter w + 1) mod 65536.
Proof.
  unfold generateID, idCounterBits. simpl.
  set (c := uint64 (idCounter w + 1)).
  assert (Hhi : 0 <= byte (Z.shiftr c 8) < 256)
    by (rewrite byte_mod; apply Z.mod_pos_bound; lia).
  assert (Hlo : 0 <= byte c < 256)
    by (rewrite byte_mod; apply Z.mod_pos_bound; lia).
  rewrite !unhex_hexdigit by (apply low_nibble || by apply high_nibble).
  pose proof (nibbles_byte _ Hhi) as Ehi.
  pose proof (nibbles_byte _ Hlo) as Elo.
  rewrite <- (uint64_low16 (idCounter w + 1)). fold c.
  change 65536 with (256 * 256). rewrite (Z.rem_mul_r c 256 256) by lia.
  assert (Eh : byte (Z.shiftr c 8) = (c / 256) mod 256)
    by (by rewrite byte_mod, Z.shiftr_div_pow2 by lia).
  assert (El : byte c = c mod 256) by apply byte_mod.
  lia.
Qed.

Lemma low16_shift a b k :
  a mod 65536 = b mod 65536 -> (a + k) mod 65536 = (b + k) mod 65536.
Proof.
  intros H. rewrite <- (Z.add_mod_idemp_l a), H, Z.add_mod_idemp_l by lia.
  reflexivity.
Qed.

Lemma generateID_world w :
  idCounter (generateID w).2 = uint64 (idCounter w + 1).
Proof. reflexivity. Qed.

Lemma step_valid_add cmd s w :
  valid_add cmd ->
  exists comp,
    components (step (OpExecute cmd) s w).1 = components s ++ [comp] /\
    Component.ID comp = (generateID w).1 /\
    (step (OpExecute cmd) s w).2 = (generateID w).2.
Proof.
  intros Hv. destruct (Execute_valid_add cmd s w Hv) as (comp & E & Hid).
  exists comp. simpl. rewrite E. simpl.
  split; [|done]. by destruct s as [[? ? ? [|?] ?] ? ? ?].
Qed.

(** The counter bits of the components a run of valid AddComponent commands
    appends are consecutive, starting after the counter the run found. *)
Lemma run_adds_counter_bits cmds s w :
  Forall valid_add cmds ->
  map (idCounterBits ∘ Component.ID)
    (components (run (map OpExecute cmds) s w).1)
  = map (idCounterBits ∘ Component.ID) (components s)
    ++ map (λ i, (idCounter w + 1 + Z.of_nat i) mod 65536)
         (seq 0 (length cmds)).
Proof.
  intros Hall. revert s w.
  induction Hall as [|cmd cmds Hv _ IH]; intros s w.
  { simpl. by rewrite app_nil_r. }
  cbn [map run length].
  destruct (step_valid_add cmd s w Hv) as (comp & Hc & Hid & Hw).
  destruct (step (OpExecute cmd) s w) as [s1 w1]. simpl in Hc, Hw.
  rewrite IH, Hc, map_app, <- app_assoc. f_equal.
  cbn [map app seq]. f_equal.
  - unfold compose. rewrite Hid, generateID_counter_bits.
    f_equal. lia.
  - rewrite <- seq_shift, map_map. apply map_ext. intros i.
    assert (E : idCounter w1 mod 65536 = (idCounter w + 1) mod 65536)
      by (rewrite Hw; apply uint64_low16).
    replace (idCounter w + 1 + Z.of_nat (S i))
      with (idCounter w + 1 + (1 + Z.of_nat i)) by lia.
    rewrite <- Z.add_assoc.
    by apply low16_shift.
Qed.

Lemma consecutive_bits_NoDup c n :
  Z.of_nat n <= 65536 ->
  NoDup (map (λ i, (c + 1 + Z.of_nat i) mod 65536) (seq 0 n)).
Proof.
  intros Hn. apply NoDup_fmap_2_strong; [|apply NoDup_seq].
  intros i j Hi Hj Heq.
  apply elem_of_seq in Hi, Hj.
  assert (H : (Z.of_nat i - Z.of_nat j) mod 65536 = 0).
  { replace (Z.of_nat i - Z.of_nat j)
      with ((c + 1 + Z.of_nat i) - (c + 1 + Z.of_nat j)) by lia.
    rewrite Zminus_mod, Heq, Z.sub_diag. reflexivity. }
  apply Z.mod_divide in H; [|lia]. destruct H as [k Hk].
  assert (k = 0) by lia. lia.
Qed.

(** C4. Up to 10,000 valid AddComponent commands executed on a new session,
    whatever the counter the process had reached and whatever the clock
    and the random source answer, leave a canvas with one component per
    command and no two components with the same id. *)
Theorem ids_are_unique cmds name width height w :
  Forall valid_add cmds ->
  Z.of_nat (length cmds) <= 10000 ->
  let s := (run (map OpExecute cmds) (NewSession name width height) w).1 in
  length (components s) = length cmds /\
  NoDup (map Component.ID (components s)).
Proof.
  intros Hall Hlen. cbv zeta.
  pose proof (run_adds_counter_bits cmds (NewSession name width height) w Hall)
    as Hbits.
  simpl in Hbits. split.
  - apply (f_equal length) in Hbits.
    by rewrite !length_map, length_seq in Hbits.
  - apply (NoDup_fmap_1 idCounterBits).
    change (idCounterBits <$> map Component.ID ?l)
      with (map idCounterBits (map Component.ID l)).
    rewrite map_map. unfold compose in Hbits. rewrite Hbits.
    apply consecutive_bits_NoDup. lia.
Qed.

Lemma ids_are_unique_witness :
  NoDup (map Component.ID
           (components
              (run (map OpExecute [add_header; add_header; add_header])
                 demo_session fresh_world).1)).
Proof.
  refine (proj2 (ids_are_unique [add_header; add_header; add_header]
                   "Demo" 80 24 fresh_world _ _)).
  - repeat constructor; eexists; reflexivity.
  - simpl. lia.
Defined.

(** ** The generator *)

Lemma imap_index_free {A B} (f : nat -> A -> B) (l : list A) :
  (forall i x, x ∈ l -> f i x = f 0%nat x) -> imap f l = map (f 0%nat) l.
Proof.
  intros H. rewrite <- (imap_const (f 0%nat)). apply imap_ext.
  intros i x Hx. apply H. by eapply list_elem_of_lookup_2.
Qed.

Lemma modelFields_index_free i comp :
  embeds_index comp = false -> modelFields i comp = "".
Proof.
  unfold embeds_index, modelFields. intros H.
  repeat (apply orb_false_elim in H as [H ?]).
  by repeat case_match.
Qed.

Lemma imap_no_fields (l : list Component.t) :
  (forall comp, comp ∈ l -> embeds_index comp = false) ->
  imap modelFields l = replicate (length l) "".
Proof.
  intros H. rewrite (imap_index_free modelFields l)
    by (intros; rewrite !modelFields_index_free; auto).
  induction l as [|x l IH]; [done|]. simpl. f_equal.
  - apply modelFields_index_free, H, list_elem_of_here.
  - apply IH. intros comp Hc. apply H. by apply list_elem_of_further.
Qed.

Section CodegenProperties.

Variable Quote : string -> string.

Lemma Generate_frame g :
  Generate Quote g = frame (modelBlocks g) (viewBlocks Quote g).
Proof. reflexivity. Qed.

Lemma generateComponentView_index_free i comp :
  embeds_index comp = false ->
  generateComponentView Quote i comp = generateComponentView Quote 0 comp.
Proof.
  unfold embeds_index, generateComponentView. intros H.
  repeat (apply orb_false_elim in H as [H ?]).
  by repeat case_match.
Qed.

(** C6, amended.  The output is a function of the component list: two
    generators over the same components produce the same text.  When the
    component lists of two generators are permutations of each other, both
    outputs are the same fixed text around one model chunk and one view
    block per component, in canvas order; the block of a component is its
    template applied to the position the component has in its own canvas,
    and the templates of the two canvases are permutations of each other.
    Where no component embeds its position (types other than box, text,
    button, input, list and progress), the model chunks are equal and the
    view blocks themselves are permutations of each other. *)
Theorem generator_determinism g1 g2 :
  (gen_components g1 = gen_components g2 ->
   Generate Quote g1 = Generate Quote g2) /\
  (gen_components g1 ≡ₚ gen_components g2 ->
   Generate Quote g1 = frame (modelBlocks g1) (viewBlocks Quote g1) /\
   Generate Quote g2 = frame (modelBlocks g2) (viewBlocks Quote g2) /\
   viewBlocks Quote g1
     = imap (λ i comp, generateComponentView Quote i comp)
         (gen_components g1) /\
   viewBlocks Quote g2
     = imap (λ i comp, generateComponentView Quote i comp)
         (gen_components g2) /\
   map (λ comp i, generateComponentView Quote i comp) (gen_components g1)
     ≡ₚ map (λ comp i, generateComponentView Quote i comp)
          (gen_components g2) /\
   map (λ comp i, modelFields i comp) (gen_components g1)
     ≡ₚ map (λ comp i, modelFields i comp) (gen_components g2) /\
   (forallb (λ comp, negb (embeds_index comp)) (gen_components g1) = true ->
    modelBlocks g1 = modelBlocks g2 /\
    viewBlocks Quote g1 ≡ₚ viewBlocks Quote g2)).
Proof.
  split.
  { intros E. rewrite !Generate_frame. unfold modelBlocks, viewBlocks.
    by rewrite E. }
  intros Hp.
  split; [apply Generate_frame|]. split; [apply Generate_frame|].
  split; [reflexivity|]. split; [reflexivity|].
  split; [by apply fmap_Permutation|]. split; [by apply fmap_Permutation|].
  intros Hfree.
  assert (H1 : forall comp, comp ∈ gen_components g1 ->
                            embeds_index comp = false).
  { intros comp Hc. rewrite forallb_forall in Hfree.
    apply list_elem_of_In, Hfree in Hc. by destruct (embeds_index comp). }
  assert (H2 : forall comp, comp ∈ gen_components g2 ->
                            embeds_index comp = false).
  { intros comp Hc. apply H1. by rewrite Hp. }
  split.
  - unfold modelBlocks.
    rewrite (imap_no_fields (gen_components g1)),
            (imap_no_fields (gen_components g2)) by done.
    by rewrite (Permutation_length Hp).
  - unfold viewBlocks.
    rewrite (imap_index_free _ (gen_components g1)),
            (imap_index_free _ (gen_components g2))
      by (intros; apply generateComponentView_index_free; auto).
    by apply fmap_Permutation.
Qed.

End CodegenProperties.

Lemma generator_determinism_witness :
  let g1 := NewGenerator (canvas_of [plain "c1" TypeSpinner "busy";
                                     plain "c2" TypeTable "rows"]) in
  let g2 := NewGenerator (canvas_of [plain "c2" TypeTable "rows";
                                     plain "c1" TypeSpinner "busy"]) in
  viewBlocks (λ s, dq +:+ s +:+ dq) g1 ≡ₚ viewBlocks (λ s, dq +:+ s +:+ dq) g2.
Proof.
  cbv zeta.
  destruct (generator_determinism (λ s, dq +:+ s +:+ dq)
              (NewGenerator (canvas_of [plain "c1" TypeSpinner "busy";
                                        plain "c2" TypeTable "rows"]))
              (NewGenerator (canvas_of [plain "c2" TypeTable "rows";
                                        plain "c1" TypeSpinner "busy"])))
    as [_ H].
  destruct H as (_ & _ & _ & _ & _ & _ & H); [apply Permutation_swap|].
  apply H. reflexivity.
Defined.

(** C6, the claim as stated fails.  The two canvases hold the same two
    boxes in opposite orders, yet whatever [%q] prints the view blocks of
    one output are not a rearrangement of the view blocks of the other:
    each block names its variable after the position of the component.  In
    the same way the model fields of an input change with its position. *)
Lemma reordering_renames_blocks :
  let a := plain "c1" TypeBox "left" in
  let b := plain "c2" TypeBox "right" in
  let i := plain "c3" TypeInput "query" in
  [a; b] ≡ₚ [b; a] /\
  (forall Quote,
     ~ viewBlocks Quote (NewGenerator (canvas_of [a; b]))
       ≡ₚ viewBlocks Quote (NewGenerator (canvas_of [b; a]))) /\
  ~ modelBlocks (NewGenerator (canvas_of [i; a]))
    ≡ₚ modelBlocks (NewGenerator (canvas_of [a; i])).
Proof.
  cbv zeta. split; [apply Permutation_swap|]. split.
  - intros Quote Hp.
    assert (Hin : generateComponentView Quote 0 (plain "c1" TypeBox "left")
                  ∈ viewBlocks Quote
                      (NewGenerator
                         (canvas_of [plain "c2" TypeBox "right";
                                     plain "c1" TypeBox "left"]))).
    { rewrite <- Hp. apply list_elem_of_here. }
    vm_compute in Hin.
    apply elem_of_cons in Hin as [H|Hin]; [discriminate H|].
    apply elem_of_cons in Hin as [H|Hin]; [discriminate H|].
    by apply elem_of_nil in Hin.
  - intros Hp.
    assert (Hin : modelFields 0 (plain "c3" TypeInput "query")
                  ∈ modelBlocks
                      (NewGenerator
                         (canvas_of [plain "c1" TypeBox "left";
                                     plain "c3" TypeInput "query"]))).
    { rewrite <- Hp. apply list_elem_of_here. }
    vm_compute in Hin.
    apply elem_of_cons in Hin as [H|Hin]; [discriminate H|].
    apply elem_of_cons in Hin as [H|Hin]; [discriminate H|].
    by apply elem_of_nil in Hin.
Qed.

(** ** The JSON round trip *)

Local Arguments itoa : simpl never.
Local Arguments ParseInt : simpl never.
Local Arguments toValidUTF8 : simpl never.

Lemma ParseInt_itoa z : is_int z = true -> ParseInt (itoa z) = Some z.
Proof.
  unfold is_int, ParseInt, itoa. intros Hz.
  assert (E : NilZero.int_of_string (NilZero.string_of_int (Z.to_int z))
              = Some (Z.to_int z)).
  { destruct z as [|p|p]; [reflexivity| |];
      apply NilZero.isi; simpl; intros [= H];
      by apply DecimalPos.Unsigned.to_uint_nonnil in H. }
  rewrite E, DecimalZ.of_to, Hz. reflexivity.
Qed.

Lemma into_int_jint z v : is_int z = true -> into_int (jint z) v = Some z.
Proof. apply ParseInt_itoa. Qed.

Lemma into_string_jstring s v :
  valid_string s = true -> into_string (jstring s) v = Some s.
Proof.
  unfold valid_string, jstring. intros H%String.eqb_eq. simpl. by rewrite H.
Qed.

Lemma into_members_app {A} (set : string -> JSON -> A -> option A) m1 m2 v :
  into_members set (m1 ++ m2) v
  = into_members set m1 v ≫= into_members set m2.
Proof.
  revert v. induction m1 as [|[k j] m1 IH]; intros v; simpl; [done|].
  destruct (set k j v); simpl; [apply IH|done].
Qed.

Lemma valid_string_eq s : valid_string s = true -> toValidUTF8 s = s.
Proof. apply String.eqb_eq. Qed.

(** Replace each well-formed string under [toValidUTF8] by itself. *)
Ltac use_valid :=
  repeat match goal with
         | H : valid_string ?s = true |- _ =>
             apply valid_string_eq in H; rewrite ?H
         end.

Lemma and_true_split a b : a && b = true -> a = true /\ b = true.
Proof. apply andb_true_iff. Qed.

Ltac split_stable :=
  repeat match goal with
         | H : _ && _ = true |- _ => apply and_true_split in H as [? ?]
         end.

Lemma Position_roundtrip p v :
  is_int (Position.X p) = true -> is_int (Position.Y p) = true ->
  into_struct Position_member (marshal_Position p) v = Some p.
Proof.
  destruct p as [x y], v as [x0 y0]. simpl. intros Hx Hy.
  unfold Position_member, jint; simpl. by rewrite !ParseInt_itoa.
Qed.

Lemma Size_roundtrip sz v :
  is_int (Size.Width sz) = true -> is_int (Size.Height sz) = true ->
  into_struct Size_member (marshal_Size sz) v = Some sz.
Proof.
  destruct sz as [x y], v as [x0 y0]. simpl. intros Hx Hy.
  unfold Size_member, jint; simpl. by rewrite !ParseInt_itoa.
Qed.

Lemma Padding_roundtrip p v :
  is_int (Padding.Top p) = true -> is_int (Padding.Right p) = true ->
  is_int (Padding.Bottom p) = true -> is_int (Padding.Left p) = true ->
  into_struct Padding_member (marshal_Padding p) v = Some p.
Proof.
  destruct p, v; simpl. intros.
  unfold Padding_member, jint; simpl. by rewrite !ParseInt_itoa.
Qed.

Lemma Margin_roundtrip m v :
  is_int (Margin.Top m) = true -> is_int (Margin.Right m) = true ->
  is_int (Margin.Bottom m) = true -> is_int (Margin.Left m) = true ->
  into_struct Margin_member (marshal_Margin m) v = Some m.
Proof.
  destruct m, v; simpl. intros.
  unfold Margin_member, jint; simpl. by rewrite !ParseInt_itoa.
Qed.

Lemma Border_roundtrip b v :
  stable_Border b = true ->
  into_Border_ptr (marshal_Border b) v = Some (Some b).
Proof.
  unfold stable_Border. intros H. split_stable.
  destruct b as [st co l r t bo]; simpl in *.
  destruct (default Border_zero v) as [st0 co0 l0 r0 t0 b0]; simpl.
  unfold Border_member, jstring, valid_string in *; simpl.
  repeat match goal with
         | H : String.eqb _ _ = true |- _ => apply String.eqb_eq in H; rewrite H
         end.
  reflexivity.
Qed.

Local Arguments marshal_Position : simpl never.
Local Arguments marshal_Size : simpl never.
Local Arguments marshal_Padding : simpl never.
Local Arguments marshal_Margin : simpl never.
Local Arguments marshal_Border : simpl never.
Local Arguments into_Border_ptr : simpl never.
Local Arguments into_struct : simpl never.

Lemma into_string_value s v :
  valid_string s = true -> into_string (JString (toValidUTF8 s)) v = Some s.
Proof. apply into_string_jstring. Qed.

Lemma Style_roundtrip st :
  stable_Style st = true ->
  into_struct Style_member (marshal_Style st) Style.zero = Some st.
Proof.
  unfold stable_Style. intros H. split_stable.
  destruct st as [fg bg bold italic underline border padding margin align].
  simpl in *.
  pose proof (Padding_roundtrip padding) as HP.
  pose proof (Margin_roundtrip margin) as HM.
  assert (HB : forall b, border = Some b ->
                         into_Border_ptr (marshal_Border b) None = Some border).
  { intros b ->. by apply Border_roundtrip. }
  unfold omitempty, is_empty_string, jstring, marshal_Style.
  unfold into_struct at 1. cbn. unfold jstring. use_valid.
  destruct fg, bg, bold, italic, underline, border, align;
    cbn; unfold Style_member; cbn;
    repeat (first [ rewrite (HB _ eq_refl)
                  | rewrite HP by done
                  | rewrite HM by done ]; cbn);
    reflexivity.
Qed.

Local Arguments marshal_Style : simpl never.
Local Arguments Component_member : simpl never.

(** Induction on components, with the property at hand for the children. *)
Lemma Component_nested_ind (P : Component.t -> Prop) :
  (forall c, Forall P (elems (Component.Children c)) -> P c) ->
  forall c, P c.
Proof.
  intros H. fix IH 1. intros c. apply H.
  destruct c as [? ? ? ? ? ? ? ? ? ? children ? ? ?]. simpl.
  destruct children as [|l]; simpl; [constructor|].
  induction l as [|x l IHl]; constructor; [apply IH | exact IHl].
Qed.

Section CodecProperties.

Variable FormatFloat : float64 -> string.
Variable ParseFloat : string -> option float64.

Lemma into_Component_elements l :
  (fix elements (l : list JSON) : option (list Component.t) :=
     match l with
     | [] => Some []
     | e :: r =>
         c0 ← into_Component ParseFloat e Component_zero;
         cs ← elements r;
         Some (c0 :: cs)
     end) l
  = mapM (λ e, into_Component ParseFloat e Component_zero) l.
Proof.
  induction l as [|e l IH]; [done|]. rewrite IH. cbn.
  destruct (into_Component ParseFloat e Component_zero); cbn; [|done].
  by destruct (mapM _ l).
Qed.

(** On an object [into_Component] is the member loop with
    [Component_field] as its step. *)
Lemma into_Component_object ms c :
  into_Component ParseFloat (JObject ms) c
  = into_members (Component_field ParseFloat) ms c.
Proof.
  cbn. unfold Component_field. revert c.
  induction ms as [|[key x] ms IH]; intros c; [done|].
  cbn [into_members].
  destruct (String.eqb key "children") eqn:E.
  - destruct x; cbn; try done.
    rewrite into_Component_elements.
    destruct (mapM _ elements); cbn; [apply IH|done].
  - destruct (Component_member ParseFloat key x c); cbn; [apply IH|done].
Qed.

Ltac decode_fields :=
  unfold Component_field, Component_member; cbn;
  repeat (first [ rewrite Position_roundtrip by done
                | rewrite Size_roundtrip by done
                | rewrite Style_roundtrip by done ]; cbn).

Lemma fixed_fields id ty name pos size style :
  valid_string id = true -> valid_string ty = true ->
  valid_string name = true ->
  is_int (Position.X pos) = true -> is_int (Position.Y pos) = true ->
  is_int (Size.Width size) = true -> is_int (Size.Height size) = true ->
  stable_Style style = true ->
  into_members (Component_field ParseFloat)
    [("id", jstring id); ("type", jstring ty); ("name", jstring name);
     ("position", marshal_Position pos); ("size", marshal_Size size);
     ("style", marshal_Style style)]
    Component_zero
  = Some (Component.mk id ty name pos size style
            "" "" nil_slice any_nil nil_slice false false false).
Proof.
  intros. unfold jstring. use_valid. unfold Component_zero.
  by decode_fields.
Qed.

Lemma text_piece id ty name pos size style text ph items v ch f s d :
  into_members (Component_field ParseFloat)
    (omitempty (is_empty_string text) "text" (JString text))
    (Component.mk id ty name pos size style "" ph items v ch f s d)
  = Some (Component.mk id ty name pos size style text ph items v ch f s d).
Proof. destruct text; by decode_fields. Qed.

Lemma placeholder_piece id ty name pos size style text ph items v ch f s d :
  into_members (Component_field ParseFloat)
    (omitempty (is_empty_string ph) "placeholder" (JString ph))
    (Component.mk id ty name pos size style text "" items v ch f s d)
  = Some (Component.mk id ty name pos size style text ph items v ch f s d).
Proof. destruct ph; by decode_fields. Qed.

Lemma focused_piece id ty name pos size style text ph items v ch f s d :
  into_members (Component_field ParseFloat)
    (omitempty (negb f) "focused" (JBool f))
    (Component.mk id ty name pos size style text ph items v ch false s d)
  = Some (Component.mk id ty name pos size style text ph items v ch f s d).
Proof. destruct f; by decode_fields. Qed.

Lemma selected_piece id ty name pos size style text ph items v ch f s d :
  into_members (Component_field ParseFloat)
    (omitempty (negb s) "selected" (JBool s))
    (Component.mk id ty name pos size style text ph items v ch f false d)
  = Some (Component.mk id ty name pos size style text ph items v ch f s d).
Proof. destruct s; by decode_fields. Qed.

Lemma disabled_piece id ty name pos size style text ph items v ch f s d :
  into_members (Component_field ParseFloat)
    (omitempty (negb d) "disabled" (JBool d))
    (Component.mk id ty name pos size style text ph items v ch f s false)
  = Some (Component.mk id ty name pos size style text ph items v ch f s d).
Proof. destruct d; by decode_fields. Qed.

Lemma strings_roundtrip l :
  forallb valid_string l = true ->
  mapM (λ e, into_string e "") (map jstring l) = Some l.
Proof.
  intros H. apply mapM_fmap_Forall_Some.
  apply Forall_forall. intros x Hx. apply into_string_jstring.
  rewrite forallb_forall in H. by apply H, list_elem_of_In.
Qed.

Lemma items_piece id ty name pos size style text ph items v ch f s d :
  not_empty_slice items = true ->
  forallb valid_string (elems items) = true ->
  into_members (Component_field ParseFloat) (marshal_Items items)
    (Component.mk id ty name pos size style text ph nil_slice v ch f s d)
  = Some (Component.mk id ty name pos size style text ph items v ch f s d).
Proof.
  intros Hne Hv. destruct items as [|[|x l]]; try done.
  unfold marshal_Items. cbn [elems].
  unfold Component_field, Component_member, into_strings; cbn -[mapM map].
  rewrite strings_roundtrip by done. reflexivity.
Qed.

Lemma value_piece v :
  stable_Value FormatFloat ParseFloat v = true ->
  exists piece,
    marshal_Value FormatFloat v = Some piece /\
    forall id ty name pos size style text ph items ch f s d,
      into_members (Component_field ParseFloat) piece
        (Component.mk id ty name pos size style text ph items any_nil ch f s d)
      = Some (Component.mk id ty name pos size style text ph items v ch f s d).
Proof.
  destruct v as [|b|x|str]; cbn; intros H.
  - eexists; split; [reflexivity|]. intros. reflexivity.
  - eexists; split; [reflexivity|]. intros. by decode_fields.
  - split_stable. rewrite H.
    eexists; split; [reflexivity|]. intros.
    unfold Component_field, Component_member; cbn.
    destruct (ParseFloat (FormatFloat x)) as [x'|]; [|done].
    apply Z.eqb_eq in H0. by subst.
  - eexists; split; [reflexivity|]. intros.
    unfold jstring. use_valid. by decode_fields.
Qed.

Lemma children_roundtrip l :
  Forall (λ c, stable_Component FormatFloat ParseFloat c = true ->
               exists j, marshal_Component FormatFloat c = Some j /\
                         into_Component ParseFloat j Component_zero = Some c) l ->
  forallb (stable_Component FormatFloat ParseFloat) l = true ->
  exists js, mapM (marshal_Component FormatFloat) l = Some js /\
             mapM (λ e, into_Component ParseFloat e Component_zero) js = Some l.
Proof.
  induction 1 as [|c l Hc _ IH]; intros Hs.
  { by exists []. }
  cbn in Hs. apply and_true_split in Hs as [Hs1 Hs2].
  destruct (Hc Hs1) as (j & Hj1 & Hj2), (IH Hs2) as (js & Hjs1 & Hjs2).
  exists (j :: js). cbn. by rewrite Hj1, Hjs1, Hj2, Hjs2.
Qed.

Lemma children_piece children :
  Forall (λ c, stable_Component FormatFloat ParseFloat c = true ->
               exists j, marshal_Component FormatFloat c = Some j /\
                         into_Component ParseFloat j Component_zero = Some c)
    (elems children) ->
  match children with
  | nil_slice => true
  | mk_slice l =>
      negb (is_nil l) && forallb (stable_Component FormatFloat ParseFloat) l
  end = true ->
  exists piece,
    match children with
    | nil_slice => Some []
    | mk_slice l =>
        js ← mapM (marshal_Component FormatFloat) l;
        Some (omitempty (is_nil js) "children" (JArray js))
    end = Some piece /\
    forall id ty name pos size style text ph items v f s d,
      into_members (Component_field ParseFloat) piece
        (Component.mk id ty name pos size style text ph items v nil_slice f s d)
      = Some (Component.mk id ty name pos size style text ph items v
                children f s d).
Proof.
  intros Hall Hs. destruct children as [|l]; cbn in *.
  { eexists; split; [reflexivity|]. intros. reflexivity. }
  apply and_true_split in Hs as [Hne Hs].
  destruct (children_roundtrip l Hall Hs) as (js & Hjs1 & Hjs2).
  rewrite Hjs1. cbn.
  assert (is_nil js = false) as ->.
  { apply length_mapM in Hjs1. by destruct l, js. }
  eexists; split; [reflexivity|]. intros.
  unfold Component_field, into_Components; cbn -[mapM].
  by rewrite Hjs2.
Qed.

(** A stable component is printed without error and read back as it
    was. *)
Lemma Component_roundtrip c :
  stable_Component FormatFloat ParseFloat c = true ->
  exists j, marshal_Component FormatFloat c = Some j /\
            into_Component ParseFloat j Component_zero = Some c.
Proof.
  induction c as [c IH] using Component_nested_ind. intros Hs.
  destruct c as [id ty name pos size style text ph items v ch f s d].
  cbn [stable_Component Component.ID Component.Type_ Component.Name
       Component.Position Component.Size Component.Style Component.Text
       Component.Placeholder Component.Items Component.Value
       Component.Children] in Hs, IH.
  split_stable.
  destruct (value_piece v) as (vp & Hv1 & Hv2); [done|].
  destruct (children_piece ch IH) as (cp & Hc1 & Hc2); [done|].
  cbn [marshal_Component Component.ID Component.Type_ Component.Name
       Component.Position Component.Size Component.Style Component.Text
       Component.Placeholder Component.Items Component.Value
       Component.Children Component.Focused Component.Selected
       Component.Disabled].
  rewrite Hv1. cbn [mbind option_bind]. rewrite Hc1. cbn [mbind option_bind].
  eexists; split; [reflexivity|].
  rewrite into_Component_object.
  change ([("id", jstring id); ("type", jstring ty); ("name", jstring name);
           ("position", marshal_Position pos); ("size", marshal_Size size);
           ("style", marshal_Style style)] ++ ?rest)
    with ([("id", jstring id); ("type", jstring ty); ("name", jstring name);
           ("position", marshal_Position pos); ("size", marshal_Size size);
           ("style", marshal_Style style)] ++ rest).
  rewrite into_members_app, fixed_fields by done. cbn [mbind option_bind].
  unfold jstring. use_valid.
  rewrite into_members_app, text_piece. cbn [mbind option_bind].
  rewrite into_members_app, placeholder_piece. cbn [mbind option_bind].
  rewrite into_members_app, items_piece by done. cbn [mbind option_bind].
  rewrite into_members_app, Hv2. cbn [mbind option_bind].
  rewrite into_members_app, Hc2. cbn [mbind option_bind].
  rewrite into_members_app, focused_piece. cbn [mbind option_bind].
  rewrite into_members_app, selected_piece. cbn [mbind option_bind].
  apply disabled_piece.
Qed.

Lemma Components_roundtrip cs v :
  forallb (stable_Component FormatFloat ParseFloat) (elems cs) = true ->
  exists j, marshal_Components FormatFloat cs = Some j /\
            into_Components ParseFloat j v = Some cs.
Proof.
  intros Hs. destruct cs as [|l]; cbn in *.
  { by exists JNull. }
  destruct (children_roundtrip l) as (js & Hjs1 & Hjs2); [|done|].
  { apply Forall_forall. intros c _. apply Component_roundtrip. }
  exists (JArray js). rewrite Hjs1. split; [done|].
  unfold into_Components. by rewrite Hjs2.
Qed.

Lemma Canvas_roundtrip c :
  stable_Canvas FormatFloat ParseFloat c = true ->
  exists data, Marshal_Canvas FormatFloat c = inr data /\
               Unmarshal_Canvas ParseFloat data = inr c.
Proof.
  unfold stable_Canvas. intros Hs. split_stable.
  destruct c as [name width height components theme]. cbn in *.
  destruct (Components_roundtrip components nil_slice) as (j & Hj1 & Hj2);
    [done|].
  unfold Marshal_Canvas, marshal_Canvas.
  cbn [Canvas.Components Canvas.Name Canvas.Width Canvas.Height Canvas.Theme].
  rewrite Hj1. cbn [mbind option_bind].
  eexists; split; [reflexivity|].
  unfold Unmarshal_Canvas, Unmarshal, into_struct, Canvas_member, Canvas_zero,
    jstring, jint.
  use_valid. cbn -[into_Components].
  rewrite !ParseInt_itoa by done. cbn -[into_Components].
  rewrite Hj2. reflexivity.
Qed.

(** C5, amended.  For a canvas whose strings are well-formed UTF-8, whose
    integers are Go [int]s, whose [items] and [children] slices are not
    empty unless nil, and whose values are nil, booleans, strings, or
    finite floats that [ParseFloat] reads back from [FormatFloat]:
    [ExportJSON] returns no error, and [LoadFromJSON] on the text it
    returned succeeds and installs that very canvas, in whatever
    session. *)
Theorem export_load_round_trip s s' :
  stable_Canvas FormatFloat ParseFloat (Session.Canvas s) = true ->
  (ExportJSON FormatFloat s).2 = None /\
  LoadFromJSON ParseFloat (ExportJSON FormatFloat s).1 s'
  = (None, Session.with_Canvas (Session.Canvas s) s').
Proof.
  intros Hs. destruct (Canvas_roundtrip _ Hs) as (data & H1 & H2).
  unfold ExportJSON, LoadFromJSON. rewrite H1. simpl. by rewrite H2.
Qed.

End CodecProperties.

(** The round trip on a session with a box, a list and a progress bar.  The
    float codec of the Go library is stood in for by the decimal form of
    the bit pattern. *)
Lemma export_load_round_trip_witness :
  let r := run [OpExecute add_header;
                OpAddList "menu" (mk_slice ["Open"; "Quit"]) 0 4 20 5;
                OpAddProgress "cpu" 4604029899060858061 0 10 30]
             demo_session fresh_world in
  (ExportJSON itoa r.1).2 = None /\
  LoadFromJSON ParseInt (ExportJSON itoa r.1).1 r.1 = (None, r.1).
Proof.
  cbv zeta.
  apply (export_load_round_trip itoa ParseInt
           (run [OpExecute add_header;
                 OpAddList "menu" (mk_slice ["Open"; "Quit"]) 0 4 20 5;
                 OpAddProgress "cpu" 4604029899060858061 0 10 30]
              demo_session fresh_world).1).
  vm_compute. reflexivity.
Defined.

(** C5, the claim as stated fails, whatever the float codec.  A list added
    with an empty, non-nil [items] slice comes back with a nil one, the
    field being tagged [omitempty]; a session name that is not UTF-8 comes
    back as U+FFFD; and with a NaN progress value [ExportJSON] returns an
    error and the empty string, which [LoadFromJSON] refuses. *)
Lemma round_trip_is_lossy :
  (forall FormatFloat ParseFloat,
     let s := (step (OpAddList "menu" (mk_slice []) 0 4 20 5)
                 demo_session fresh_world).1 in
     (ExportJSON FormatFloat s).2 = None /\
     (LoadFromJSON ParseFloat (ExportJSON FormatFloat s).1 s).1 = None /\
     Session.Canvas (LoadFromJSON ParseFloat (ExportJSON FormatFloat s).1 s).2
     <> Session.Canvas s) /\
  (forall FormatFloat ParseFloat,
     let s := NewSession (String "255"%char "") 80 24 in
     (ExportJSON FormatFloat s).2 = None /\
     (LoadFromJSON ParseFloat (ExportJSON FormatFloat s).1 s).1 = None /\
     Session.Canvas (LoadFromJSON ParseFloat (ExportJSON FormatFloat s).1 s).2
     <> Session.Canvas s) /\
  (forall FormatFloat ParseFloat,
     let s := (step (OpAddProgress "cpu" 0x7FF8000000000000 0 10 30)
                 demo_session fresh_world).1 in
     ExportJSON FormatFloat s
     = (None, Some (JSONError UnsupportedValueError)) /\
     LoadFromJSON ParseFloat (ExportJSON FormatFloat s).1 s
     = (Some (JSONError SyntaxError), s)).
Proof.
  repeat split; try (vm_compute; reflexivity); vm_compute; discriminate.
Qed.

(** ** Undo and Redo as inverses *)

(** When the undo stack is empty [Undo] returns false and changes nothing;
    otherwise it returns true, and a [Redo] right after returns true and
    gives back the session [Undo] found.  The same holds with the roles
    of the two exchanged. *)
Theorem undo_redo_inverse s :
  (Session.UndoStack s = [] -> Undo s = (false, s)) /\
  (Session.RedoStack s = [] -> Redo s = (false, s)) /\
  (Session.UndoStack s <> [] ->
   (Undo s).1 = true /\ Redo (Undo s).2 = (true, s)) /\
  (Session.RedoStack s <> [] ->
   (Redo s).1 = true /\ Undo (Redo s).2 = (true, s)).
Proof.
  destruct s as [c h u r]. simpl. repeat split.
  - by intros ->.
  - by intros ->.
  - destruct (exists_last H) as (u' & top & ->).
    by rewrite Undo_after_push.
  - destruct (exists_last H) as (u' & top & ->).
    rewrite Undo_after_push. simpl. unfold Redo; simpl.
    by rewrite last_push, pop_push.
  - destruct (exists_last H) as (r' & top & ->).
    unfold Redo; simpl. by rewrite last_push.
  - destruct (exists_last H) as (r' & top & ->).
    unfold Redo; simpl. rewrite last_push, pop_push.
    apply Undo_after_push.
Qed.

Lemma undo_redo_inverse_witness :
  let s := (Execute add_header demo_session fresh_world).1.2 in
  (Undo s).1 = true /\ Redo (Undo s).2 = (true, s).
Proof.
  cbv zeta.
  refine (proj1 (proj2 (proj2
    (undo_redo_inverse (Execute add_header demo_session fresh_world).1.2)))
    _).
  vm_compute. discriminate.
Defined.

(** The scenario of the specification: on the session "Demo", 80 by 24,
    AddComponent(box, "header", 0, 0, 80, 3, "Hi") leaves one component, a
    box with text "Hi"; [Undo] returns true and leaves none; [Redo] returns
    true and brings back the session as it was after the command. *)
Theorem concrete_scenario :
  let s1 := (Execute add_header demo_session fresh_world).1.2 in
  (Execute add_header demo_session fresh_world).1.1 = None /\
  (exists comp,
     elems (ListComponents s1) = [comp] /\
     Component.Type_ comp = TypeBox /\ Component.Text comp = "Hi" /\
     Component.Name comp = "header" /\
     Component.Position comp = Position.mk 0 0 /\
     Component.Size comp = Size.mk 80 3) /\
  (Undo s1).1 = true /\
  elems (ListComponents (Undo s1).2) = [] /\
  Redo (Undo s1).2 = (true, s1).
Proof.
  cbv zeta. split; [reflexivity|]. split.
  { eexists. split; [vm_compute; reflexivity|]. by repeat split. }
  by vm_compute.
Qed.

(** ** The session in memory and the session by value *)

Lemma backing_alloc m arr h :
  Mem.valid m h -> Mem.backing (m ++ [arr]) h = Mem.backing m h.
Proof.
  intros [Hlt _]. unfold Mem.backing. by rewrite lookup_app_l.
Qed.

Lemma backing_fresh m arr n :
  Mem.backing (m ++ [arr]) (Mem.mk_header (length m) n) = arr.
Proof. unfold Mem.backing; simpl. by rewrite list_lookup_middle. Qed.

Lemma backing_write_ne m a arr h :
  Mem.array h <> a -> Mem.backing (<[a := arr]> m) h = Mem.backing m h.
Proof.
  intros Hne. unfold Mem.backing. by rewrite list_lookup_insert_ne.
Qed.

Lemma backing_write_eq m h arr :
  (Mem.array h < length m)%nat ->
  Mem.backing (<[Mem.array h := arr]> m) h = arr.
Proof.
  intros Hlt. unfold Mem.backing. by rewrite list_lookup_insert_eq.
Qed.

Lemma backing_write_at m a n arr :
  (a < length m)%nat ->
  Mem.backing (<[a := arr]> m) (Mem.mk_header a n) = arr.
Proof. apply (backing_write_eq m (Mem.mk_header a n)). Qed.

Lemma valid_alloc m arr h : Mem.valid m h -> Mem.valid (m ++ [arr]) h.
Proof.
  intros Hv. split.
  - destruct Hv as [Hlt _]. rewrite length_app. simpl. lia.
  - rewrite backing_alloc by done. apply Hv.
Qed.

Lemma valid_write_ne m a arr h :
  Mem.array h <> a -> Mem.valid m h -> Mem.valid (<[a := arr]> m) h.
Proof.
  intros Hne [Hlt Hlen]. split.
  - by rewrite length_insert.
  - by rewrite backing_write_ne.
Qed.

Lemma header_of_stack (cs : list Mem.canvas) c h :
  c ∈ cs -> Mem.Components c = Some h -> h ∈ omap Mem.Components cs.
Proof. intros Hc Hh. apply list_elem_of_omap. eauto. Qed.

(** Arrays named by valid headers lie below the next allocation. *)
Lemma fresh_array m (hs : list Mem.header) :
  Forall (Mem.valid m) hs -> length m ∉ map Mem.array hs.
Proof.
  intros Hv Hin. apply list_elem_of_fmap in Hin as (h & Hl & Hh).
  rewrite Forall_forall in Hv. destruct (Hv h Hh) as [Hlt _]. lia.
Qed.

Lemma agree_alloc m arr hs :
  Forall (Mem.valid m) hs -> Mem.agree hs m (m ++ [arr]).
Proof.
  intros Hv. eapply Forall_impl; [exact Hv|]. intros h Hh.
  split; [by apply backing_alloc | by apply valid_alloc].
Qed.

Lemma agree_write m a arr hs :
  a ∉ map Mem.array hs ->
  Forall (Mem.valid m) hs -> Mem.agree hs m (<[a := arr]> m).
Proof.
  intros Ha Hv. unfold Mem.agree. rewrite Forall_forall in *. intros h Hh.
  assert (Mem.array h <> a).
  { intros <-. apply Ha. apply list_elem_of_fmap. eauto. }
  split; [by apply backing_write_ne | apply valid_write_ne; auto].
Qed.

Lemma agree_valid hs m m' :
  Mem.agree hs m m' -> Forall (Mem.valid m') hs.
Proof. intros H. eapply Forall_impl; [exact H|]. by intros h [_ ?]. Qed.

Lemma agree_sub hs hs' m m' :
  hs' ⊆ hs -> Mem.agree hs m m' -> Mem.agree hs' m m'.
Proof.
  unfold Mem.agree. rewrite !Forall_forall. intros Hsub H h Hh. auto.
Qed.

Lemma agree_canvas hs m m' c :
  (forall h, Mem.Components c = Some h -> h ∈ hs) ->
  Mem.agree hs m m' -> Mem.abs_canvas m' c = Mem.abs_canvas m c.
Proof.
  intros Hc Ha. unfold Mem.abs_canvas, Mem.read.
  destruct (Mem.Components c) as [h|]; [|done].
  unfold Mem.agree in Ha. rewrite Forall_forall in Ha.
  destruct (Ha h (Hc h eq_refl)) as [-> _]. reflexivity.
Qed.

Lemma agree_stack m m' (cs : list Mem.canvas) :
  Mem.agree (omap Mem.Components cs) m m' ->
  map (Mem.abs_canvas m') cs = map (Mem.abs_canvas m) cs.
Proof.
  intros Ha. apply map_ext_in. intros c Hc%list_elem_of_In.
  eapply agree_canvas; [|exact Ha]. intros h Hh. by eapply header_of_stack.
Qed.

Lemma make_delivers m l hs :
  Forall (Mem.valid m) hs ->
  Mem.delivers hs m (Mem.make m l).2 (Mem.make m l).1 l.
Proof.
  intros Hv. unfold Mem.make, Mem.delivers; simpl.
  rewrite backing_fresh, take_ge by done.
  split; [done|]. split; [by apply agree_alloc|].
  eexists. split; [reflexivity|]. split; [|by apply fresh_array].
  split; simpl; [rewrite length_app; simpl; lia|].
  by rewrite backing_fresh.
Qed.

Section MemoryProperties.

Variable spare : nat -> nat.

Lemma append_delivers m s x hs :
  (forall h, s = Some h -> Mem.valid m h /\ Mem.array h ∉ map Mem.array hs) ->
  Forall (Mem.valid m) hs ->
  Mem.delivers hs m (Mem.append spare m s x).2 (Mem.append spare m s x).1
    (elems (Mem.read m s) ++ [x]).
Proof.
  intros Hs Hv.
  assert (Hgrown : forall l : list Component.t,
    Mem.delivers hs m
      (m ++ [l ++ x :: replicate (spare (length l)) Component_zero])
      (Some (Mem.mk_header (length m) (S (length l)))) (l ++ [x])).
  { intros l. unfold Mem.delivers; simpl. rewrite backing_fresh.
    split.
    { f_equal. rewrite take_app_ge by lia.
      by replace (S (length l) - length l)%nat with 1%nat by lia. }
    split; [by apply agree_alloc|].
    eexists. split; [reflexivity|]. split; [|by apply fresh_array].
    split; simpl; [rewrite length_app; simpl; lia|].
    rewrite backing_fresh, length_app. simpl. lia. }
  unfold Mem.append. destruct s as [h|]; [|apply (Hgrown [])].
  destruct (Hs h eq_refl) as [[Hlt Hlen] Hfresh]. simpl.
  destruct (Nat.ltb_spec (Mem.len h) (length (Mem.backing m h))) as [Hin|Hout].
  - unfold Mem.delivers; simpl. rewrite backing_write_at by done.
    split.
    { f_equal. erewrite take_S_r
        by (apply list_lookup_insert_eq; lia).
      by rewrite take_insert_ge by lia. }
    split; [by apply agree_write|].
    eexists. split; [reflexivity|]. split; [|done].
    split; simpl; [by rewrite length_insert|].
    rewrite backing_write_at, length_insert by done. lia.
  - apply (Hgrown (take (Mem.len h) (Mem.backing m h))).
Qed.

Lemma remove_delivers m h i hs :
  Mem.valid m h -> Mem.array h ∉ map Mem.array hs ->
  Forall (Mem.valid m) hs ->
  (i < Mem.len h)%nat ->
  let l := take (Mem.len h) (Mem.backing m h) in
  Mem.delivers hs m (Mem.remove m (Some h) i).2 (Mem.remove m (Some h) i).1
    (take i l ++ drop (S i) l).
Proof.
  intros [Hlt Hlen] Hfresh Hv Hi l. unfold Mem.delivers, Mem.remove; simpl.
  set (arr := Mem.backing m h) in *.
  set (arr' := take i arr ++ take (Mem.len h - S i) (drop (S i) arr)
               ++ drop (Mem.len h - 1) arr).
  assert (Hshow : take (Mem.len h - 1) arr' = take i l ++ drop (S i) l).
  { unfold arr', l. rewrite app_assoc, take_app_length'.
    - rewrite take_take, Nat.min_l by lia.
      rewrite take_drop_commute. do 3 f_equal. lia.
    - rewrite length_app, !length_take, length_drop. lia. }
  assert (Hsize : length arr' = length arr).
  { unfold arr'. rewrite !length_app, !length_take, !length_drop. lia. }
  rewrite backing_write_at by done.
  split; [by rewrite Hshow|]. split; [by apply agree_write|].
  eexists. split; [reflexivity|]. split; [|done].
  split; simpl; [by rewrite length_insert|].
  rewrite backing_write_at by done. lia.
Qed.

Lemma assign_delivers m h i f hs :
  Mem.valid m h -> Mem.array h ∉ map Mem.array hs ->
  Forall (Mem.valid m) hs ->
  (i < Mem.len h)%nat ->
  Mem.delivers hs m (Mem.assign m (Some h) i f) (Some h)
    (alter f i (take (Mem.len h) (Mem.backing m h))).
Proof.
  intros [Hlt Hlen] Hfresh Hv Hi. unfold Mem.delivers, Mem.assign; simpl.
  rewrite backing_write_eq by done.
  split; [by rewrite take_alter_lt|]. split; [by apply agree_write|].
  eexists. split; [reflexivity|]. split; [|done].
  split; simpl; [by rewrite length_insert|].
  rewrite backing_write_eq, length_alter by done. lia.
Qed.

End MemoryProperties.

(** *** The live slice and the snapshots *)

Lemma headers_live s h :
  Mem.Components (Mem.Canvas s) = Some h -> Mem.headers s = h :: Mem.kept s.
Proof. intros E. unfold Mem.headers, Mem.kept. simpl. by rewrite E. Qed.

Lemma headers_nil s :
  Mem.Components (Mem.Canvas s) = None -> Mem.headers s = Mem.kept s.
Proof. intros E. unfold Mem.headers, Mem.kept. simpl. by rewrite E. Qed.

Lemma separate_kept m s :
  Mem.separate m s -> NoDup (map Mem.array (Mem.kept s)) /\ Forall (Mem.valid m) (Mem.kept s).
Proof.
  intros [Hnd Hv]. destruct (Mem.Components (Mem.Canvas s)) as [h|] eqn:E.
  - rewrite (headers_live _ _ E) in Hnd, Hv. simpl in Hnd.
    apply NoDup_cons in Hnd as [_ Hnd]. apply Forall_cons in Hv as [_ Hv]. done.
  - by rewrite (headers_nil _ E) in Hnd, Hv.
Qed.

Lemma separate_live m s h :
  Mem.separate m s -> Mem.Components (Mem.Canvas s) = Some h ->
  Mem.valid m h /\ Mem.array h ∉ map Mem.array (Mem.kept s).
Proof.
  intros [Hnd Hv] E. rewrite (headers_live _ _ E) in Hnd, Hv. simpl in Hnd.
  apply NoDup_cons in Hnd as [Hfresh _]. apply Forall_cons in Hv as [Hh _]. done.
Qed.

Lemma agree_kept m m' s :
  Mem.agree (Mem.kept s) m m' ->
  map (Mem.abs_canvas m') (Mem.UndoStack s) = map (Mem.abs_canvas m) (Mem.UndoStack s) /\
  map (Mem.abs_canvas m') (Mem.RedoStack s) = map (Mem.abs_canvas m) (Mem.RedoStack s).
Proof.
  intros Ha. unfold Mem.kept in Ha. rewrite omap_app in Ha.
  split; apply agree_stack; eapply agree_sub; try exact Ha.
  - intros h Hh. apply elem_of_app. by left.
  - intros h Hh. apply elem_of_app. by right.
Qed.

(** An operation that delivers the new live slice leaves a separate
    session, which stands for the session by value with that slice. *)
Lemma live_delivers m m' s cs l :
  Mem.separate m s -> Mem.delivers (Mem.kept s) m m' cs l ->
  Mem.separate m' (Mem.with_Components cs s) /\
  Mem.abs m' (Mem.with_Components cs s)
  = set_components (mk_slice l) (Mem.abs m s).
Proof.
  intros Hsep (Hread & Ha & h & -> & Hh & Hfresh).
  destruct (separate_kept _ _ Hsep) as [Hnd Hv].
  destruct (agree_kept _ _ _ Ha) as [Hu Hr].
  split.
  - unfold Mem.separate.
    rewrite (headers_live (Mem.with_Components (Some h) s) h eq_refl).
    change (Mem.kept (Mem.with_Components (Some h) s)) with (Mem.kept s).
    split; [simpl; by apply NoDup_cons|].
    apply Forall_cons. split; [done | by eapply agree_valid].
  - unfold Mem.abs, set_components, Mem.abs_canvas at 1.
    change (Mem.Components (Mem.Canvas (Mem.with_Components (Some h) s)))
      with (Some h).
    rewrite Hread. simpl. by rewrite Hu, Hr.
Qed.

Lemma omap_cons_app {A B} (f : A -> option B) x l k :
  omap f (x :: l ++ k) = omap f (x :: l) ++ omap f k.
Proof. exact (omap_app f (x :: l) k). Qed.

Lemma headers_split s :
  Mem.headers s
  = omap Mem.Components (Mem.Canvas s :: Mem.UndoStack s)
    ++ omap Mem.Components (Mem.RedoStack s).
Proof.
  exact (omap_app Mem.Components (Mem.Canvas s :: Mem.UndoStack s)
           (Mem.RedoStack s)).
Qed.

Lemma saveState_refines m s :
  Mem.separate m s ->
  Mem.separate (Mem.saveState s m).2 (Mem.saveState s m).1 /\
  Mem.abs (Mem.saveState s m).2 (Mem.saveState s m).1 = saveState (Mem.abs m s).
Proof.
  intros [Hnd Hv].
  destruct (make_delivers m (Mem.live m s) (Mem.headers s) Hv)
    as (Hread & Ha & h' & Eh & Hh' & Hfresh).
  unfold Mem.saveState. unfold Mem.make in *. simpl in *.
  injection Eh as <-. simpl in Hfresh.
  set (m' := m ++ [Mem.live m s]) in *.
  set (h' := Mem.mk_header (length m) (length (Mem.live m s))) in *.
  rewrite headers_split in Hnd, Ha, Hfresh.
  rewrite fmap_app in Hnd, Hfresh.
  apply NoDup_app in Hnd as (Hnd & _ & _).
  apply not_elem_of_app in Hfresh as [Hfresh _].
  apply Forall_app in Ha as [Ha _].
  split.
  - unfold Mem.separate. rewrite headers_split.
    cbn [Mem.Canvas Mem.UndoStack Mem.RedoStack].
    rewrite omap_cons_app, app_nil_r.
    change (omap Mem.Components [?c]) with [h']. split.
    + rewrite fmap_app. apply NoDup_app. split; [done|]. split.
      * intros x Hx Hx'. apply list_elem_of_singleton in Hx'. by subst.
      * apply NoDup_singleton.
    + apply Forall_app. split; [by eapply agree_valid|]. by apply Forall_singleton.
  - unfold Mem.abs, saveState. simpl. f_equal.
    + eapply agree_canvas; [|exact Ha]. intros h Hh.
      apply list_elem_of_omap. exists (Mem.Canvas s). split; [left|done].
    + rewrite map_app. simpl. f_equal.
      * apply agree_stack. eapply agree_sub; [|exact Ha].
        intros h Hh. simpl. destruct (Mem.Components (Mem.Canvas s)); [by right|done].
      * unfold Mem.abs_canvas at 1. simpl. by rewrite Hread.
Qed.

Lemma found_in_live m s id i :
  Mem.separate m s -> scan id (Mem.live m s) = Some i ->
  exists h, Mem.Components (Mem.Canvas s) = Some h /\ (i < Mem.len h)%nat /\
    Mem.live m s = take (Mem.len h) (Mem.backing m h).
Proof.
  intros Hsep Hscan. apply scan_Some in Hscan as (c & Hc & _).
  apply lookup_lt_Some in Hc. unfold Mem.live, Mem.read in *.
  destruct (Mem.Components (Mem.Canvas s)) as [h|]; simpl in *; [|lia].
  exists h. rewrite length_take in Hc. split; [done|]. split; [lia | done].
Qed.

Section SessionProperties.

Variable spare : nat -> nat.

Lemma append_refines m s v x :
  Mem.holds m s v ->
  Mem.holds (Mem.append spare m (Mem.Components (Mem.Canvas s)) x).2
    (Mem.with_Components
       (Mem.append spare m (Mem.Components (Mem.Canvas s)) x).1 s)
    (set_components (append (Canvas.Components (Session.Canvas v)) x) v).
Proof.
  intros [Hsep <-]. apply live_delivers; [done|].
  apply append_delivers.
  - intros h Hh. by apply separate_live.
  - by apply separate_kept.
Qed.

Lemma remove_refines m s v i id :
  Mem.holds m s v -> scan id (Mem.live m s) = Some i ->
  Mem.holds (Mem.remove m (Mem.Components (Mem.Canvas s)) i).2
    (Mem.with_Components (Mem.remove m (Mem.Components (Mem.Canvas s)) i).1 s)
    (set_components
       (mk_slice (take i (components v) ++ drop (S i) (components v))) v).
Proof.
  intros [Hsep <-] Hscan.
  destruct (found_in_live _ _ _ _ Hsep Hscan) as (h & Eh & Hi & Hl).
  rewrite Eh. apply live_delivers; [done|].
  change (components (Mem.abs m s)) with (Mem.live m s). rewrite Hl.
  destruct (separate_live _ _ _ Hsep Eh) as [Hh Hfresh].
  apply remove_delivers; auto. by apply separate_kept.
Qed.

Lemma assign_refines m s v i id f :
  Mem.holds m s v -> scan id (Mem.live m s) = Some i ->
  Mem.holds (Mem.assign m (Mem.Components (Mem.Canvas s)) i f) s
    (set_components (mk_slice (alter f i (components v))) v).
Proof.
  intros [Hsep <-] Hscan.
  destruct (found_in_live _ _ _ _ Hsep Hscan) as (h & Eh & Hi & Hl).
  destruct (separate_live _ _ _ Hsep Eh) as [Hh Hfresh].
  destruct (separate_kept _ _ Hsep) as [_ Hv].
  pose proof (live_delivers _ _ _ _ _ Hsep
                (assign_delivers m h i f _ Hh Hfresh Hv Hi)) as H.
  replace (Mem.with_Components (Some h) s) with s in H.
  2: { destruct s as [[] ? ? ?]. simpl in Eh. by subst. }
  rewrite Eh. change (components (Mem.abs m s)) with (Mem.live m s).
  by rewrite Hl.
Qed.

Lemma addComponent_refines m s v params w :
  Mem.holds m s v ->
  Mem.answers (Mem.addComponent spare params s m w) (addComponent params v w).
Proof.
  intros H. unfold Mem.addComponent, addComponent.
  destruct (Unmarshal_AddComponentParams params) as [err|p]; [done|].
  destruct (NewComponent _ _ w) as [comp w'].
  match goal with
  | |- context [Mem.append spare m _ ?c] => generalize c
  end.
  intros x. pose proof (append_refines m s v x H) as Hx.
  destruct (Mem.append spare m _ x) as [cs m']. done.
Qed.

Lemma removeComponent_refines m s v params w :
  Mem.holds m s v ->
  Mem.answers (Mem.pure_step (Mem.removeComponent params s m) w)
    (pure_step (removeComponent params v) w).
Proof.
  intros H. unfold Mem.removeComponent, removeComponent.
  destruct (Unmarshal_ID params) as [err|id]; [done|].
  assert (E : components v = Mem.live m s) by (by destruct H as [_ <-]).
  rewrite E. destruct (scan id (Mem.live m s)) as [i|] eqn:Hscan; [|done].
  rewrite <- E. pose proof (remove_refines m s v i id H Hscan) as Hx.
  destruct (Mem.remove m _ i) as [cs m']. done.
Qed.

Lemma update_in_place_refines m s v id f w :
  Mem.holds m s v ->
  Mem.answers (Mem.pure_step (Mem.update_in_place id f s m) w)
    (pure_step (update_in_place id f v) w).
Proof.
  intros H. unfold Mem.update_in_place, update_in_place.
  assert (E : components v = Mem.live m s) by (by destruct H as [_ <-]).
  rewrite E. destruct (scan id (Mem.live m s)) as [i|] eqn:Hscan; [|done].
  rewrite <- E. pose proof (assign_refines m s v i id f H Hscan) as Hx. done.
Qed.

Lemma dispatch_refines m s v cmd w :
  Mem.holds m s v ->
  Mem.answers (Mem.dispatch spare cmd s m w) (dispatch cmd v w).
Proof.
  intros H. unfold Mem.dispatch, dispatch.
  repeat case_match; try done.
  - by apply addComponent_refines.
  - by apply removeComponent_refines.
  - unfold Mem.moveComponent, moveComponent.
    destruct (Unmarshal_MoveComponentParams _); [done|].
    by apply update_in_place_refines.
  - unfold Mem.resizeComponent, resizeComponent.
    destruct (Unmarshal_ResizeComponentParams _); [done|].
    by apply update_in_place_refines.
  - unfold Mem.styleComponent, styleComponent.
    destruct (Unmarshal_StyleComponentParams _); [done|].
    by apply update_in_place_refines.
  - unfold Mem.setText, setText.
    destruct (Unmarshal_SetTextParams _); [done|].
    by apply update_in_place_refines.
Qed.

Lemma Execute_refines m s v cmd w :
  Mem.holds m s v ->
  Mem.answers (Mem.Execute spare cmd s m w) (Execute cmd v w).
Proof.
  intros [Hsep <-]. unfold Mem.Execute, Execute.
  pose proof (saveState_refines m s Hsep) as [Hsep' Habs].
  destruct (Mem.saveState s m) as [s' m']. simpl in *.
  apply dispatch_refines. by split.
Qed.

End SessionProperties.

(** *** Undo and redo move headers *)

Lemma rotate {A} (top c : A) l r :
  top :: l ++ r ++ [c] ≡ₚ c :: (l ++ [top]) ++ r.
Proof.
  rewrite <- (assoc_L (++) l [top] r). simpl.
  rewrite <- (Permutation_middle l r top).
  rewrite <- (Permutation_middle r [] c), app_nil_r.
  rewrite <- (Permutation_middle l r c). apply perm_swap.
Qed.

Lemma separate_perm m s s' :
  Mem.Canvas s' :: Mem.UndoStack s' ++ Mem.RedoStack s'
  ≡ₚ Mem.Canvas s :: Mem.UndoStack s ++ Mem.RedoStack s ->
  Mem.separate m s -> Mem.separate m s'.
Proof.
  intros Hp. unfold Mem.separate, Mem.headers. by rewrite Hp.
Qed.

Lemma Undo_refines m s v :
  Mem.holds m s v ->
  Mem.holds m (Mem.Undo s).2 (Undo v).2 /\ (Mem.Undo s).1 = (Undo v).1.
Proof.
  intros [Hsep <-]. unfold Mem.Undo, Undo. simpl.
  rewrite fmap_last, length_fmap.
  destruct (last (Mem.UndoStack s)) as [top|] eqn:E; simpl; [|done].
  split; [|done]. split.
  - apply last_Some in E as [l E].
    eapply separate_perm; [|exact Hsep]. simpl. rewrite E, pop_push.
    apply rotate.
  - unfold Mem.abs. simpl. by rewrite fmap_take, fmap_app.
Qed.

Lemma Redo_refines m s v :
  Mem.holds m s v ->
  Mem.holds m (Mem.Redo s).2 (Redo v).2 /\ (Mem.Redo s).1 = (Redo v).1.
Proof.
  intros [Hsep <-]. unfold Mem.Redo, Redo. simpl.
  rewrite fmap_last, length_fmap.
  destruct (last (Mem.RedoStack s)) as [top|] eqn:E; simpl; [|done].
  split; [|done]. split.
  - apply last_Some in E as [l E].
    eapply separate_perm; [|exact Hsep]. simpl. rewrite E, pop_push.
    symmetry. apply rotate.
  - unfold Mem.abs. simpl. by rewrite fmap_take, fmap_app.
Qed.

Lemma SetTheme_refines m s v theme :
  Mem.holds m s v -> Mem.holds m (Mem.SetTheme theme s) (SetTheme theme v).
Proof. by intros [Hsep <-]. Qed.

Lemma Resize_refines m s v width height :
  Mem.holds m s v ->
  Mem.holds m (Mem.Resize width height s) (Resize width height v).
Proof. by intros [Hsep <-]. Qed.

Lemma Clear_refines m s v :
  Mem.holds m s v ->
  Mem.holds (Mem.Clear s m).2 (Mem.Clear s m).1 (Clear v).
Proof.
  intros [Hsep <-]. unfold Mem.Clear, Clear.
  pose proof (saveState_refines m s Hsep) as [Hsep' <-].
  destruct (Mem.saveState s m) as [s' m']. simpl in *.
  apply (live_delivers m' (Mem.make m' []).2 s' (Mem.make m' []).1 []);
    [done|].
  apply make_delivers. by apply separate_kept.
Qed.

Section RunProperties.

Variable spare : nat -> nat.

Lemma AddList_refines m s v name items x y width height w :
  Mem.holds m s v ->
  let r := Mem.AddList spare name items x y width height s m w in
  let r' := AddList name items x y width height (API.mk v) w in
  Mem.holds r.1.2 r.1.1 (API.session r'.1.2) /\ r.2 = r'.2.
Proof.
  intros H. unfold Mem.AddList, AddList.
  destruct (NewComponent _ _ w) as [comp w'].
  match goal with
  | |- context [Mem.append spare m _ ?c] => generalize c
  end.
  intros c. pose proof (append_refines spare m s v c H) as Hc.
  destruct (Mem.append spare m _ c) as [cs m']. done.
Qed.

Lemma AddProgress_refines m s v name value x y width w :
  Mem.holds m s v ->
  let r := Mem.AddProgress spare name value x y width s m w in
  let r' := AddProgress name value x y width (API.mk v) w in
  Mem.holds r.1.2 r.1.1 (API.session r'.1.2) /\ r.2 = r'.2.
Proof.
  intros H. unfold Mem.AddProgress, AddProgress.
  destruct (NewComponent _ _ w) as [comp w'].
  match goal with
  | |- context [Mem.append spare m _ ?c] => generalize c
  end.
  intros c. pose proof (append_refines spare m s v c H) as Hc.
  destruct (Mem.append spare m _ c) as [cs m']. done.
Qed.

Lemma step_refines op m s v w :
  Mem.holds m s v ->
  Mem.holds (Mem.step spare op s m w).1.2 (Mem.step spare op s m w).1.1
    (step op v w).1 /\
  (Mem.step spare op s m w).2 = (step op v w).2.
Proof.
  intros H. destruct op as [cmd| | | | | | |]; simpl.
  - destruct (Execute_refines spare m s v cmd w H) as (Hh & _ & Hw).
    by destruct (Mem.Execute spare cmd s m w) as [[[e s'] m'] w'].
  - split; [|done]. by apply Undo_refines.
  - split; [|done]. by apply Redo_refines.
  - split; [|done]. by apply Clear_refines.
  - split; [|done]. by apply SetTheme_refines.
  - split; [|done]. by apply Resize_refines.
  - by apply AddList_refines.
  - by apply AddProgress_refines.
Qed.

Lemma run_refines ops m s v w :
  Mem.holds m s v ->
  Mem.holds (Mem.run spare ops s m w).1.2 (Mem.run spare ops s m w).1.1
    (run ops v w).1 /\
  (Mem.run spare ops s m w).2 = (run ops v w).2.
Proof.
  revert m s v w. induction ops as [|op ops IH]; intros m s v w H; [done|].
  simpl. destruct (step_refines op m s v w H) as [Hh Hw].
  destruct (Mem.step spare op s m w) as [[s1 m1] w1].
  destruct (step op v w) as [v1 w1']. simpl in *. subst w1'.
  by apply IH.
Qed.

Lemma NewSession_holds name width height m :
  Mem.holds (Mem.NewSession name width height m).2
    (Mem.NewSession name width height m).1 (NewSession name width height).
Proof.
  unfold Mem.NewSession, Mem.make, Mem.holds, Mem.separate; simpl.
  split; [split|].
  - apply NoDup_singleton.
  - apply Forall_singleton. split; simpl; [rewrite length_app; simpl; lia|lia].
  - unfold Mem.abs, Mem.abs_canvas, NewSession; simpl.
    by rewrite backing_fresh.
Qed.

(** The session by value is the session the program keeps: whatever the
    memory held before, and however much room [append] leaves when it
    moves a slice, a run of operations on a new session leaves in memory
    the canvas, the history and the two stacks that the run on the
    session by value computes, with the same ids drawn. *)
Theorem session_by_value ops name width height m w :
  let r := Mem.run spare ops (Mem.NewSession name width height m).1
             (Mem.NewSession name width height m).2 w in
  Mem.separate r.1.2 r.1.1 /\
  Mem.abs r.1.2 r.1.1 = (run ops (NewSession name width height) w).1 /\
  r.2 = (run ops (NewSession name width height) w).2.
Proof.
  intros r.
  destruct (run_refines ops _ _ _ w (NewSession_holds name width height m))
    as [[Hsep Habs] Hw].
  done.
Qed.

End RunProperties.

(** ** Undoing what took a snapshot *)

(** Whatever the command and whether it succeeds or fails, an [Undo] right
    after [Execute] returns true and brings back a canvas with the fields
    and the components [Execute] found, on the undo stack [Execute] found;
    the canvas [Execute] left is the one entry of the redo stack, and a
    [Redo] gives back the session as [Execute] left it. *)
Theorem execute_then_undo cmd s w :
  (Undo (Execute cmd s w).1.2).1 = true /\
  same_content (Session.Canvas (Undo (Execute cmd s w).1.2).2)
    (Session.Canvas s) /\
  Session.UndoStack (Undo (Execute cmd s w).1.2).2 = Session.UndoStack s /\
  Session.RedoStack (Undo (Execute cmd s w).1.2).2
  = [Session.Canvas (Execute cmd s w).1.2] /\
  Redo (Undo (Execute cmd s w).1.2).2 = (true, (Execute cmd s w).1.2).
Proof.
  unfold Execute.
  destruct (dispatch_frame cmd (saveState s) w) as (Hh & Hu & Hr).
  destruct ((dispatch cmd (saveState s) w).1.2) as [c1 h1 u1 r1] eqn:E.
  simpl in Hh, Hu, Hr. subst h1 u1 r1.
  rewrite Undo_after_push. simpl.
  split; [done|]. split; [apply snapshot_same_content|].
  split; [done|]. split; [done|].
  unfold Redo; simpl. reflexivity.
Qed.

(** [Clear] leaves an empty, non-nil component list and an empty redo
    stack; an [Undo] right after returns true and brings back a canvas
    with the fields and the components [Clear] found, on the undo stack
    [Clear] found. *)
Theorem clear_then_undo s :
  ListComponents (Clear s) = mk_slice [] /\
  Session.RedoStack (Clear s) = [] /\
  (Undo (Clear s)).1 = true /\
  same_content (Session.Canvas (Undo (Clear s)).2) (Session.Canvas s) /\
  Session.UndoStack (Undo (Clear s)).2 = Session.UndoStack s /\
  Redo (Undo (Clear s)).2 = (true, Clear s).
Proof.
  destruct s as [c h u r]. unfold Clear, saveState, set_components; simpl.
  unfold Session.with_Canvas; simpl. rewrite Undo_after_push. simpl.
  split; [done|]. split; [done|]. split; [done|].
  split; [apply snapshot_same_content|]. split; [done|].
  reflexivity.
Qed.

(** ** The convenience API *)

(** *** The payloads the API marshals, as [Execute] reads them *)

Lemma Unmarshal_Marshal_ID id :
  Unmarshal_ID (Marshal_ID id) = inr (toValidUTF8 id).
Proof. reflexivity. Qed.

Lemma Unmarshal_Marshal_Move id x y :
  is_int x = true -> is_int y = true ->
  Unmarshal_MoveComponentParams
    (Marshal_MoveComponentParams (MoveComponentParams.mk id x y))
  = inr (MoveComponentParams.mk (toValidUTF8 id) x y).
Proof.
  intros Hx Hy.
  unfold Unmarshal_MoveComponentParams, Marshal_MoveComponentParams,
    Unmarshal, into_struct; simpl.
  by repeat (rewrite ParseInt_itoa by done; simpl).
Qed.

Lemma Unmarshal_Marshal_Resize id width height :
  is_int width = true -> is_int height = true ->
  Unmarshal_ResizeComponentParams
    (Marshal_ResizeComponentParams (ResizeComponentParams.mk id width height))
  = inr (ResizeComponentParams.mk (toValidUTF8 id) width height).
Proof.
  intros Hx Hy.
  unfold Unmarshal_ResizeComponentParams, Marshal_ResizeComponentParams,
    Unmarshal, into_struct; simpl.
  by repeat (rewrite ParseInt_itoa by done; simpl).
Qed.

Lemma Unmarshal_Marshal_SetText id text :
  Unmarshal_SetTextParams (Marshal_SetTextParams (SetTextParams.mk id text))
  = inr (SetTextParams.mk (toValidUTF8 id) (toValidUTF8 text)).
Proof. reflexivity. Qed.

Lemma Unmarshal_Marshal_Add ctype name x y width height text :
  is_int x = true -> is_int y = true ->
  is_int width = true -> is_int height = true ->
  Unmarshal_AddComponentParams
    (Marshal_AddComponentParams
       (AddComponentParams.mk ctype name x y width height text None))
  = inr (AddComponentParams.mk (toValidUTF8 ctype) (toValidUTF8 name)
           x y width height (toValidUTF8 text) None).
Proof.
  intros Hx Hy Hw Hh.
  unfold Unmarshal_AddComponentParams, Marshal_AddComponentParams,
    Unmarshal, into_struct; simpl.
  repeat (rewrite ParseInt_itoa by done; simpl).
  destruct text as [|b text]; reflexivity.
Qed.

(** *** Finding a component *)

Lemma scan_first id comps i c :
  comps !! i = Some c -> Component.ID c = id ->
  (forall j c', comps !! j = Some c' -> (j < i)%nat -> Component.ID c' <> id) ->
  scan id comps = Some i.
Proof.
  intros Hc Hid Hfirst. unfold scan.
  assert (E : list_find (λ comp, Component.ID comp = id) comps = Some (i, c)).
  { apply list_find_Some. eauto. }
  by rewrite E.
Qed.

Lemma scan_present id comps :
  id ∈ map Component.ID comps -> exists i, scan id comps = Some i.
Proof.
  intros Hin. apply list_elem_of_fmap in Hin as (c & Hid & Hc).
  destruct (list_find_elem_of (λ comp, Component.ID comp = id) comps c Hc)
    as [[i c'] E]; [done|].
  exists i. unfold scan. by rewrite E.
Qed.

Lemma GetComponent_Some id s c :
  GetComponent id s = Some c ->
  exists i, scan id (components s) = Some i /\ components s !! i = Some c.
Proof.
  unfold GetComponent. destruct (scan id (components s)) as [i|]; [|done].
  simpl. eauto.
Qed.

Lemma filter_all {A} (P : A -> Prop) `{forall x, Decision (P x)} l :
  Forall P l -> filter P l = l.
Proof.
  induction 1 as [|x l Hx _ IH]; [done|].
  by rewrite filter_cons_True, IH.
Qed.

(** With distinct ids, taking out the component at [i] leaves the
    components that have another id. *)
Lemma remove_NoDup comps i c :
  NoDup (map Component.ID comps) -> comps !! i = Some c ->
  take i comps ++ drop (S i) comps
  = filter (λ c', Component.ID c' <> Component.ID c) comps.
Proof.
  intros Hnd Hc.
  rewrite <- (take_drop_middle comps i c Hc) in Hnd at 1.
  rewrite <- (take_drop_middle comps i c Hc) at 3.
  rewrite fmap_app, fmap_cons in Hnd.
  apply NoDup_app in Hnd as (_ & Hl & Hr). apply NoDup_cons in Hr as [Hr _].
  rewrite filter_app, filter_cons_False by (intros H; by apply H).
  f_equal; symmetry; apply filter_all, Forall_forall; intros c' Hc' E.
  - apply (Hl (Component.ID c')); [by apply list_elem_of_fmap_2|].
    rewrite E. left.
  - apply Hr. rewrite <- E. by apply list_elem_of_fmap_2.
Qed.

(** *** Delete *)

(** [API.Delete] looks for the id as [json.Marshal] writes it, that is
    with every byte that is not UTF-8 replaced by U+FFFD.  When a
    component has that id, the call pushes a snapshot, takes the first
    such component out of the list and returns nil; the components before
    and after it stay, in order.  When the ids of the canvas are distinct,
    what is left is the components with another id. *)
Theorem Delete_removes id a w :
  toValidUTF8 id ∈ map Component.ID (components (API.session a)) ->
  exists i c,
    components (API.session a) !! i = Some c /\
    Component.ID c = toValidUTF8 id /\
    (forall j c', components (API.session a) !! j = Some c' -> (j < i)%nat ->
                  Component.ID c' <> toValidUTF8 id) /\
    API_Delete id a w
    = (None,
       API.mk (set_components
                 (mk_slice (take i (components (API.session a))
                            ++ drop (S i) (components (API.session a))))
                 (saveState (API.session a))),
       w) /\
    (NoDup (map Component.ID (components (API.session a))) ->
     take i (components (API.session a))
     ++ drop (S i) (components (API.session a))
     = filter (λ c', Component.ID c' <> toValidUTF8 id)
         (components (API.session a))).
Proof.
  intros Hin. destruct (scan_present _ _ Hin) as [i Hscan].
  destruct (scan_Some _ _ _ Hscan) as (c & Hc & Hid & Hfirst).
  exists i, c. split; [done|]. split; [done|]. split; [done|]. split.
  - unfold API_Delete, Execute, dispatch; simpl.
    unfold removeComponent. rewrite Unmarshal_Marshal_ID.
    rewrite saveState_components, Hscan. reflexivity.
  - intros Hnd. rewrite <- Hid. by apply remove_NoDup.
Qed.

Lemma Delete_removes_witness :
  (API_Delete "comp_04a40001deadbeef"
     (AddBox "header" "Hi" 0 0 80 3 (NewAPI "Demo") fresh_world).1.2
     fresh_world).1.1 = None.
Proof.
  destruct (Delete_removes "comp_04a40001deadbeef"
              (AddBox "header" "Hi" 0 0 80 3 (NewAPI "Demo") fresh_world).1.2
              fresh_world) as (i & c & _ & _ & _ & E & _).
  - vm_compute. left.
  - by rewrite E.
Defined.

(** *** Move, Resize and SetText *)

Lemma update_found id f s i :
  scan id (components s) = Some i ->
  update_in_place id f (saveState s)
  = (None, set_components (mk_slice (alter f i (components s))) (saveState s)).
Proof.
  intros Hscan. unfold update_in_place.
  by rewrite saveState_components, Hscan.
Qed.

(** [API.Move], [API.Resize] and [API.SetText] look for the id as
    [json.Marshal] writes it.  When a component has that id, each call
    pushes a snapshot, assigns the position, the size or the text (as
    [json.Marshal] writes it) of the first such component, leaves every
    other field and every other component alone, and returns nil. *)
Theorem API_updates_first id x y width height text a w :
  is_int x = true -> is_int y = true ->
  is_int width = true -> is_int height = true ->
  toValidUTF8 id ∈ map Component.ID (components (API.session a)) ->
  exists i c,
    components (API.session a) !! i = Some c /\
    Component.ID c = toValidUTF8 id /\
    (forall j c', components (API.session a) !! j = Some c' -> (j < i)%nat ->
                  Component.ID c' <> toValidUTF8 id) /\
    API_Move id x y a w
    = (None,
       API.mk (set_components
                 (mk_slice (alter (Component.with_Position (Position.mk x y))
                              i (components (API.session a))))
                 (saveState (API.session a))),
       w) /\
    API_Resize id width height a w
    = (None,
       API.mk (set_components
                 (mk_slice (alter (Component.with_Size (Size.mk width height))
                              i (components (API.session a))))
                 (saveState (API.session a))),
       w) /\
    API_SetText id text a w
    = (None,
       API.mk (set_components
                 (mk_slice (alter (Component.with_Text (toValidUTF8 text))
                              i (components (API.session a))))
                 (saveState (API.session a))),
       w).
Proof.
  intros Hx Hy Hw Hh Hin. destruct (scan_present _ _ Hin) as [i Hscan].
  destruct (scan_Some _ _ _ Hscan) as (c & Hc & Hid & Hfirst).
  exists i, c. split; [done|]. split; [done|]. split; [done|].
  split; [|split].
  - unfold API_Move, Execute, dispatch; simpl. unfold moveComponent.
    rewrite Unmarshal_Marshal_Move by done. simpl.
    by rewrite (update_found _ _ _ _ Hscan).
  - unfold API_Resize, Execute, dispatch; simpl. unfold resizeComponent.
    rewrite Unmarshal_Marshal_Resize by done. simpl.
    by rewrite (update_found _ _ _ _ Hscan).
  - unfold API_SetText, Execute, dispatch; simpl. unfold setText.
    rewrite Unmarshal_Marshal_SetText. simpl.
    by rewrite (update_found _ _ _ _ Hscan).
Qed.

Lemma API_updates_first_witness :
  (API_Move "comp_04a40001deadbeef" 5 7
     (AddBox "header" "Hi" 0 0 80 3 (NewAPI "Demo") fresh_world).1.2
     fresh_world).1.1 = None.
Proof.
  destruct (API_updates_first "comp_04a40001deadbeef" 5 7 40 10 "Bye"
              (AddBox "header" "Hi" 0 0 80 3 (NewAPI "Demo") fresh_world).1.2
              fresh_world) as (i & c & _ & _ & _ & E & _).
  - reflexivity.
  - reflexivity.
  - reflexivity.
  - reflexivity.
  - vm_compute. left.
  - by rewrite E.
Defined.

(** *** Looking up what was changed *)

Lemma scan_cons id c comps :
  scan id (c :: comps)
  = if decide (Component.ID c = id) then Some 0%nat else S <$> scan id comps.
Proof.
  unfold scan. simpl. destruct (decide (Component.ID c = id)); [done|].
  by destruct (list_find _ comps) as [[i c']|].
Qed.

(** The scan sees the ids only. *)
Lemma scan_ids id comps comps' :
  map Component.ID comps = map Component.ID comps' ->
  scan id comps = scan id comps'.
Proof.
  revert comps'. induction comps as [|c comps IH]; intros [|c' comps'] E;
    try done.
  injection E as Eh Et. rewrite !scan_cons, Eh, (IH comps' Et). done.
Qed.

Lemma alter_ids (f : Component.t -> Component.t) i comps :
  (forall c, Component.ID (f c) = Component.ID c) ->
  map Component.ID (alter f i comps) = map Component.ID comps.
Proof.
  intros Hf. revert i. induction comps as [|c comps IH]; intros [|i]; simpl;
    try done.
  - by rewrite Hf.
  - f_equal. apply IH.
Qed.

(** After [API.Move] on a component that [GetComponent] finds,
    [GetComponent] finds it moved and otherwise as it was; what it
    answers for any other id has not changed, nor has the list of ids. *)
Theorem Move_then_GetComponent id x y a w c :
  is_int x = true -> is_int y = true ->
  GetComponent (toValidUTF8 id) (API.session a) = Some c ->
  (API_Move id x y a w).1.1 = None /\
  GetComponent (toValidUTF8 id) (API.session (API_Move id x y a w).1.2)
  = Some (Component.with_Position (Position.mk x y) c) /\
  (forall other, other <> toValidUTF8 id ->
     GetComponent other (API.session (API_Move id x y a w).1.2)
     = GetComponent other (API.session a)) /\
  map Component.ID (components (API.session (API_Move id x y a w).1.2))
  = map Component.ID (components (API.session a)).
Proof.
  intros Hx Hy Hget.
  destruct (GetComponent_Some _ _ _ Hget) as (i & Hscan & Hc).
  assert (E : API_Move id x y a w
              = (None,
                 API.mk (set_components
                   (mk_slice (alter (Component.with_Position (Position.mk x y))
                                i (components (API.session a))))
                   (saveState (API.session a))),
                 w)).
  { unfold API_Move, Execute, dispatch; simpl. unfold moveComponent.
    rewrite Unmarshal_Marshal_Move by done. simpl.
    by rewrite (update_found _ _ _ _ Hscan). }
  rewrite E. simpl.
  assert (Hids : map Component.ID
                   (alter (Component.with_Position (Position.mk x y)) i
                      (components (API.session a)))
                 = map Component.ID (components (API.session a)))
    by (by apply alter_ids).
  split; [done|]. split; [|split; [|done]].
  - unfold GetComponent, components; simpl.
    rewrite (scan_ids _ _ _ Hids).
    change (elems (Canvas.Components (Session.Canvas (API.session a))))
      with (components (API.session a)).
    rewrite Hscan. simpl. by rewrite list_lookup_alter_eq, Hc.
  - intros other Hother. unfold GetComponent, components; simpl.
    rewrite (scan_ids _ _ _ Hids).
    change (elems (Canvas.Components (Session.Canvas (API.session a))))
      with (components (API.session a)).
    destruct (scan other (components (API.session a))) as [j|] eqn:Ej;
      [|done].
    simpl. rewrite list_lookup_alter_ne; [done|].
    intros <-. apply scan_Some in Ej as (c' & Hc' & Hid' & _).
    apply scan_Some in Hscan as (c'' & Hc'' & Hid'' & _). congruence.
Qed.

Lemma Move_then_GetComponent_witness :
  Component.Position <$>
    GetComponent "comp_04a40001deadbeef"
      (API.session
         (API_Move "comp_04a40001deadbeef" 5 7
            (AddBox "header" "Hi" 0 0 80 3 (NewAPI "Demo") fresh_world).1.2
            fresh_world).1.2)
  = Some (Position.mk 5 7).
Proof.
  destruct (Move_then_GetComponent "comp_04a40001deadbeef" 5 7
              (AddBox "header" "Hi" 0 0 80 3 (NewAPI "Demo") fresh_world).1.2
              fresh_world
              (Component.with_Text "Hi"
                 (Component.with_Size (Size.mk 80 3)
                    (plain "comp_04a40001deadbeef" TypeBox "header"))))
    as (_ & E & _).
  - reflexivity.
  - reflexivity.
  - reflexivity.
  - change (toValidUTF8 "comp_04a40001deadbeef")
      with "comp_04a40001deadbeef" in E.
    by rewrite E.
Defined.

(** *** AddBox, AddText and AddButton *)

Lemma add_and_report_adds ctype name x y width height text a w :
  is_int x = true -> is_int y = true ->
  is_int width = true -> is_int height = true ->
  toValidUTF8 ctype = ctype ->
  add_and_report
    (AddComponentParams.mk ctype name x y width height text None) a w
  = ((generateID w).1,
     API.mk (set_components
               (append (Canvas.Components (Session.Canvas (API.session a)))
                  (Component.with_Text (toValidUTF8 text)
                     (Component.with_Size
                        (Size.mk (if 0 <? width then width else 20)
                                 (if 0 <? height then height else 3))
                        (Component.with_Position (Position.mk x y)
                           (plain (generateID w).1 ctype
                              (toValidUTF8 name))))))
               (saveState (API.session a))),
     (generateID w).2).
Proof.
  intros Hx Hy Hw Hh Hty.
  unfold add_and_report, Execute, dispatch; cbn [Command.Type_ Command.Params].
  change (String.eqb CmdAddComponent CmdAddComponent) with true. cbv iota.
  unfold addComponent. rewrite Unmarshal_Marshal_Add by done.
  unfold NewComponent. destruct (generateID w) as [id w'].
  cbn [AddComponentParams.Type_ AddComponentParams.Name AddComponentParams.X
       AddComponentParams.Y AddComponentParams.Width AddComponentParams.Height
       AddComponentParams.Text AddComponentParams.Style fst snd].
  rewrite Hty.
  unfold ListComponents, set_components, append; simpl.
  rewrite last_snoc. simpl.
  by destruct (0 <? width), (0 <? height).
Qed.

(** [AddBox], [AddText] and [AddButton] always add: each pushes a
    snapshot, appends one component and returns its id, the id
    [generateID] draws.  The component has the given type and position,
    the name and the text as [json.Marshal] writes them, and the defaults
    of [NewComponent] elsewhere; a width or a height that is not positive
    leaves the default, 20 or 3, so that a text is 20 by 3, and a button is
    as wide as its label has bytes, plus 6, and 3 high. *)
Theorem Add_calls_add name text x y width height a w :
  is_int x = true -> is_int y = true ->
  is_int width = true -> is_int height = true ->
  is_int (Z.of_nat (String.length text) + 6) = true ->
  let added ctype wd ht :=
    Component.with_Text (toValidUTF8 text)
      (Component.with_Size (Size.mk wd ht)
         (Component.with_Position (Position.mk x y)
            (plain (generateID w).1 ctype (toValidUTF8 name)))) in
  let after comp :=
    ((generateID w).1,
     API.mk (set_components
               (append (Canvas.Components (Session.Canvas (API.session a)))
                  comp)
               (saveState (API.session a))),
     (generateID w).2) in
  AddBox name text x y width height a w
  = after (added TypeBox (if 0 <? width then width else 20)
                         (if 0 <? height then height else 3)) /\
  AddText name text x y a w = after (added TypeText 20 3) /\
  AddButton name text x y a w
  = after (added TypeButton (Z.of_nat (String.length text) + 6) 3).
Proof.
  intros Hx Hy Hw Hh Hl. cbv zeta.
  unfold AddBox, AddText, AddButton.
  rewrite !add_and_report_adds by done.
  split; [done|]. split; [done|].
  replace (0 <? Z.of_nat (String.length text) + 6) with true
    by (symmetry; apply Z.ltb_lt; lia).
  done.
Qed.

Lemma Add_calls_add_witness :
  (AddText "title" "Hello" 2 1 (NewAPI "Demo") fresh_world).1.1
  = "comp_04a40001deadbeef".
Proof.
  destruct (Add_calls_add "title" "Hello" 2 1 40 10 (NewAPI "Demo")
              fresh_world) as (_ & E & _).
  - reflexivity.
  - reflexivity.
  - reflexivity.
  - reflexivity.
  - reflexivity.
  - by rewrite E.
Defined.

(** ** Distinct ids, whatever the calls *)

Lemma well_drawn_mono c0 n n' c :
  n <= n' -> well_drawn c0 n c -> well_drawn c0 n' c.
Proof.
  intros Hn [Hnd Hd]. split; [done|].
  eapply Forall_impl; [exact Hd|]. intros id (k & Hk & E).
  exists k. split; [lia|done].
Qed.

Lemma well_drawn_same c0 n c c' :
  canvas_ids c' = canvas_ids c -> well_drawn c0 n c -> well_drawn c0 n c'.
Proof. unfold well_drawn. by intros ->. Qed.

Lemma well_drawn_sub c0 n c c' :
  canvas_ids c' `sublist_of` canvas_ids c ->
  well_drawn c0 n c -> well_drawn c0 n c'.
Proof.
  intros Hsub [Hnd Hd]. split; [by eapply sublist_NoDup|].
  rewrite Forall_forall in *. intros id Hid. apply Hd.
  by eapply elem_of_sublist.
Qed.

Lemma well_drawn_empty c0 n c :
  canvas_ids c = [] -> well_drawn c0 n c.
Proof. unfold well_drawn. intros ->. split; [apply NoDup_nil_2|done]. Qed.

(** An id with the next counter bits is new to the canvas. *)
Lemma well_drawn_fresh c0 n c c' id :
  0 <= n < 65536 ->
  idCounterBits id = (c0 + (n + 1)) mod 65536 ->
  canvas_ids c' = canvas_ids c ++ [id] ->
  well_drawn c0 n c -> well_drawn c0 (n + 1) c'.
Proof.
  intros Hn Hid E [Hnd Hd]. unfold well_drawn. rewrite E. split.
  - apply NoDup_app. split; [done|]. split; [|apply NoDup_singleton].
    intros x Hx Hx'. apply list_elem_of_singleton in Hx'. subst x.
    rewrite Forall_forall in Hd. destruct (Hd id Hx) as (k & Hk & Ek).
    rewrite Hid in Ek.
    assert (H : (n + 1 - k) mod 65536 = 0).
    { replace (n + 1 - k) with ((c0 + (n + 1)) - (c0 + k)) by lia.
      rewrite Zminus_mod, Ek, Z.sub_diag. reflexivity. }
    apply Z.mod_divide in H; [|lia]. destruct H as [q Hq].
    assert (q = 0) by lia. lia.
  - apply Forall_app. split.
    + eapply Forall_impl; [exact Hd|]. intros x (k & Hk & Ek).
      exists k. split; [lia|done].
    + apply Forall_singleton. exists (n + 1). split; [lia|done].
Qed.

Lemma counter_next c0 n w :
  idCounter w mod 65536 = (c0 + n) mod 65536 ->
  idCounterBits (generateID w).1 = (c0 + (n + 1)) mod 65536 /\
  idCounter (generateID w).2 mod 65536 = (c0 + (n + 1)) mod 65536.
Proof.
  intros H. rewrite generateID_counter_bits, generateID_world, uint64_low16.
  rewrite Z.add_assoc. split; by apply low16_shift.
Qed.

Lemma update_in_place_ids id f s :
  (forall c, Component.ID (f c) = Component.ID c) ->
  canvas_ids (Session.Canvas (update_in_place id f s).2)
  = canvas_ids (Session.Canvas s).
Proof.
  intros Hf. unfold update_in_place.
  destruct (scan id (components s)) as [i|]; [|done].
  unfold canvas_ids; simpl. by apply alter_ids.
Qed.

Lemma removeComponent_ids params s :
  canvas_ids (Session.Canvas (removeComponent params s).2)
  `sublist_of` canvas_ids (Session.Canvas s).
Proof.
  unfold removeComponent.
  destruct (Unmarshal_ID params) as [err|id]; [done|].
  destruct (scan id (components s)) as [i|]; [|done].
  unfold canvas_ids; simpl.
  change (map Component.ID ?l) with (Component.ID <$> l).
  apply fmap_sublist. rewrite <- delete_take_drop. apply sublist_delete.
Qed.

Lemma addComponent_ids params s w :
  (addComponent params s w).1.2 = s /\ (addComponent params s w).2 = w \/
  canvas_ids (Session.Canvas (addComponent params s w).1.2)
  = canvas_ids (Session.Canvas s) ++ [(generateID w).1] /\
  (addComponent params s w).2 = (generateID w).2.
Proof.
  destruct (Unmarshal_AddComponentParams params) as [err|p] eqn:E.
  - left. unfold addComponent. by rewrite E.
  - right. destruct (addComponent_valid params p s w E) as (comp & -> & Hid).
    rewrite <- Hid. split; [|done].
    unfold canvas_ids, set_components, append.
    cbn [fst snd Session.Canvas Session.with_Canvas Canvas.Components
         Canvas.with_Components elems].
    by rewrite map_app.
Qed.

(** What a dispatched command does to the ids of the live canvas: it takes
    some out, or it appends the id it has generated. *)
Lemma dispatch_ids cmd s w :
  canvas_ids (Session.Canvas (dispatch cmd s w).1.2)
  `sublist_of` canvas_ids (Session.Canvas s) /\ (dispatch cmd s w).2 = w \/
  canvas_ids (Session.Canvas (dispatch cmd s w).1.2)
  = canvas_ids (Session.Canvas s) ++ [(generateID w).1] /\
  (dispatch cmd s w).2 = (generateID w).2.
Proof.
  unfold dispatch. repeat case_match.
  - destruct (addComponent_ids (Command.Params cmd) s w) as [[-> ->]|Hadd];
      [by left|by right].
  - left. split; [apply removeComponent_ids|done].
  - left. split; [|done]. unfold pure_step, moveComponent; simpl.
    destruct (Unmarshal_MoveComponentParams _); [done|].
    by rewrite update_in_place_ids.
  - left. split; [|done]. unfold pure_step, resizeComponent; simpl.
    destruct (Unmarshal_ResizeComponentParams _); [done|].
    by rewrite update_in_place_ids.
  - left. split; [|done]. unfold pure_step, styleComponent; simpl.
    destruct (Unmarshal_StyleComponentParams _); [done|].
    by rewrite update_in_place_ids.
  - left. split; [|done]. unfold pure_step, setText; simpl.
    destruct (Unmarshal_SetTextParams _); [done|].
    by rewrite update_in_place_ids.
  - by left.
Qed.

Lemma ids_inv_replace c0 n n' s s' w w' :
  ids_inv c0 n s w -> n <= n' ->
  Session.UndoStack s' = Session.UndoStack s ->
  Session.RedoStack s' = Session.RedoStack s ->
  well_drawn c0 n' (Session.Canvas s') ->
  idCounter w' mod 65536 = (c0 + n') mod 65536 ->
  ids_inv c0 n' s' w'.
Proof.
  intros [_ Hall] Hn Hu Hr Hc Hw. split; [done|].
  unfold canvases in *. rewrite Hu, Hr.
  apply Forall_cons in Hall as [_ Hall]. apply Forall_cons. split; [done|].
  eapply Forall_impl; [exact Hall|]. intros c. by apply well_drawn_mono.
Qed.

Lemma ids_inv_live c0 n s w :
  ids_inv c0 n s w -> well_drawn c0 n (Session.Canvas s).
Proof. intros [_ Hall]. by apply Forall_cons in Hall as [? _]. Qed.

Lemma ids_inv_saveState c0 n s w :
  ids_inv c0 n s w -> ids_inv c0 n (saveState s) w.
Proof.
  intros [Hw Hall]. split; [done|]. unfold canvases in *. simpl.
  rewrite app_nil_r.
  apply Forall_cons in Hall as [Hc Hall].
  apply Forall_app in Hall as [Hu _].
  apply Forall_cons. split; [done|]. apply Forall_app. split; [done|].
  apply Forall_singleton. eapply well_drawn_same; [|exact Hc].
  unfold canvas_ids. by destruct (Session.Canvas s) as [? ? ? [|?] ?].
Qed.

Lemma ids_inv_dispatch c0 n cmd s w :
  0 <= n < 65536 -> ids_inv c0 n s w ->
  exists n', n <= n' <= n + 1 /\
    ids_inv c0 n' (dispatch cmd s w).1.2 (dispatch cmd s w).2.
Proof.
  intros Hn Hinv.
  destruct (dispatch_frame cmd s w) as (_ & Hu & Hr).
  pose proof (ids_inv_live _ _ _ _ Hinv) as Hc.
  destruct (dispatch_ids cmd s w) as [[Hsub Hw]|[Hadd Hw]].
  - exists n. split; [lia|]. rewrite Hw.
    eapply ids_inv_replace; [exact Hinv|lia|done|done| |by destruct Hinv].
    by eapply well_drawn_sub.
  - exists (n + 1). split; [lia|]. rewrite Hw.
    destruct (counter_next c0 n w (proj1 Hinv)) as [Hbits Hcount'].
    eapply ids_inv_replace; [exact Hinv|lia|done|done| |done].
    eapply well_drawn_fresh; [exact Hn|exact Hbits|exact Hadd|exact Hc].
Qed.

Lemma Undo_canvases s : canvases (Undo s).2 ≡ₚ canvases s.
Proof.
  unfold Undo, canvases.
  destruct (last (Session.UndoStack s)) as [top|] eqn:E; [|done].
  apply last_Some in E as [l E]. simpl. rewrite E, pop_push.
  apply rotate.
Qed.

Lemma Redo_canvases s : canvases (Redo s).2 ≡ₚ canvases s.
Proof.
  unfold Redo, canvases.
  destruct (last (Session.RedoStack s)) as [top|] eqn:E; [|done].
  apply last_Some in E as [l E]. simpl. rewrite E, pop_push.
  symmetry. apply rotate.
Qed.

(** The list or the progress bar [AddList] and [AddProgress] append. *)
Lemma ids_inv_append c0 n s w comp :
  0 <= n < 65536 -> ids_inv c0 n s w ->
  Component.ID comp = (generateID w).1 ->
  ids_inv c0 (n + 1)
    (set_components
       (append (Canvas.Components (Session.Canvas s)) comp) s)
    (generateID w).2.
Proof.
  intros Hn Hinv Hid.
  pose proof (ids_inv_live _ _ _ _ Hinv) as Hc.
  destruct (counter_next c0 n w (proj1 Hinv)) as [Hbits Hcount'].
  eapply ids_inv_replace; [exact Hinv|lia|done|done| |done].
  eapply well_drawn_fresh; [exact Hn|exact Hbits| |exact Hc].
  rewrite <- Hid. unfold canvas_ids, set_components, append.
  cbn [fst snd Session.Canvas Session.with_Canvas Canvas.Components
       Canvas.with_Components elems].
  by rewrite map_app.
Qed.

Lemma ids_inv_step c0 n op s w :
  0 <= n < 65536 -> ids_inv c0 n s w ->
  exists n', n <= n' <= n + 1 /\ ids_inv c0 n' (step op s w).1 (step op s w).2.
Proof.
  intros Hn Hinv.
  destruct op as [cmd| | | |theme|wd ht| |]; cbn [step fst snd].
  - apply ids_inv_dispatch; [done|]. by apply ids_inv_saveState.
  - exists n. split; [lia|]. destruct Hinv as [Hw Hall]. split; [done|].
    by rewrite Undo_canvases.
  - exists n. split; [lia|]. destruct Hinv as [Hw Hall]. split; [done|].
    by rewrite Redo_canvases.
  - exists n. split; [lia|].
    apply ids_inv_saveState in Hinv.
    eapply ids_inv_replace; [exact Hinv|lia|done|done| |by destruct Hinv].
    by apply well_drawn_empty.
  - exists n. split; [lia|].
    eapply ids_inv_replace; [exact Hinv|lia|done|done| |by destruct Hinv].
    eapply well_drawn_same; [|by eapply ids_inv_live]. done.
  - exists n. split; [lia|].
    eapply ids_inv_replace; [exact Hinv|lia|done|done| |by destruct Hinv].
    eapply well_drawn_same; [|by eapply ids_inv_live]. done.
  - exists (n + 1). split; [lia|].
    unfold AddList, NewComponent. destruct (generateID w) as [id w'] eqn:E.
    cbn [fst snd API.session].
    replace w' with (generateID w).2 by (by rewrite E).
    apply ids_inv_append; [done|done|]. by rewrite E.
  - exists (n + 1). split; [lia|].
    unfold AddProgress, NewComponent. destruct (generateID w) as [id w'] eqn:E.
    cbn [fst snd API.session].
    replace w' with (generateID w).2 by (by rewrite E).
    apply ids_inv_append; [done|done|]. by rewrite E.
Qed.

Lemma ids_inv_run c0 ops n s w :
  0 <= n -> n + Z.of_nat (length ops) <= 65536 -> ids_inv c0 n s w ->
  exists n', ids_inv c0 n' (run ops s w).1 (run ops s w).2.
Proof.
  revert n s w. induction ops as [|op ops IH]; intros n s w Hn Hlen Hinv.
  { by exists n. }
  cbn [run length] in *.
  destruct (ids_inv_step c0 n op s w) as (n' & Hn' & Hinv'); [lia|done|].
  destruct (step op s w) as [s1 w1]. simpl in Hinv'.
  apply (IH n'); [lia|lia|done].
Qed.

(** Whatever calls are made on a new session, [Execute] with any command,
    [Undo], [Redo], [Clear], [SetTheme], [Resize], [AddList] and
    [AddProgress], and whatever the counter, the clock and the random
    source, up to 65536 calls leave no two components with the same id in
    the live canvas, nor in any snapshot on the undo and redo stacks. *)
Theorem ids_stay_unique ops name width height w :
  Z.of_nat (length ops) <= 65536 ->
  NoDup (map Component.ID
           (components (run ops (NewSession name width height) w).1)) /\
  Forall (λ c, NoDup (canvas_ids c))
    (canvases (run ops (NewSession name width height) w).1).
Proof.
  intros Hlen.
  destruct (ids_inv_run (idCounter w) ops 0 (NewSession name width height) w)
    as (n' & _ & Hall); [lia|lia| |].
  { split; [by rewrite Z.add_0_r|].
    apply Forall_singleton. by apply well_drawn_empty. }
  split.
  - apply Forall_cons in Hall as [[Hnd _] _]. exact Hnd.
  - eapply Forall_impl; [exact Hall|]. by intros c [Hnd _].
Qed.

Lemma ids_stay_unique_witness :
  NoDup (map Component.ID
           (components
              (run [OpExecute add_header; OpAddList "menu" nil_slice 0 4 20 5;
                    OpUndo; OpExecute add_header; OpRedo]
                 (NewSession "Demo" 80 24) fresh_world).1)).
Proof.
  refine (proj1 (ids_stay_unique
                   [OpExecute add_header; OpAddList "menu" nil_slice 0 4 20 5;
                    OpUndo; OpExecute add_header; OpRedo]
                   "Demo" 80 24 fresh_world _)).
  simpl. lia.
Defined.

(** ** When ExportJSON fails *)

Lemma forallb_Forall_true {A} (f : A -> bool) l :
  forallb f l = true <-> Forall (λ x, f x = true) l.
Proof.
  induction l as [|x l IH]; simpl; [by split|].
  rewrite andb_true_iff, Forall_cons, IH. done.
Qed.

Section ExportProperties.

Variable FormatFloat : float64 -> string.

Lemma marshal_Value_is_Some v :
  is_Some (marshal_Value FormatFloat v)
  <-> match v with any_float64 f => float64_finite f | _ => true end = true.
Proof.
  destruct v as [|b|f|s]; cbn [marshal_Value].
  - split; [reflexivity|]. intros _. eexists. reflexivity.
  - split; [reflexivity|]. intros _. eexists. reflexivity.
  - destruct (float64_finite f).
    + split; [reflexivity|]. intros _. eexists. reflexivity.
    + split; [|discriminate]. intros [x Hx]. discriminate Hx.
  - split; [reflexivity|]. intros _. eexists. reflexivity.
Qed.

Lemma mapM_marshal_is_Some l :
  Forall (λ c, is_Some (marshal_Component FormatFloat c)
               <-> finite_values c = true) l ->
  is_Some (mapM (marshal_Component FormatFloat) l)
  <-> forallb finite_values l = true.
Proof.
  intros IH. rewrite mapM_is_Some, forallb_Forall_true.
  induction IH as [|c l Hc _ IHl]; [split; constructor|].
  rewrite !Forall_cons, IHl. unfold compose at 1. by rewrite Hc.
Qed.

(** A component is written exactly when no value in it or below it is a
    NaN or an infinity. *)
Lemma marshal_Component_is_Some c :
  is_Some (marshal_Component FormatFloat c) <-> finite_values c = true.
Proof.
  induction c as [c IH] using Component_nested_ind.
  destruct c as [id ty name pos size style text ph items v ch f s d].
  cbn [marshal_Component finite_values Component.Value Component.Children
       elems] in *.
  rewrite andb_true_iff, <- marshal_Value_is_Some.
  destruct (marshal_Value FormatFloat v) as [vp|]; cbn [mbind option_bind].
  2: { split; [intros [x Hx]; discriminate Hx|].
       intros [[x Hx] _]; discriminate Hx. }
  destruct ch as [|l]; cbn [mbind option_bind elems] in *.
  { split; [intros _; split; [eexists|]; reflexivity|].
    intros _. eexists. reflexivity. }
  rewrite <- (mapM_marshal_is_Some l IH).
  destruct (mapM (marshal_Component FormatFloat) l) as [js|];
    cbn [mbind option_bind].
  - split; [intros _; split; eexists; reflexivity|].
    intros _. eexists. reflexivity.
  - split; [intros [x Hx]; discriminate Hx|].
    intros [_ [x Hx]]; discriminate Hx.
Qed.

(** [ExportJSON] returns the text of the canvas and no error when none of
    the canvas's components holds, at any depth, a value that is a NaN or
    an infinity; otherwise it returns no text and the unsupported-value
    error of [encoding/json].  Nothing else makes it fail. *)
Theorem ExportJSON_fails_on_NaN_only s :
  ((ExportJSON FormatFloat s).2 = None
   <-> forallb finite_values (components s) = true) /\
  ((ExportJSON FormatFloat s).2 = None ->
   exists j, (ExportJSON FormatFloat s).1 = Some j) /\
  ((ExportJSON FormatFloat s).2 <> None ->
   ExportJSON FormatFloat s = (None, Some (JSONError UnsupportedValueError))).
Proof.
  unfold ExportJSON, Marshal_Canvas, marshal_Canvas, marshal_Components,
    components.
  destruct (Canvas.Components (Session.Canvas s)) as [|l];
    cbn [mbind option_bind fmap option_fmap option_map elems forallb fst snd].
  { split; [split; reflexivity|]. split; [intros _; eexists; reflexivity|].
    intros H. by destruct H. }
  pose proof (mapM_marshal_is_Some l) as Hl.
  assert (Hl' : is_Some (mapM (marshal_Component FormatFloat) l)
                <-> forallb finite_values l = true).
  { apply Hl. apply Forall_forall. intros c _.
    apply marshal_Component_is_Some. }
  clear Hl.
  destruct (mapM (marshal_Component FormatFloat) l) as [js|];
    cbn [mbind option_bind fmap option_fmap option_map fst snd].
  - split; [split; [intros _; apply Hl'; eexists; reflexivity|reflexivity]|].
    split; [intros _; eexists; reflexivity|]. intros H. by destruct H.
  - split; [split; [discriminate|]|].
    + intros H. apply Hl' in H. destruct H as [x Hx]. discriminate Hx.
    + split; [discriminate|]. reflexivity.
Qed.

End ExportProperties.

Lemma ExportJSON_fails_on_NaN_only_witness :
  ExportJSON itoa
    (API.session
       (AddProgress "cpu" 0x7FF8000000000000 2 8 15 (NewAPI "Demo")
          fresh_world).1.2)
  = (None, Some (JSONError UnsupportedValueError)).
Proof.
  refine (proj2 (proj2 (ExportJSON_fails_on_NaN_only itoa _)) _).
  vm_compute. discriminate.
Defined.

(** ** The shape of the ids *)

Lemma hexchar_hexdigit v : 0 <= v < 16 -> hexchar (hexdigit v) = true.
Proof.
  intros H. apply nibble_cases in H.
  repeat (destruct H as [-> | H]; [reflexivity|]). by subst.
Qed.

Lemma hexchar_ascii c : hexchar c = true -> code c < 128.
Proof.
  unfold hexchar. cbn [list_ascii_of_string hextable existsb].
  intros H.
  repeat (apply orb_prop in H as [H|H];
          [apply Ascii.eqb_eq in H; subst c; vm_compute; reflexivity|]).
  discriminate H.
Qed.

Lemma append_cons c s t : String c s +:+ t = String c (s +:+ t).
Proof. reflexivity. Qed.

Lemma length_append s t :
  String.length (s +:+ t) = (String.length s + String.length t)%nat.
Proof.
  induction s as [|c s IH]; [done|].
  rewrite append_cons. cbn [String.length]. by rewrite IH.
Qed.

Lemma hex_string_app s t :
  hex_string (s +:+ t) = hex_string s && hex_string t.
Proof.
  unfold hex_string. induction s as [|c s IH]; [done|].
  rewrite append_cons. cbn [list_ascii_of_string forallb]. rewrite IH.
  by rewrite andb_assoc.
Qed.

Lemma EncodeToString_hex src :
  Forall (λ b, 0 <= b < 256) src ->
  hex_string (EncodeToString src) = true /\
  String.length (EncodeToString src) = (2 * length src)%nat.
Proof.
  induction 1 as [|b src Hb _ [IH1 IH2]]; [done|].
  cbn [EncodeToString hex_string list_ascii_of_string forallb String.length
       length].
  rewrite !hexchar_hexdigit by (apply high_nibble || apply low_nibble; lia).
  split; [exact IH1|]. rewrite IH2. lia.
Qed.

Lemma byte_range z : 0 <= byte z < 256.
Proof. rewrite byte_mod. apply Z.mod_pos_bound. lia. Qed.

Lemma randomBytes_range w :
  Forall (λ b, 0 <= b < 256) (randomBytes w) /\ length (randomBytes w) = 4%nat.
Proof.
  unfold randomBytes. split.
  - apply Forall_take, Forall_app. split.
    + apply Forall_forall. intros b Hb.
      apply list_elem_of_fmap in Hb as (z & -> & _). apply byte_range.
    + repeat (apply Forall_cons; split; [cbv beta; lia|]). apply Forall_nil_2.
  - rewrite length_take, length_app. cbn [length]. lia.
Qed.

(** A string of bytes below 128 is UTF-8 as it stands. *)
Lemma ascii_toValidUTF8 s :
  Forall (λ c, code c < 128) (list_ascii_of_string s) -> toValidUTF8 s = s.
Proof.
  unfold toValidUTF8. induction s as [|c s IH]; [done|].
  cbn [list_ascii_of_string]. intros [Hc Hs]%Forall_cons.
  cbn [coerce rune_width].
  replace (code c <? 128) with true by (symmetry; by apply Z.ltb_lt).
  by rewrite IH.
Qed.

Lemma hex_string_ascii s :
  hex_string s = true -> Forall (λ c, code c < 128) (list_ascii_of_string s).
Proof.
  unfold hex_string. intros H. apply Forall_forall. intros c Hc.
  apply hexchar_ascii.
  rewrite forallb_forall in H. apply H. by apply list_elem_of_In.
Qed.

Lemma generateID_shape w :
  exists digits,
    (generateID w).1 = "comp_" +:+ digits /\
    hex_string digits = true /\ String.length digits = 16%nat.
Proof.
  unfold generateID. cbn [fst].
  set (head := [byte _; byte _; byte _; byte _]).
  destruct (EncodeToString_hex head) as [Hh Hl].
  { subst head.
    repeat (apply Forall_cons; split; [apply byte_range|]).
    apply Forall_nil_2. }
  destruct (randomBytes_range w) as [Hr Hn].
  destruct (EncodeToString_hex (randomBytes w) Hr) as [Hh' Hl'].
  exists (EncodeToString head +:+ EncodeToString (randomBytes w)).
  split; [reflexivity|]. rewrite hex_string_app, Hh, Hh'.
  split; [reflexivity|].
  rewrite length_append, Hl, Hl', Hn. reflexivity.
Qed.

Lemma generateID_valid w : toValidUTF8 (generateID w).1 = (generateID w).1.
Proof.
  destruct (generateID_shape w) as (digits & -> & Hh & _).
  apply ascii_toValidUTF8.
  change ("comp_" +:+ digits)
    with (String "c" (String "o" (String "m" (String "p" (String "_" digits))))).
  cbn [list_ascii_of_string].
  repeat (apply Forall_cons; split; [vm_compute; reflexivity|]).
  by apply hex_string_ascii.
Qed.

(** Every id [generateID] returns is [comp_] followed by sixteen digits
    among 0-9 and a-f, twenty-one bytes of ASCII, whatever the counter, the
    clock and the random source: it passes through [json.Marshal] and
    [json.Unmarshal] unchanged.  Each call moves the counter on by one,
    modulo 2^64. *)
Theorem generateID_format w :
  generated_id (generateID w).1 = true /\
  valid_string (generateID w).1 = true /\
  idCounter (generateID w).2 = uint64 (idCounter w + 1).
Proof.
  split; [|split; [|reflexivity]].
  - destruct (generateID_shape w) as (digits & -> & Hh & Hl).
    unfold generated_id.
    change ("comp_" +:+ digits)
      with (String "c" (String "o" (String "m" (String "p"
              (String "_" digits))))).
    cbn [substring String.length]. rewrite Hl.
    replace (substring 0 0 digits) with "" by (by destruct digits).
    replace (substring 0 16 digits) with digits; [by rewrite Hh|].
    clear Hh. revert Hl. generalize 16%nat. intros n <-.
    induction digits as [|c d IH]; [done|]. cbn. by rewrite <- IH.
  - unfold valid_string. rewrite generateID_valid. apply String.eqb_refl.
Qed.

(** ** Deleting what was added *)

Lemma scan_last id comps comp :
  id ∉ map Component.ID comps -> Component.ID comp = id ->
  scan id (comps ++ [comp]) = Some (length comps).
Proof.
  intros Hnew Hid. apply (scan_first _ _ _ comp).
  - by rewrite list_lookup_middle.
  - done.
  - intros j c' Hc' Hj Hid'. apply Hnew.
    rewrite lookup_app_l in Hc' by done.
    apply list_elem_of_fmap. exists c'. split; [done|].
    by eapply list_elem_of_lookup_2.
Qed.

(** When the id [AddBox] draws is not yet the id of a component,
    [API.Delete] with the id [AddBox] returned succeeds and leaves the
    components that were there before the [AddBox], in order. *)
Theorem Delete_after_AddBox name text x y width height a w :
  is_int x = true -> is_int y = true ->
  is_int width = true -> is_int height = true ->
  (generateID w).1 ∉ map Component.ID (components (API.session a)) ->
  let r := AddBox name text x y width height a w in
  r.1.1 = (generateID w).1 /\
  (API_Delete r.1.1 r.1.2 r.2).1.1 = None /\
  components (API.session (API_Delete r.1.1 r.1.2 r.2).1.2)
  = components (API.session a).
Proof.
  intros Hx Hy Hw Hh Hnew. cbv zeta. unfold AddBox.
  rewrite add_and_report_adds by done. cbn [fst snd].
  split; [reflexivity|].
  unfold API_Delete, Execute, dispatch.
  cbn [Command.Type_ Command.Params API.session].
  change (String.eqb CmdRemoveComponent CmdAddComponent) with false.
  change (String.eqb CmdRemoveComponent CmdRemoveComponent) with true.
  cbv iota. unfold pure_step, removeComponent.
  rewrite Unmarshal_Marshal_ID, generateID_valid.
  rewrite saveState_components.
  match goal with
  | |- context [scan _ (components (set_components (append _ ?c) _))] =>
      set (comp := c)
  end.
  change (components
            (set_components
               (append (Canvas.Components (Session.Canvas (API.session a)))
                  comp)
               (saveState (API.session a))))
    with (components (API.session a) ++ [comp]).
  rewrite (scan_last _ _ comp Hnew eq_refl). cbn [fst snd API.session].
  split; [reflexivity|].
  unfold components at 1, set_components.
  cbn [Session.Canvas Session.with_Canvas Canvas.Components
       Canvas.with_Components elems].
  rewrite take_app_length, drop_ge; [by rewrite app_nil_r|].
  rewrite length_app. cbn [length]. lia.
Qed.

Lemma Delete_after_AddBox_witness :
  components
    (API.session
       (API_Delete "comp_04a40001deadbeef"
          (AddBox "header" "Hi" 0 0 80 3 (NewAPI "Demo") fresh_world).1.2
          (AddBox "header" "Hi" 0 0 80 3 (NewAPI "Demo") fresh_world).2).1.2)
  = [].
Proof.
  refine (proj2 (proj2
    (Delete_after_AddBox "header" "Hi" 0 0 80 3 (NewAPI "Demo") fresh_world
       _ _ _ _ _))); try reflexivity.
  apply not_elem_of_nil.
Defined.

(** ** What the generated program depends on *)

Lemma imap_same {A B C} (e : A -> C) (f : nat -> A -> B) l1 l2 :
  (forall i x y, e x = e y -> f i x = f i y) ->
  map e l1 = map e l2 -> imap f l1 = imap f l2.
Proof.
  revert f l2. induction l1 as [|x l1 IH]; intros f [|y l2] Hf E; try done.
  injection E as Eh Et. cbn [imap]. f_equal; [by apply Hf|].
  apply IH; [|done]. intros i x' y' Hxy. by apply Hf.
Qed.

Lemma modelFields_exported i x y :
  exported x = exported y -> modelFields i x = modelFields i y.
Proof.
  unfold exported, modelFields. intros [= Hty _ _ _]. by rewrite Hty.
Qed.

Section ExportedProperties.

Variable Quote : string -> string.

Lemma generateComponentView_exported i x y :
  exported x = exported y ->
  generateComponentView Quote i x = generateComponentView Quote i y.
Proof.
  unfold exported, generateComponentView. intros [= Hty Hn Htx Hsz].
  rewrite <- Hty in *. rewrite Hn.
  destruct (String.eqb (Component.Type_ x) TypeBox).
  { cbn [orb] in Htx. by rewrite Htx, Hsz. }
  destruct (String.eqb (Component.Type_ x) TypeText).
  { cbn [orb] in Htx. by rewrite Htx. }
  destruct (String.eqb (Component.Type_ x) TypeButton).
  { cbn [orb] in Htx. by rewrite Htx. }
  reflexivity.
Qed.

(** The program [Generate] writes, and so what [Session.Export] returns,
    depends on the components only, in their order, and of each only on
    its type and its name, on the text of a box, a text or a button, and on
    the size of a box.  Ids, positions, styles, items, values, children,
    the size or the text of any other component, and the name, the size and
    the theme of the canvas leave no trace in it. *)
Theorem Generate_reads_exported g1 g2 :
  map exported (gen_components g1) = map exported (gen_components g2) ->
  Generate Quote g1 = Generate Quote g2.
Proof.
  intros E. unfold Generate, generateModel, generateView.
  rewrite (imap_same exported modelFields _ _ modelFields_exported E).
  by rewrite (imap_same exported (generateComponentView Quote) _ _
                generateComponentView_exported E).
Qed.

End ExportedProperties.

Lemma Generate_reads_exported_witness :
  Export (λ s, s)
    (API.session
       (API_Move "comp_04a40001deadbeef" 5 7
          (AddBox "header" "Hi" 0 0 80 3 (NewAPI "Demo") fresh_world).1.2
          fresh_world).1.2)
  = Export (λ s, s)
      (API.session
         (AddBox "header" "Hi" 0 0 80 3 (NewAPI "Demo") fresh_world).1.2).
Proof.
  apply (Generate_reads_exported (λ s, s)). reflexivity.
Defined.

(** ** A template and the sessions made from it *)

Lemma live_alloc m arr (s : Mem.session) h :
  Mem.Components (Mem.Canvas s) = Some h -> Mem.valid m h ->
  Mem.live (m ++ [arr]) s = take (Mem.len h) (Mem.backing m h).
Proof.
  intros E Hv. unfold Mem.live, Mem.read. rewrite E. simpl.
  by rewrite backing_alloc.
Qed.

(** The array after [append(s[:i], s[i+1:]...)], seen through a header
    that still has the old length. *)
Lemma shifted_seen_whole {A} (arr : list A) (n i : nat) :
  (i < n)%nat -> (n <= length arr)%nat ->
  take n (take i arr ++ take (n - S i) (drop (S i) arr) ++ drop (n - 1) arr)
  = take i (take n arr) ++ drop (S i) (take n arr)
    ++ drop (n - 1) (take n arr).
Proof.
  intros Hi Hn.
  assert (HA : take i (take n arr) = take i arr)
    by (rewrite take_take; f_equal; lia).
  assert (HB : drop (S i) (take n arr) = take (n - S i) (drop (S i) arr))
    by (rewrite take_drop_commute; do 2 f_equal; lia).
  assert (HC : drop (n - 1) (take n arr) = take 1 (drop (n - 1) arr))
    by (rewrite take_drop_commute; do 2 f_equal; lia).
  rewrite HA, HB, HC, !app_assoc.
  replace n with ((n - 1) + 1)%nat at 1 by lia.
  apply take_app_add'.
  rewrite length_app, !length_take, length_drop. lia.
Qed.

Section TemplateProperties.

Variable spare : nat -> nat.

(** What [Execute] finds in memory when the live canvas is one handed in
    from outside: it pushes a copy and leaves the array of the canvas
    alone. *)
Lemma saveState_imported (s : Mem.session) m h :
  Mem.Components (Mem.Canvas s) = Some h -> Mem.valid m h ->
  exists s' m',
    Mem.saveState s m = (s', m') /\
    Mem.Canvas s' = Mem.Canvas s /\
    Mem.valid m' h /\ Mem.backing m' h = Mem.backing m h.
Proof.
  intros E Hv. unfold Mem.saveState, Mem.make.
  eexists _, _. split; [reflexivity|]. split; [reflexivity|].
  split; [by apply valid_alloc | by apply backing_alloc].
Qed.

(** [TemplateEngine.Apply] gives the new API the canvas of the template,
    slice header and all, so the API and the template show the same array.
    Moving a component through the API returned by [Apply] assigns the
    position in that array: the canvas kept in the template shows the
    component moved.  Deleting a component through it shifts the array:
    the canvas kept in the template, whose length has not changed, shows
    the components after the deleted one a place earlier and the last one
    twice. *)
Theorem applied_template_is_shared e name t h m w id x y i c :
  Templates.Get name e = Some t ->
  Mem.Components (Templates.Canvas t) = Some h ->
  Mem.valid m h ->
  scan (toValidUTF8 id) (take (Mem.len h) (Mem.backing m h)) = Some i ->
  take (Mem.len h) (Mem.backing m h) !! i = Some c ->
  is_int x = true -> is_int y = true ->
  exists s1 m1,
    Templates.Apply name e m = inr (s1, m1) /\
    Mem.Canvas s1 = Templates.Canvas t /\
    (Templates.Move spare id x y s1 m1 w).1.1.1 = None /\
    Mem.read (Templates.Move spare id x y s1 m1 w).1.2
      (Mem.Components (Templates.Canvas t))
    = mk_slice (alter (Component.with_Position (Position.mk x y)) i
                  (take (Mem.len h) (Mem.backing m h))) /\
    (Templates.Delete spare id s1 m1 w).1.1.1 = None /\
    Mem.read (Templates.Delete spare id s1 m1 w).1.2
      (Mem.Components (Templates.Canvas t))
    = mk_slice (take i (take (Mem.len h) (Mem.backing m h))
                ++ drop (S i) (take (Mem.len h) (Mem.backing m h))
                ++ drop (Mem.len h - 1) (take (Mem.len h) (Mem.backing m h))).
Proof.
  intros Hget Hh Hv Hscan Hc Hx Hy.
  unfold Templates.Apply. rewrite Hget.
  unfold Mem.NewSession, Mem.make. cbn [length].
  eexists _, _. split; [reflexivity|]. split; [reflexivity|].
  set (s1 := Templates.ImportCanvas _ _).
  set (m1 := m ++ [[]]).
  assert (Hs1 : Mem.Components (Mem.Canvas s1) = Some h) by exact Hh.
  assert (Hv1 : Mem.valid m1 h) by (by apply valid_alloc).
  assert (Hb1 : Mem.backing m1 h = Mem.backing m h) by (by apply backing_alloc).
  destruct (saveState_imported s1 m1 h Hs1 Hv1)
    as (s2 & m2 & Hsave & Hcanvas & Hv2 & Hb2).
  assert (Hs2 : Mem.Components (Mem.Canvas s2) = Some h)
    by (by rewrite Hcanvas).
  assert (Hlive : Mem.live m2 s2 = take (Mem.len h) (Mem.backing m h)).
  { unfold Mem.live, Mem.read. rewrite Hs2. simpl. by rewrite Hb2, Hb1. }
  assert (Hi : (i < Mem.len h)%nat).
  { apply lookup_lt_Some in Hc. rewrite length_take in Hc. lia. }
  rewrite Hh.
  split; [|split; [|split]].
  - unfold Templates.Move, Mem.Execute. rewrite Hsave.
    unfold Mem.dispatch; cbn [Command.Type_ Command.Params].
    change (String.eqb CmdMoveComponent CmdAddComponent) with false.
    change (String.eqb CmdMoveComponent CmdRemoveComponent) with false.
    change (String.eqb CmdMoveComponent CmdMoveComponent) with true.
    cbv iota. unfold Mem.pure_step, Mem.moveComponent.
    rewrite Unmarshal_Marshal_Move by done.
    cbn [MoveComponentParams.ID MoveComponentParams.X MoveComponentParams.Y].
    unfold Mem.update_in_place. by rewrite Hlive, Hscan.
  - unfold Templates.Move, Mem.Execute. rewrite Hsave.
    unfold Mem.dispatch; cbn [Command.Type_ Command.Params].
    change (String.eqb CmdMoveComponent CmdAddComponent) with false.
    change (String.eqb CmdMoveComponent CmdRemoveComponent) with false.
    change (String.eqb CmdMoveComponent CmdMoveComponent) with true.
    cbv iota. unfold Mem.pure_step, Mem.moveComponent.
    rewrite Unmarshal_Marshal_Move by done.
    cbn [MoveComponentParams.ID MoveComponentParams.X MoveComponentParams.Y].
    unfold Mem.update_in_place. rewrite Hlive, Hscan. cbn [fst snd].
    rewrite Hs2. unfold Mem.assign, Mem.read.
    rewrite backing_write_eq by (by destruct Hv2).
    by rewrite Hb2, Hb1, take_alter_lt.
  - unfold Templates.Delete, Mem.Execute. rewrite Hsave.
    unfold Mem.dispatch; cbn [Command.Type_ Command.Params].
    change (String.eqb CmdRemoveComponent CmdAddComponent) with false.
    change (String.eqb CmdRemoveComponent CmdRemoveComponent) with true.
    cbv iota. unfold Mem.pure_step, Mem.removeComponent.
    rewrite Unmarshal_Marshal_ID, Hlive, Hscan, Hs2. reflexivity.
  - unfold Templates.Delete, Mem.Execute. rewrite Hsave.
    unfold Mem.dispatch; cbn [Command.Type_ Command.Params].
    change (String.eqb CmdRemoveComponent CmdAddComponent) with false.
    change (String.eqb CmdRemoveComponent CmdRemoveComponent) with true.
    cbv iota. unfold Mem.pure_step, Mem.removeComponent.
    rewrite Unmarshal_Marshal_ID, Hlive, Hscan, Hs2.
    unfold Mem.remove, Mem.read. cbn [fst snd].
    rewrite backing_write_eq by (by destruct Hv2).
    rewrite Hb2, Hb1. f_equal.
    apply shifted_seen_whole; [done | by destruct Hv].
Qed.

End TemplateProperties.

Lemma applied_template_is_shared_witness :
  let one := plain "a" TypeBox "one" in
  let two := plain "b" TypeText "two" in
  let h := Mem.mk_header 0 2 in
  let t := Templates.mk_Template "pair" "" "" ""
             (Mem.mk_canvas "pair" 80 24 (Some h) "ultraviolet") in
  let m := [[one; two]] in
  exists s1 m1,
    Templates.Apply "pair" (Templates.Register t ∅) m = inr (s1, m1) /\
    Mem.read (Templates.Move (λ _, 0%nat) "a" 5 7 s1 m1 fresh_world).1.2
      (Some h)
    = mk_slice [Component.with_Position (Position.mk 5 7) one; two] /\
    Mem.read (Templates.Delete (λ _, 0%nat) "a" s1 m1 fresh_world).1.2
      (Some h)
    = mk_slice [two; two].
Proof.
  cbv zeta.
  destruct (applied_template_is_shared (λ _, 0%nat)
              (Templates.Register
                 (Templates.mk_Template "pair" "" "" ""
                    (Mem.mk_canvas "pair" 80 24 (Some (Mem.mk_header 0 2))
                       "ultraviolet")) ∅)
              "pair"
              (Templates.mk_Template "pair" "" "" ""
                 (Mem.mk_canvas "pair" 80 24 (Some (Mem.mk_header 0 2))
                    "ultraviolet"))
              (Mem.mk_header 0 2)
              [[plain "a" TypeBox "one"; plain "b" TypeText "two"]]
              fresh_world "a" 5 7 0%nat (plain "a" TypeBox "one"))
    as (s1 & m1 & HA & _ & _ & HM & _ & HD).
  - reflexivity.
  - reflexivity.
  - split; simpl; lia.
  - reflexivity.
  - reflexivity.
  - reflexivity.
  - reflexivity.
  - exists s1, m1. split; [exact HA|]. split; [exact HM|exact HD].
Defined.

(** ** The designer's canvas *)

Lemma int64_id z : - 2 ^ 63 <= z < 2 ^ 63 -> int64 z = z.
Proof.
  intros H. unfold int64. rewrite Z.mod_small by lia. lia.
Qed.

Lemma is_int_range z : is_int z = true -> - 2 ^ 63 <= z < 2 ^ 63.
Proof. unfold is_int. intros [H1 H2]%andb_true_iff. lia. Qed.

Lemma back_inside x limit :
  limit < 2 ^ 63 -> 0 <= x < limit -> 0 <= UI.back x < limit.
Proof.
  intros Hl Hx. unfold UI.back. rewrite int64_id by lia.
  destruct (Z.ltb_spec (x - 1) 0); lia.
Qed.

Lemma forth_inside x limit :
  limit < 2 ^ 63 -> 0 <= x < limit -> 0 <= UI.forth x limit < limit.
Proof.
  intros Hl Hx. unfold UI.forth. rewrite !int64_id by lia.
  destruct (Z.leb_spec limit (x + 1)); lia.
Qed.

Lemma has_selection_true c :
  UI.has_selection c = true -> 0 <= UI.Selected c < UI.len c.
Proof. unfold UI.has_selection. intros [H1 H2]%andb_true_iff. lia. Qed.

Lemma AddComponent_well_formed comp c :
  UI.well_formed c -> UI.well_formed (UI.AddComponent comp c).
Proof.
  intros (Hs & Hx & Hy). unfold UI.well_formed, UI.AddComponent, UI.len.
  cbn [UI.Selected UI.Components UI.CursorX UI.CursorY UI.Width UI.Height].
  split; [|done]. unfold append. cbn [elems]. rewrite length_app.
  cbn [length]. lia.
Qed.

Lemma RemoveSelected_well_formed c :
  UI.well_formed c -> UI.well_formed (UI.RemoveSelected c).
Proof.
  intros (Hs & Hx & Hy). unfold UI.RemoveSelected.
  destruct (UI.has_selection c) eqn:E; [|done].
  apply has_selection_true in E. unfold UI.len in E.
  unfold UI.well_formed, UI.len.
  cbn [UI.Selected UI.Components UI.CursorX UI.CursorY UI.Width UI.Height
       elems].
  split; [|done].
  rewrite length_app, length_take, length_drop.
  set (n := length (elems (UI.Components c))) in *.
  destruct (Z.leb_spec
              (Z.of_nat (Z.to_nat (UI.Selected c) `min` n
                         + (n - S (Z.to_nat (UI.Selected c)))))
              (UI.Selected c)); lia.
Qed.

Lemma MoveSelected_well_formed dx dy c :
  UI.well_formed c -> UI.well_formed (UI.MoveSelected dx dy c).
Proof.
  intros (Hs & Hx & Hy). unfold UI.MoveSelected.
  destruct (UI.has_selection c); [|done].
  unfold UI.well_formed, UI.len in *.
  cbn [UI.Selected UI.Components UI.CursorX UI.CursorY UI.Width UI.Height
       elems].
  by rewrite length_alter.
Qed.

Lemma selectComponentAtCursor_well_formed c :
  UI.well_formed c -> UI.well_formed (UI.selectComponentAtCursor c).
Proof.
  intros (Hs & Hx & Hy). unfold UI.selectComponentAtCursor.
  unfold UI.well_formed, UI.len in *.
  cbn [UI.Selected UI.Components UI.CursorX UI.CursorY UI.Width UI.Height].
  split; [|done].
  destruct (list_find _ _) as [[i comp]|] eqn:E; [|lia].
  apply list_find_Some in E as (Hi & _). apply lookup_lt_Some in Hi. lia.
Qed.

Lemma handle_well_formed e c :
  UI.Width c < 2 ^ 63 -> UI.Height c < 2 ^ 63 ->
  UI.well_formed c ->
  UI.well_formed (UI.handle e c) /\
  UI.Width (UI.handle e c) = UI.Width c /\
  UI.Height (UI.handle e c) = UI.Height c.
Proof.
  intros Hw Hh Hc.
  assert (Hsize : UI.Width (UI.handle e c) = UI.Width c /\
                  UI.Height (UI.handle e c) = UI.Height c).
  { destruct e as [comp|k]; [done|]. destruct k; cbn [UI.handle UI.updateCanvas];
      unfold UI.MoveSelected, UI.RemoveSelected;
      repeat case_match; done. }
  split; [|exact Hsize].
  destruct e as [comp|k]; cbn [UI.handle].
  { by apply AddComponent_well_formed. }
  pose proof Hc as (Hs & Hx & Hy).
  destruct k; cbn [UI.updateCanvas];
    try (destruct (UI.moving c); [by apply MoveSelected_well_formed|]).
  - split; [done|]. split; [done|]. by apply back_inside.
  - split; [done|]. split; [done|]. by apply forth_inside.
  - split; [done|]. split; [|done]. by apply back_inside.
  - split; [done|]. split; [|done]. by apply forth_inside.
  - by apply RemoveSelected_well_formed.
  - by destruct (UI.Mode_ c).
  - by apply selectComponentAtCursor_well_formed.
  - done.
Qed.

(** A new canvas at least one cell wide and high has no selection and its
    cursor on it; from then on, whatever components are added and whatever
    keys [updateCanvas] handles, the selection is none or the index of a
    component, and the cursor stays on the canvas, whose size does not
    change. *)
Theorem designer_keeps_canvas_well_formed events c width height theme :
  (1 <= width -> 1 <= height -> UI.well_formed (UI.New width height theme)) /\
  (UI.Width c < 2 ^ 63 -> UI.Height c < 2 ^ 63 -> UI.well_formed c ->
   UI.well_formed (foldl (λ c e, UI.handle e c) c events) /\
   UI.Width (foldl (λ c e, UI.handle e c) c events) = UI.Width c /\
   UI.Height (foldl (λ c e, UI.handle e c) c events) = UI.Height c).
Proof.
  split.
  - intros Hw Hh. unfold UI.well_formed, UI.New, UI.len. cbn.
    pose proof (Z.quot_pos width 2). pose proof (Z.quot_lt width 2).
    pose proof (Z.quot_pos height 2). pose proof (Z.quot_lt height 2). lia.
  - revert c. induction events as [|e events IH]; intros c Hw Hh Hc; [done|].
    cbn [foldl].
    destruct (handle_well_formed e c Hw Hh Hc) as (Hc' & Ew & Eh).
    destruct (IH (UI.handle e c)) as (H1 & H2 & H3);
      [by rewrite Ew|by rewrite Eh|done|].
    rewrite H2, H3, Ew, Eh. done.
Qed.

Lemma designer_keeps_canvas_well_formed_witness :
  UI.well_formed
    (foldl (λ c e, UI.handle e c) (UI.New 46 18 Ultraviolet)
       [UI.Add (plain "a" TypeBox "Box"); UI.Press UI.KeyRight;
        UI.Press UI.KeyMoveMod; UI.Press UI.KeyUp; UI.Press UI.KeyDelete;
        UI.Press UI.KeyEnter]).
Proof.
  refine (proj1 (proj2
    (designer_keeps_canvas_well_formed
       [UI.Add (plain "a" TypeBox "Box"); UI.Press UI.KeyRight;
        UI.Press UI.KeyMoveMod; UI.Press UI.KeyUp; UI.Press UI.KeyDelete;
        UI.Press UI.KeyEnter]
       (UI.New 46 18 Ultraviolet) 46 18 Ultraviolet) _ _ _)).
  - reflexivity.
  - reflexivity.
  - refine (proj1 (designer_keeps_canvas_well_formed [] (UI.New 46 18 Ultraviolet)
                     46 18 Ultraviolet) _ _); lia.
Defined.

Lemma GetSelected_lookup c :
  UI.well_formed c -> 0 <= UI.Selected c ->
  UI.GetSelected c = elems (UI.Components c) !! Z.to_nat (UI.Selected c).
Proof.
  intros (Hs & _) H0. unfold UI.GetSelected, UI.has_selection.
  replace (0 <=? UI.Selected c) with true by (symmetry; apply Z.leb_le; lia).
  replace (UI.Selected c <? UI.len c) with true
    by (symmetry; apply Z.ltb_lt; lia).
  reflexivity.
Qed.

(** With no component selected, [RemoveSelected] changes nothing.  With
    one selected, it takes that component out and leaves the others in
    order; the selection passes to the component that followed it, or,
    when it was the last, to the one before it, or to none when it was the
    only one. *)
Theorem RemoveSelected_passes_selection c :
  UI.well_formed c ->
  (UI.Selected c = -1 -> UI.RemoveSelected c = c) /\
  (0 <= UI.Selected c ->
   elems (UI.Components (UI.RemoveSelected c))
   = take (Z.to_nat (UI.Selected c)) (elems (UI.Components c))
     ++ drop (S (Z.to_nat (UI.Selected c))) (elems (UI.Components c)) /\
   UI.GetSelected (UI.RemoveSelected c)
   = match elems (UI.Components c) !! S (Z.to_nat (UI.Selected c)) with
     | Some next => Some next
     | None =>
         match Z.to_nat (UI.Selected c) with
         | O => None
         | S j => elems (UI.Components c) !! j
         end
     end).
Proof.
  intros Hc. pose proof Hc as (Hs & _). split.
  { intros E. unfold UI.RemoveSelected, UI.has_selection. by rewrite E. }
  intros H0.
  pose proof (RemoveSelected_well_formed c Hc) as Hc'.
  unfold UI.RemoveSelected in *. unfold UI.has_selection in *.
  replace (0 <=? UI.Selected c) with true in *
    by (symmetry; apply Z.leb_le; lia).
  replace (UI.Selected c <? UI.len c) with true in *
    by (symmetry; apply Z.ltb_lt; lia).
  cbn [andb] in *. cbv zeta in *. unfold UI.len in *.
  set (l := elems (UI.Components c)) in *.
  set (i := Z.to_nat (UI.Selected c)) in *.
  assert (Hi : (i < length l)%nat) by lia.
  assert (Hlen : length (take i l ++ drop (S i) l) = (length l - 1)%nat).
  { rewrite length_app, length_take, length_drop. lia. }
  split; [reflexivity|].
  destruct (Z.leb_spec (Z.of_nat (length (take i l ++ drop (S i) l)))
              (UI.Selected c)) as [Hlast|Hmid].
  - (* the last component was selected *)
    assert (Ei : i = (length l - 1)%nat) by lia.
    rewrite (lookup_ge_None_2 l (S i)) by lia.
    destruct i as [|j] eqn:Ej.
    + unfold UI.GetSelected, UI.has_selection, UI.len.
      cbn [UI.Selected UI.Components elems]. rewrite Hlen.
      replace (Z.of_nat (length l - 1) - 1) with (-1) by lia. reflexivity.
    + rewrite GetSelected_lookup; cbn [UI.Selected UI.Components elems].
      * rewrite Hlen.
        replace (Z.to_nat (Z.of_nat (length l - 1) - 1)) with j by lia.
        rewrite lookup_app_l by (rewrite length_take; lia).
        by rewrite lookup_take_lt by lia.
      * exact Hc'.
      * rewrite Hlen. lia.
  - (* a component follows the selected one *)
    assert (HS : (S i < length l)%nat) by lia.
    destruct (lookup_lt_is_Some_2 l (S i) HS) as [next Hnext].
    rewrite Hnext.
    rewrite GetSelected_lookup; cbn [UI.Selected UI.Components elems].
    + fold i. rewrite lookup_app_r by (rewrite length_take; lia).
      rewrite length_take, lookup_drop.
      replace (S i + (i - i `min` length l))%nat with (S i) by lia.
      exact Hnext.
    + exact Hc'.
    + lia.
Qed.

Lemma RemoveSelected_passes_selection_witness :
  UI.GetSelected
    (UI.RemoveSelected
       (UI.AddComponent (plain "b" TypeText "Text")
          (UI.AddComponent (plain "a" TypeBox "Box")
             (UI.New 46 18 Ultraviolet))))
  = Some (Component.with_Position (Position.mk 23 9)
            (plain "a" TypeBox "Box")).
Proof.
  refine (proj2 (proj2
    (RemoveSelected_passes_selection
       (UI.AddComponent (plain "b" TypeText "Text")
          (UI.AddComponent (plain "a" TypeBox "Box")
             (UI.New 46 18 Ultraviolet))) _) _)).
  - unfold UI.well_formed. vm_compute. repeat split; discriminate.
  - vm_compute. discriminate.
Defined.

(** ** The combo box *)

Lemma List_filter_sublist {A} (f : A -> bool) (l : list A) :
  List.filter f l `sublist_of` l.
Proof.
  induction l as [|x l IH]; [constructor|]. cbn [List.filter].
  destruct (f x); by constructor.
Qed.

Section ComboBoxProperties.

Variable ComboBoxStyle : Type.
Variable ToLower : string -> string.

Implicit Types c : ComboBox.t ComboBoxStyle.

Lemma filterOptions_offers c :
  ComboBox.offers_options (ComboBox.filterOptions ToLower c).
Proof.
  unfold ComboBox.offers_options, ComboBox.filterOptions.
  destruct (String.eqb _ _); cbn; [done|apply List_filter_sublist].
Qed.

Lemma filterOptions_frame c :
  ComboBox.Options (ComboBox.filterOptions ToLower c)
  = ComboBox.Options c.
Proof. unfold ComboBox.filterOptions. by destruct (String.eqb _ _). Qed.

Lemma ensureVisible_frame c :
  ComboBox.Filtered (ComboBox.ensureVisible c) = ComboBox.Filtered c /\
  ComboBox.Options (ComboBox.ensureVisible c) = ComboBox.Options c.
Proof. unfold ComboBox.ensureVisible. by repeat case_match. Qed.

Lemma Update_offers msg c :
  ComboBox.offers_options c -> ComboBox.offers_options (ComboBox.Update ToLower msg c).1.
Proof.
  intros Hc. unfold ComboBox.Update.
  destruct (negb _); [done|]. destruct msg as [name|]; [|done].
  repeat (destruct (String.eqb name _)).
  - destruct (ComboBox.Open c); [|done]. cbn [fst].
    unfold ComboBox.offers_options.
    match goal with
    | |- context [ComboBox.ensureVisible ?x] =>
        destruct (ensureVisible_frame x) as [-> ->]
    end.
    by destruct (_ <? 0).
  - destruct (ComboBox.Open c); [|done]. cbn [fst].
    unfold ComboBox.offers_options.
    match goal with
    | |- context [ComboBox.ensureVisible ?x] =>
        destruct (ensureVisible_frame x) as [-> ->]
    end.
    by destruct (_ <=? _).
  - destruct (_ && _); [|done]. by destruct (_ !! _).
  - done.
  - destruct (_ && _); [|done]. cbn [fst]. apply filterOptions_offers.
  - destruct (_ && _); [|done]. cbn [fst]. apply filterOptions_offers.
Qed.

Lemma call_offers k c :
  ComboBox.offers_options c -> ComboBox.offers_options (ComboBox.call ToLower k c).
Proof.
  intros Hc. destruct k; cbn [ComboBox.call].
  - apply filterOptions_offers.
  - apply filterOptions_offers.
  - done.
  - by apply Update_offers.
Qed.


Lemma ensureVisible_window c :
  1 <= ComboBox.MaxVisible c < 2 ^ 62 ->
  - 2 ^ 62 <= ComboBox.ScrollY c < 2 ^ 62 ->
  - 2 ^ 62 <= ComboBox.Selected c < 2 ^ 62 ->
  ComboBox.Selected (ComboBox.ensureVisible c) = ComboBox.Selected c /\
  ComboBox.MaxVisible (ComboBox.ensureVisible c) = ComboBox.MaxVisible c /\
  ComboBox.ScrollY (ComboBox.ensureVisible c)
    <= ComboBox.Selected c
    < ComboBox.ScrollY (ComboBox.ensureVisible c) + ComboBox.MaxVisible c.
Proof.
  intros Hm Hs Hsel. unfold ComboBox.ensureVisible.
  destruct (Z.ltb_spec (ComboBox.Selected c) (ComboBox.ScrollY c));
    cbn [ComboBox.with_ScrollY ComboBox.ScrollY ComboBox.MaxVisible
         ComboBox.Selected];
    rewrite !int64_id by lia;
    match goal with
    | |- context [?a <=? ?b] => destruct (Z.leb_spec a b)
    end;
    cbn [ComboBox.with_ScrollY ComboBox.ScrollY ComboBox.MaxVisible
         ComboBox.Selected];
    rewrite ?int64_id by (rewrite ?int64_id by lia; lia); lia.
Qed.

(** With the focus on an open combo box that shows [n] entries, one at
    least, and whose selection is among them, the key down moves the
    selection to the next entry and from the last to the first, the key up
    to the entry before and from the first to the last; either leaves the
    value, the entries and the dropdown as they are, and scrolls so that
    the selection is within the [MaxVisible] entries shown from
    [ScrollY]. *)
Theorem combo_box_selection_cycles c :
  ComboBox.Focused c = true -> ComboBox.Open c = true ->
  0 <= ComboBox.Selected c < ComboBox.len_Filtered c ->
  ComboBox.len_Filtered c < 2 ^ 62 ->
  1 <= ComboBox.MaxVisible c < 2 ^ 62 ->
  - 2 ^ 62 <= ComboBox.ScrollY c < 2 ^ 62 ->
  let down := (ComboBox.Update ToLower (ComboBox.KeyMsg "down") c).1 in
  let up := (ComboBox.Update ToLower (ComboBox.KeyMsg "up") c).1 in
  ComboBox.Selected down
  = (ComboBox.Selected c + 1) mod ComboBox.len_Filtered c /\
  ComboBox.Selected up
  = (ComboBox.Selected c - 1) mod ComboBox.len_Filtered c /\
  ComboBox.ScrollY down <= ComboBox.Selected down
    < ComboBox.ScrollY down + ComboBox.MaxVisible c /\
  ComboBox.ScrollY up <= ComboBox.Selected up
    < ComboBox.ScrollY up + ComboBox.MaxVisible c /\
  (ComboBox.Value down, ComboBox.Filtered down, ComboBox.Open down)
  = (ComboBox.Value c, ComboBox.Filtered c, true) /\
  (ComboBox.Value up, ComboBox.Filtered up, ComboBox.Open up)
  = (ComboBox.Value c, ComboBox.Filtered c, true).
Proof.
  intros Hf Ho Hsel Hn Hm Hs. cbv zeta. unfold ComboBox.Update.
  rewrite Hf, Ho. cbn [negb].
  change (String.eqb "down" "up") with false.
  change (String.eqb "down" "down") with true.
  change (String.eqb "up" "up") with true. cbv iota. cbn [fst].
  rewrite !int64_id by lia.
  set (c1 := ComboBox.with_Selected (ComboBox.Selected c + 1) c).
  set (c2 := ComboBox.with_Selected (ComboBox.Selected c - 1) c).
  set (cd := if ComboBox.len_Filtered c1 <=? ComboBox.Selected c1
             then ComboBox.with_Selected 0 c1 else c1).
  set (cu := if ComboBox.Selected c2 <? 0
             then ComboBox.with_Selected (ComboBox.len_Filtered c2 - 1) c2
             else c2).
  change (ComboBox.len_Filtered c1) with (ComboBox.len_Filtered c) in cd.
  change (ComboBox.len_Filtered c2) with (ComboBox.len_Filtered c) in cu.
  set (n := ComboBox.len_Filtered c) in *.
  assert (Hd : ComboBox.Selected cd = (ComboBox.Selected c + 1) mod n /\
               ComboBox.MaxVisible cd = ComboBox.MaxVisible c /\
               ComboBox.ScrollY cd = ComboBox.ScrollY c /\
               (ComboBox.Value cd, ComboBox.Filtered cd, ComboBox.Open cd)
               = (ComboBox.Value c, ComboBox.Filtered c, true)).
  { subst cd c1.
    cbn [ComboBox.with_Selected ComboBox.Filtered ComboBox.Selected].
    destruct (Z.leb_spec n (ComboBox.Selected c + 1)); cbn; rewrite Ho.
    - replace (ComboBox.Selected c + 1) with n by lia.
      by rewrite Z.mod_same by lia.
    - by rewrite Z.mod_small by lia. }
  assert (Hu : ComboBox.Selected cu = (ComboBox.Selected c - 1) mod n /\
               ComboBox.MaxVisible cu = ComboBox.MaxVisible c /\
               ComboBox.ScrollY cu = ComboBox.ScrollY c /\
               (ComboBox.Value cu, ComboBox.Filtered cu, ComboBox.Open cu)
               = (ComboBox.Value c, ComboBox.Filtered c, true)).
  { subst cu c2.
    cbn [ComboBox.with_Selected ComboBox.Filtered ComboBox.Selected].
    destruct (Z.ltb_spec (ComboBox.Selected c - 1) 0); cbn; rewrite Ho.
    - replace (ComboBox.Selected c - 1) with (-1) by lia.
      split; [|done].
      replace (-1) with (n - 1 + (-1) * n) by lia.
      by rewrite Z.mod_add, Z.mod_small by lia.
    - by rewrite Z.mod_small by lia. }
  destruct Hd as (Hd1 & Hd2 & Hd3 & Hd4), Hu as (Hu1 & Hu2 & Hu3 & Hu4).
  assert (Hdr : 0 <= ComboBox.Selected cd < n)
    by (rewrite Hd1; apply Z.mod_pos_bound; lia).
  assert (Hur : 0 <= ComboBox.Selected cu < n)
    by (rewrite Hu1; apply Z.mod_pos_bound; lia).
  destruct (ensureVisible_window cd) as (Ed1 & Ed2 & Ed3); [lia|lia|lia|].
  destruct (ensureVisible_window cu) as (Eu1 & Eu2 & Eu3); [lia|lia|lia|].
  split; [lia|]. split; [lia|]. split; [lia|]. split; [lia|].
  split; [rewrite <- Hd4 | rewrite <- Hu4]; unfold ComboBox.ensureVisible;
    by repeat case_match.
Qed.

Lemma chop_snoc v a : ComboBox.chop (v +:+ String a "") = v.
Proof.
  unfold ComboBox.chop. rewrite length_append. cbn [String.length].
  replace (String.length v + 1 - 1)%nat with (String.length v) by lia.
  induction v as [|b v IH]; [done|].
  rewrite append_cons. cbn [String.length substring]. by rewrite IH.
Qed.

Lemma filterOptions_Value c :
  ComboBox.Value (ComboBox.filterOptions ToLower c) = ComboBox.Value c.
Proof. unfold ComboBox.filterOptions. by destruct (String.eqb _ _). Qed.

(** With the focus on an editable combo box, a key whose name is one byte
    long is typed: it is appended to the value, the entries are filtered
    anew, the dropdown opens and the selection goes to the first entry.
    A backspace then takes the byte off again: the value is the one
    before the key, and the entries are those [filterOptions] keeps for
    it. *)
Theorem typing_then_backspace c key :
  ComboBox.Focused c = true -> ComboBox.Editable c = true ->
  String.length key = 1%nat ->
  let typed := (ComboBox.Update ToLower (ComboBox.KeyMsg key) c).1 in
  let back :=
    (ComboBox.Update ToLower (ComboBox.KeyMsg "backspace") typed).1 in
  ComboBox.Value typed = ComboBox.Value c +:+ key /\
  (ComboBox.Selected typed, ComboBox.Open typed) = (0, true) /\
  ComboBox.Value back = ComboBox.Value c /\
  ComboBox.Filtered back
  = ComboBox.Filtered (ComboBox.filterOptions ToLower c) /\
  ComboBox.Open back = true.
Proof.
  intros Hf He Hk.
  destruct key as [|a [|b rest]]; try discriminate Hk. clear Hk.
  cbv zeta.
  assert (Htyped : (ComboBox.Update ToLower (ComboBox.KeyMsg (String a "")) c).1
    = ComboBox.with_Selected 0
        (ComboBox.with_Open true
           (ComboBox.filterOptions ToLower
              (ComboBox.with_Value (ComboBox.Value c +:+ String a "") c)))).
  { unfold ComboBox.Update. rewrite Hf, He. cbn [negb andb].
    cbn [String.eqb]. rewrite !andb_false_r || idtac.
    repeat match goal with
           | |- context [if Ascii.eqb a ?x then false else false] =>
               replace (if Ascii.eqb a x then false else false) with false
                 by (by destruct (Ascii.eqb a x))
           end.
    reflexivity. }
  rewrite Htyped.
  set (typed := ComboBox.with_Selected _ _).
  assert (Hv : ComboBox.Value typed = ComboBox.Value c +:+ String a "").
  { subst typed. cbn [ComboBox.with_Selected ComboBox.with_Open ComboBox.Value].
    by rewrite filterOptions_Value. }
  split; [exact Hv|]. split; [reflexivity|].
  unfold ComboBox.Update.
  replace (ComboBox.Focused typed) with true.
  2: { subst typed. unfold ComboBox.filterOptions.
       by destruct (String.eqb _ _); cbn; rewrite Hf. }
  replace (ComboBox.Editable typed) with true.
  2: { subst typed. unfold ComboBox.filterOptions.
       by destruct (String.eqb _ _); cbn; rewrite He. }
  cbn [negb andb].
  change (String.eqb "backspace" "up") with false.
  change (String.eqb "backspace" "down") with false.
  change (String.eqb "backspace" "enter") with false.
  change (String.eqb "backspace" "esc") with false.
  change (String.eqb "backspace" "backspace") with true. cbv iota.
  rewrite Hv, length_append. cbn [String.length].
  replace (0 <? String.length (ComboBox.Value c) + 1)%nat with true
    by (symmetry; apply Nat.ltb_lt; lia).
  cbn [fst]. rewrite chop_snoc.
  cbn [ComboBox.with_Open ComboBox.Value ComboBox.Filtered ComboBox.Open].
  rewrite filterOptions_Value. cbn [ComboBox.with_Value ComboBox.Value].
  split; [reflexivity|]. split; [|reflexivity].
  subst typed. unfold ComboBox.filterOptions.
  cbn [ComboBox.with_Value ComboBox.with_Selected ComboBox.with_Open
       ComboBox.with_Filtered ComboBox.Value ComboBox.Options
       ComboBox.Filtered].
  by repeat case_match.
Qed.

End ComboBoxProperties.

Lemma combo_box_selection_cycles_witness :
  ComboBox.Selected
    (ComboBox.Update (λ s, s) (ComboBox.KeyMsg "down")
       (ComboBox.mk unit "cb" 20 "" (mk_slice ["a"; "b"; "c"])
          (mk_slice ["a"; "b"; "c"]) 2 true true 5 0 true tt)).1
  = 0.
Proof.
  refine (proj1 (combo_box_selection_cycles unit (λ s, s)
                   (ComboBox.mk unit "cb" 20 "" (mk_slice ["a"; "b"; "c"])
                      (mk_slice ["a"; "b"; "c"]) 2 true true 5 0 true tt)
                   _ _ _ _ _ _)).
  - reflexivity.
  - reflexivity.
  - vm_compute. split; [discriminate|reflexivity].
  - reflexivity.
  - vm_compute. split; [discriminate|reflexivity].
  - vm_compute. split; [discriminate|reflexivity].
Defined.

Lemma typing_then_backspace_witness :
  ComboBox.Value
    (ComboBox.Update (λ s, s) (ComboBox.KeyMsg "backspace")
       (ComboBox.Update (λ s, s) (ComboBox.KeyMsg "q")
          (ComboBox.mk unit "cb" 20 "a" (mk_slice ["a"; "b"; "c"])
             (mk_slice ["a"]) 0 true true 5 0 true tt)).1).1
  = "a".
Proof.
  refine (proj1 (proj2 (proj2
    (typing_then_backspace unit (λ s, s)
       (ComboBox.mk unit "cb" 20 "a" (mk_slice ["a"; "b"; "c"])
          (mk_slice ["a"]) 0 true true 5 0 true tt) "q" _ _ _)))).
  - reflexivity.
  - reflexivity.
  - reflexivity.
Defined.

(** ** The sessions of the server *)

Lemma int64_range z : - 2 ^ 63 <= int64 z < 2 ^ 63.
Proof.
  unfold int64. pose proof (Z.mod_pos_bound (z + 2 ^ 63) (2 ^ 64)). lia.
Qed.

Lemma int64_congr a b : int64 a = int64 b -> (a - b) mod 2 ^ 64 = 0.
Proof.
  unfold int64. intros H.
  assert (E : (a + 2 ^ 63) mod 2 ^ 64 = (b + 2 ^ 63) mod 2 ^ 64) by lia.
  replace (a - b) with ((a + 2 ^ 63) - (b + 2 ^ 63)) by lia.
  rewrite Zminus_mod, E, Z.sub_diag. reflexivity.
Qed.

Lemma int64_add z k : int64 (int64 z + k) = int64 (z + k).
Proof.
  unfold int64.
  replace ((z + 2 ^ 63) mod 2 ^ 64 - 2 ^ 63 + k + 2 ^ 63)
    with ((z + 2 ^ 63) mod 2 ^ 64 + k) by lia.
  replace (z + k + 2 ^ 63) with (z + 2 ^ 63 + k) by lia.
  by rewrite Z.add_mod_idemp_l by lia.
Qed.

Lemma itoa_inj a b :
  is_int a = true -> is_int b = true -> itoa a = itoa b -> a = b.
Proof.
  intros Ha Hb E. apply ParseInt_itoa in Ha, Hb. rewrite E in Ha. congruence.
Qed.

Lemma is_int_int64 z : is_int (int64 z) = true.
Proof.
  pose proof (int64_range z). unfold is_int.
  apply andb_true_iff. split; [apply Z.leb_le|apply Z.ltb_lt]; lia.
Qed.

(** The id of the [k]-th session created after the counter stood at
    [c0]. *)
Lemma session_id_inj c0 j k :
  0 <= j < 2 ^ 64 -> 0 <= k < 2 ^ 64 ->
  "session_" +:+ itoa (int64 (c0 + j)) = "session_" +:+ itoa (int64 (c0 + k)) ->
  j = k.
Proof.
  intros Hj Hk E.
  assert (E' : itoa (int64 (c0 + j)) = itoa (int64 (c0 + k))).
  { change ("session_" +:+ ?s)
      with (String "s" (String "e" (String "s" (String "s" (String "i"
              (String "o" (String "n" (String "_" s)))))))) in E.
    by injection E. }
  apply itoa_inj in E'; [|apply is_int_int64..].
  apply int64_congr in E'.
  replace (c0 + j - (c0 + k)) with (j - k) in E' by lia.
  apply Z.mod_divide in E'; [|lia]. destruct E' as [q Hq].
  assert (q = 0) by lia. lia.
Qed.

Section RegistryProperties.

Variable TUIAgent : Type.
Variable NewTUIAgent : TUIAgent.

Implicit Types r : MCP.registry TUIAgent.

Lemma CreateSession_spec c0 n name r :
  MCP.registered c0 n r -> 0 <= n < 2 ^ 64 - 1 ->
  MCP.registered c0 (n + 1) (MCP.CreateSession NewTUIAgent name r).2 /\
  MCP.Name (MCP.CreateSession NewTUIAgent name r).1 = name /\
  MCP.GetSession (MCP.ID (MCP.CreateSession NewTUIAgent name r).1) r = None /\
  MCP.GetSession (MCP.ID (MCP.CreateSession NewTUIAgent name r).1)
    (MCP.CreateSession NewTUIAgent name r).2
  = Some (MCP.CreateSession NewTUIAgent name r).1 /\
  (forall id s, MCP.GetSession id r = Some s ->
     MCP.GetSession id (MCP.CreateSession NewTUIAgent name r).2 = Some s).
Proof.
  intros [Hc Hkeys] Hn.
  unfold MCP.CreateSession, MCP.generateSessionID, MCP.GetSession.
  cbn [fst snd MCP.ID MCP.Name MCP.sessions MCP.sessionCounter].
  rewrite Hc, int64_add, <- Z.add_assoc.
  set (id := "session_" +:+ itoa (int64 (c0 + (n + 1)))).
  assert (Hnew : MCP.sessions r !! id = None).
  { destruct (MCP.sessions r !! id) as [s|] eqn:E; [|done].
    destruct (Hkeys id s E) as (_ & k & Hk & Eid).
    apply session_id_inj in Eid; lia. }
  split; [|split; [done|split; [done|split]]].
  - split; [done|]. intros id' s. cbn [MCP.sessions].
    destruct (decide (id = id')) as [Heq|Hne].
    + subst id'. rewrite fin_maps.lookup_insert_eq. intros [= <-].
      split; [done|]. exists (n + 1). split; [lia|done].
    + rewrite fin_maps.lookup_insert_ne by done. intros E.
      destruct (Hkeys id' s E) as (Hid & k & Hk & Eid).
      split; [done|]. exists k. split; [lia|done].
  - apply fin_maps.lookup_insert_eq.
  - intros id' s E. rewrite fin_maps.lookup_insert_ne; [done|].
    intros Heq. subst id'. congruence.
Qed.

Lemma create_all_spec c0 names :
  forall n r,
  MCP.registered c0 n r -> 0 <= n ->
  n + Z.of_nat (length names) < 2 ^ 64 ->
  MCP.registered c0 (n + Z.of_nat (length names))
    (MCP.create_all NewTUIAgent names r).2 /\
  map MCP.Name (MCP.create_all NewTUIAgent names r).1 = names /\
  (forall id s, MCP.GetSession id r = Some s ->
     MCP.GetSession id (MCP.create_all NewTUIAgent names r).2 = Some s) /\
  Forall (λ s, MCP.GetSession (MCP.ID s)
                 (MCP.create_all NewTUIAgent names r).2 = Some s /\
               MCP.GetSession (MCP.ID s) r = None)
    (MCP.create_all NewTUIAgent names r).1 /\
  NoDup (map MCP.ID (MCP.create_all NewTUIAgent names r).1).
Proof.
  induction names as [|name names IH]; intros n r Hr Hn Hlen.
  { cbn [MCP.create_all fst snd length map Z.of_nat]. rewrite Z.add_0_r.
    split; [done|]. split; [done|]. split; [done|].
    split; constructor. }
  cbn [MCP.create_all length] in *.
  destruct (CreateSession_spec c0 n name r Hr) as (Hr1 & Hname & Hfresh & Hget & Hkeep);
    [lia|].
  destruct (MCP.CreateSession NewTUIAgent name r) as [s r1].
  cbn [fst snd] in *.
  destruct (IH (n + 1) r1 Hr1) as (Hr2 & Hnames & Hkeep2 & Hall & Hnd);
    [lia|lia|].
  destruct (MCP.create_all NewTUIAgent names r1) as [created r2].
  cbn [fst snd map] in *.
  split; [by replace (n + Z.of_nat (S (length names)))
               with (n + 1 + Z.of_nat (length names)) by lia|].
  split; [by rewrite Hname, Hnames|].
  split; [by auto|]. split.
  - apply Forall_cons. split; [by auto|].
    eapply Forall_impl; [exact Hall|]. intros s' [Hs' Hnone].
    split; [done|].
    destruct (MCP.GetSession (MCP.ID s') r) as [s0|] eqn:E; [|done].
    apply Hkeep in E. congruence.
  - apply NoDup_cons. split; [|done].
    intros Hin. apply list_elem_of_fmap in Hin as (s' & Eid & Hs').
    rewrite Forall_forall in Hall. destruct (Hall s' Hs') as [_ Hnone].
    rewrite <- Eid in Hnone. congruence.
Qed.

(** Sessions created one after the other on a server that has none, from
    any state of the session counter, get ids that differ from one
    another, and [GetSession] with the id of any of them returns that
    session, with the name it was created with: no session takes the
    place of an earlier one.  This holds for fewer than 2^64 sessions,
    also when the counter wraps around on the way. *)
Theorem created_sessions_are_kept names counter :
  Z.of_nat (length names) < 2 ^ 64 ->
  is_int counter = true ->
  let r0 := MCP.mk_registry ∅ counter in
  map MCP.Name (MCP.create_all NewTUIAgent names r0).1 = names /\
  NoDup (map MCP.ID (MCP.create_all NewTUIAgent names r0).1) /\
  Forall (λ s, MCP.GetSession (MCP.ID s)
                 (MCP.create_all NewTUIAgent names r0).2 = Some s)
    (MCP.create_all NewTUIAgent names r0).1.
Proof.
  intros Hlen Hc. cbv zeta.
  destruct (create_all_spec counter names 0 (MCP.mk_registry ∅ counter))
    as (_ & Hnames & _ & Hall & Hnd); [|lia|lia|].
  { split.
    - cbn. rewrite Z.add_0_r. symmetry. apply int64_id.
      by apply is_int_range.
    - intros id s E. cbn in E. by rewrite fin_maps.lookup_empty in E. }
  split; [done|]. split; [done|].
  eapply Forall_impl; [exact Hall|]. by intros s [? _].
Qed.

End RegistryProperties.

Lemma created_sessions_are_kept_witness :
  map MCP.ID (MCP.create_all tt ["one"; "two"] (MCP.mk_registry ∅ 0)).1
  = ["session_1"; "session_2"] /\
  NoDup (map MCP.ID
           (MCP.create_all tt ["one"; "two"] (MCP.mk_registry ∅ 0)).1).
Proof.
  split; [reflexivity|].
  refine (proj1 (proj2
    (created_sessions_are_kept unit tt ["one"; "two"] 0 _ _))).
  - reflexivity.
  - reflexivity.
Defined.

(** ** Loading a canvas *)

Section LoadProperties.

Variable ParseFloat : string -> option float64.

(** [LoadFromJSON] either fails and leaves the session as it is, or
    succeeds and replaces the live canvas; it never touches the history or
    the stacks, so it takes no snapshot and an [Undo] cannot bring back
    the canvas it replaced.  Text that is not JSON is a syntax error; a
    JSON value other than an object or [null] is a type error; [null], and
    the empty object, give the zero canvas: no name, no size, no theme and
    a nil component list. *)
Theorem LoadFromJSON_replaces_canvas_only data s :
  ((LoadFromJSON ParseFloat data s).1 <> None ->
   (LoadFromJSON ParseFloat data s).2 = s) /\
  (Session.History (LoadFromJSON ParseFloat data s).2,
   Session.UndoStack (LoadFromJSON ParseFloat data s).2,
   Session.RedoStack (LoadFromJSON ParseFloat data s).2)
  = (Session.History s, Session.UndoStack s, Session.RedoStack s) /\
  (data = None ->
   (LoadFromJSON ParseFloat data s).1 = Some (JSONError SyntaxError)) /\
  (forall j, data = Some j ->
     match j with JNull | JObject _ => False | _ => True end ->
     (LoadFromJSON ParseFloat data s).1 = Some (JSONError UnmarshalTypeError)) /\
  (data = Some JNull \/ data = Some (JObject []) ->
   LoadFromJSON ParseFloat data s
   = (None, Session.with_Canvas Canvas_zero s)).
Proof.
  unfold LoadFromJSON, Unmarshal_Canvas, Unmarshal.
  split; [|split; [|split; [|split]]].
  - destruct data as [j|]; [|done].
    destruct (into_struct _ j Canvas_zero); [|done]. intros H. by destruct H.
  - destruct data as [j|]; [|done].
    by destruct (into_struct _ j Canvas_zero).
  - by intros ->.
  - intros j -> Hj. by destruct j.
  - by intros [-> | ->].
Qed.

End LoadProperties.

Lemma LoadFromJSON_replaces_canvas_only_witness :
  LoadFromJSON ParseInt (Some (JArray [])) demo_session
  = (Some (JSONError UnmarshalTypeError), demo_session).
Proof.
  pose proof (LoadFromJSON_replaces_canvas_only ParseInt (Some (JArray []))
                demo_session) as (Hs & _ & _ & He & _).
  specialize (He (JArray []) eq_refl I).
  rewrite (surjective_pairing (LoadFromJSON _ _ _)), He, Hs; [done|].
  by rewrite He.
Defined.

(** ** Payloads that leave fields out *)

(** A payload that holds the id and nothing else is accepted: the fields
    it leaves out are the zero values of the parameter struct.  With such
    a payload, on a component that is found, move puts the component at
    (0, 0), resize gives it the size 0 by 0, style takes its style away,
    border included, and set-text empties its text.  AddComponent with
    the empty object appends a component with no type and no name. *)
Theorem missing_fields_become_zero id s w i :
  scan (toValidUTF8 id) (components s) = Some i ->
  let changed f :=
    (None : error,
     set_components (mk_slice (alter f i (components s))) (saveState s),
     w) in
  Execute (Command.mk CmdMoveComponent (Marshal_ID id)) s w
  = changed (Component.with_Position (Position.mk 0 0)) /\
  Execute (Command.mk CmdResizeComponent (Marshal_ID id)) s w
  = changed (Component.with_Size (Size.mk 0 0)) /\
  Execute (Command.mk CmdStyleComponent (Marshal_ID id)) s w
  = changed (Component.with_Style Style.zero) /\
  Execute (Command.mk CmdSetText (Marshal_ID id)) s w
  = changed (Component.with_Text "") /\
  Execute (Command.mk CmdAddComponent (Some (JObject []))) s w
  = (None,
     set_components
       (append (Canvas.Components (Session.Canvas s))
          (plain (generateID w).1 "" ""))
       (saveState s),
     (generateID w).2).
Proof.
  intros Hscan. cbv zeta.
  split; [|split; [|split; [|split]]].
  - unfold Execute, dispatch; cbn [Command.Type_ Command.Params].
    change (String.eqb CmdMoveComponent CmdAddComponent) with false.
    change (String.eqb CmdMoveComponent CmdRemoveComponent) with false.
    change (String.eqb CmdMoveComponent CmdMoveComponent) with true.
    cbv iota. unfold pure_step, moveComponent.
    change (Unmarshal_MoveComponentParams (Marshal_ID id))
      with (inr (MoveComponentParams.mk (toValidUTF8 id) 0 0)
            : json_error + MoveComponentParams.t).
    cbv iota. cbn [MoveComponentParams.ID MoveComponentParams.X
                   MoveComponentParams.Y].
    by rewrite (update_found _ _ _ _ Hscan).
  - unfold Execute, dispatch; cbn [Command.Type_ Command.Params].
    change (String.eqb CmdResizeComponent CmdAddComponent) with false.
    change (String.eqb CmdResizeComponent CmdRemoveComponent) with false.
    change (String.eqb CmdResizeComponent CmdMoveComponent) with false.
    change (String.eqb CmdResizeComponent CmdResizeComponent) with true.
    cbv iota. unfold pure_step, resizeComponent.
    change (Unmarshal_ResizeComponentParams (Marshal_ID id))
      with (inr (ResizeComponentParams.mk (toValidUTF8 id) 0 0)
            : json_error + ResizeComponentParams.t).
    cbv iota. cbn [ResizeComponentParams.ID ResizeComponentParams.Width
                   ResizeComponentParams.Height].
    by rewrite (update_found _ _ _ _ Hscan).
  - unfold Execute, dispatch; cbn [Command.Type_ Command.Params].
    change (String.eqb CmdStyleComponent CmdAddComponent) with false.
    change (String.eqb CmdStyleComponent CmdRemoveComponent) with false.
    change (String.eqb CmdStyleComponent CmdMoveComponent) with false.
    change (String.eqb CmdStyleComponent CmdResizeComponent) with false.
    change (String.eqb CmdStyleComponent CmdStyleComponent) with true.
    cbv iota. unfold pure_step, styleComponent.
    change (Unmarshal_StyleComponentParams (Marshal_ID id))
      with (inr (StyleComponentParams.mk (toValidUTF8 id) Style.zero)
            : json_error + StyleComponentParams.t).
    cbv iota. cbn [StyleComponentParams.ID StyleComponentParams.Style].
    by rewrite (update_found _ _ _ _ Hscan).
  - unfold Execute, dispatch; cbn [Command.Type_ Command.Params].
    change (String.eqb CmdSetText CmdAddComponent) with false.
    change (String.eqb CmdSetText CmdRemoveComponent) with false.
    change (String.eqb CmdSetText CmdMoveComponent) with false.
    change (String.eqb CmdSetText CmdResizeComponent) with false.
    change (String.eqb CmdSetText CmdStyleComponent) with false.
    change (String.eqb CmdSetText CmdSetText) with true.
    cbv iota. unfold pure_step, setText.
    change (Unmarshal_SetTextParams (Marshal_ID id))
      with (inr (SetTextParams.mk (toValidUTF8 id) "")
            : json_error + SetTextParams.t).
    cbv iota. cbn [SetTextParams.ID SetTextParams.Text].
    by rewrite (update_found _ _ _ _ Hscan).
  - unfold Execute, dispatch; cbn [Command.Type_ Command.Params].
    change (String.eqb CmdAddComponent CmdAddComponent) with true.
    cbv iota. unfold addComponent.
    change (Unmarshal_AddComponentParams (Some (JObject [])))
      with (inr (AddComponentParams.mk "" "" 0 0 0 0 "" None)
            : json_error + AddComponentParams.t).
    cbv iota. unfold NewComponent. by destruct (generateID w) as [id' w'].
Qed.

Lemma missing_fields_become_zero_witness :
  Component.Size <$>
    GetComponent "comp_04a40001deadbeef"
      (Execute
         (Command.mk CmdResizeComponent (Marshal_ID "comp_04a40001deadbeef"))
         (Execute add_header demo_session fresh_world).1.2
         fresh_world).1.2
  = Some (Size.mk 0 0).
Proof.
  pose proof (missing_fields_become_zero "comp_04a40001deadbeef"
                (Execute add_header demo_session fresh_world).1.2
                fresh_world 0 eq_refl) as (_ & E & _).
  by rewrite E.
Defined.

(** ** Undoing everything *)

(** As many undos as the undo stack is deep: the bottom snapshot comes
    back, the stack is empty and every canvas passed on the way is on the
    redo stack. *)
Lemma run_undos u :
  forall c h r w,
  run (replicate (length u) OpUndo) (Session.mk c h u r) w
  = (Session.mk (hd c u) h [] (r ++ reverse (tl (u ++ [c]))), w).
Proof.
  induction u as [|x u IH] using rev_ind; intros c h r w.
  { cbn. by rewrite app_nil_r. }
  rewrite length_app. cbn [length].
  replace (length u + 1)%nat with (S (length u)) by lia.
  cbn [replicate run step]. rewrite Undo_after_push. cbn [snd].
  rewrite IH. f_equal. f_equal.
  - by destruct u.
  - rewrite <- app_assoc. f_equal.
    destruct u as [|y u]; [done|].
    cbn [app tl]. rewrite (reverse_app (u ++ [x]) [c]).
    reflexivity.
Qed.

(** Every [Execute] pushes one snapshot, whether the command then succeeds
    or not, and the first one pushed is the canvas it started from. *)
Lemma run_executes_undo cmds :
  forall s w,
  exists pushed,
    Session.UndoStack (run (map OpExecute cmds) s w).1
    = Session.UndoStack s ++ pushed /\
    length pushed = length cmds /\
    (cmds <> [] -> head pushed = Some (snapshot (Session.Canvas s))).
Proof.
  induction cmds as [|cmd cmds IH]; intros s w.
  { exists []. cbn. by rewrite app_nil_r. }
  cbn [map run step].
  destruct (dispatch_frame cmd (saveState s) w) as (_ & Hu & _).
  fold (Execute cmd s w) in Hu. rewrite saveState_undo in Hu.
  destruct (IH (Execute cmd s w).1.2 (Execute cmd s w).2)
    as (pushed & Hp & Hl & _).
  exists (snapshot (Session.Canvas s) :: pushed).
  rewrite Hp, Hu, <- app_assoc. split; [done|]. split; [|done].
  cbn [length]. by rewrite Hl.
Qed.

Lemma run_executes_redo cmds :
  forall s w,
  Session.RedoStack s = [] ->
  Session.RedoStack (run (map OpExecute cmds) s w).1 = [].
Proof.
  induction cmds as [|cmd cmds IH]; intros s w Hr; [done|].
  cbn [map run step]. apply IH.
  destruct (dispatch_frame cmd (saveState s) w) as (_ & _ & Hd).
  exact Hd.
Qed.

(** After any commands executed on a new session, whether they succeed or
    fail, as many undos as there were commands bring back the canvas of
    the new session and empty the undo stack, so that one more [Undo]
    returns false; the redo stack then holds one canvas per command. *)
Theorem undo_everything cmds name width height w :
  let ran := run (map OpExecute cmds) (NewSession name width height) w in
  let s := (run (replicate (length cmds) OpUndo) ran.1 ran.2).1 in
  Session.Canvas s = Session.Canvas (NewSession name width height) /\
  Session.UndoStack s = [] /\
  (Undo s).1 = false /\
  length (Session.RedoStack s) = length cmds.
Proof.
  cbv zeta.
  destruct (run_executes_undo cmds (NewSession name width height) w)
    as (pushed & Hu & Hl & Hhd).
  pose proof (run_executes_redo cmds (NewSession name width height) w eq_refl)
    as Hr.
  assert (cmds = [] ->
    Session.Canvas (run (map OpExecute cmds) (NewSession name width height) w).1
    = Session.Canvas (NewSession name width height)) as Hc
    by (by intros ->).
  destruct (run (map OpExecute cmds) (NewSession name width height) w)
    as [[c h u r] w1].
  cbn [fst snd Session.UndoStack Session.RedoStack Session.Canvas] in *.
  cbn [NewSession Session.UndoStack app] in Hu. subst u r.
  rewrite <- Hl, run_undos.
  cbn [fst Session.Canvas Session.UndoStack Session.RedoStack app].
  split; [|split; [done|split; [reflexivity|]]].
  - destruct pushed as [|x pushed].
    + apply Hc. by destruct cmds.
    + assert (cmds <> []) as Hne by (by destruct cmds).
      specialize (Hhd Hne). injection Hhd as ->. reflexivity.
  - rewrite length_reverse.
    destruct pushed as [|x pushed]; [done|].
    cbn [app tl]. rewrite length_app. cbn [length]. lia.
Qed.
